(** * productmd: artifact locations and metadata version detection

  A shallow embedding of [productmd/version.py] and
  [productmd/location.py], and the properties of the design document
  proved (or refuted) on it.

  Conventions of the embedding.
  - A Python call that may raise is a function into [result]; the
    exception classes the two modules can raise are the constructors of
    [exn].
  - A parsed JSON document is a [json] value.  A dict is the list of its
    items in insertion order (a JSON parser never produces two items with
    one key).  Python [int] is unbounded, hence [Z].  A [float] is a
    [spec_float]: a signed zero, an infinity, a NaN, or a sign, a mantissa
    and a binary exponent.
  - [str] is [string]: the characters are the 256 values of [ascii], the
    code points 0 to 255. *)

From Stdlib Require Import ZArith List Bool Ascii String Lia.
From Stdlib Require Import DecimalString DecimalZ.
From Stdlib Require SpecFloat.
Import ListNotations.

Set Warnings "-register-all".

Local Open Scope string_scope.
Local Open Scope Z_scope.
Local Open Scope list_scope.

(* ------------------------------------------------------------------ *)
(** * Python values, exceptions and builtins *)

Module Py.

(** The exception classes that the modelled code raises. *)
Inductive exn : Set :=
| TypeError
| ValueError
| KeyError
| IndexError
| AttributeError
| OverflowError.

Inductive result (A : Type) : Type :=
| Ok (a : A)
| Raise (e : exn).

Arguments Ok {A} a.
Arguments Raise {A} e.

Definition bind {A B : Type} (m : result A) (f : A -> result B) : result B :=
  match m with
  | Ok a => f a
  | Raise e => Raise e
  end.

Definition is_ok {A : Type} (m : result A) : bool :=
  match m with
  | Ok _ => true
  | Raise _ => false
  end.

Definition raises {A : Type} (m : result A) : Prop :=
  exists e, m = Raise e.

(** What [json.load] returns. *)
Inductive json : Type :=
| JNull
| JBool (b : bool)
| JInt (n : Z)
| JFloat (x : SpecFloat.spec_float)
| JStr (s : string)
| JList (xs : list json)
| JDict (items : list (string * json)).

Definition dict : Type := list (string * json).

(** [d.get(key)] on the items of a dict. *)
Fixpoint dict_get (key : string) (d : dict) : option json :=
  match d with
  | [] => None
  | (k, v) :: rest => if String.eqb key k then Some v else dict_get key rest
  end.

(** [key in d] for a dict [d]. *)
Definition has_key (key : string) (d : dict) : bool :=
  match dict_get key d with
  | Some _ => true
  | None => false
  end.

(** [d.values()] as a list, in insertion order. *)
Definition dict_values (d : dict) : list json := map snd d.

(** [sub in s] for two strings. *)
Fixpoint str_contains (sub s : string) : bool :=
  String.prefix sub s
  || match s with
     | EmptyString => false
     | String _ s' => str_contains sub s'
     end.

Definition is_dict (v : json) : bool :=
  match v with
  | JDict _ => true
  | _ => false
  end.

Definition is_list (v : json) : bool :=
  match v with
  | JList _ => true
  | _ => false
  end.

(** [key in v] where [key] is a str: membership of the key in a dict, of
    an equal element in a list, of a substring in a str; the other values
    are not iterable. *)
Definition contains (key : string) (v : json) : result bool :=
  match v with
  | JDict d => Ok (has_key key d)
  | JList xs =>
      Ok (existsb (fun x => match x with
                            | JStr s => String.eqb key s
                            | _ => false
                            end) xs)
  | JStr s => Ok (str_contains key s)
  | JNull | JBool _ | JInt _ | JFloat _ => Raise TypeError
  end.

(** [v[key]] where [key] is a str. *)
Definition getitem (v : json) (key : string) : result json :=
  match v with
  | JDict d =>
      match dict_get key d with
      | Some x => Ok x
      | None => Raise KeyError
      end
  | _ => Raise TypeError
  end.

(** [v.values()]: only a dict has the method. *)
Definition values (v : json) : result (list json) :=
  match v with
  | JDict d => Ok (dict_values d)
  | _ => Raise AttributeError
  end.

(** [s.split(sep)] for a separator of one character. *)
Fixpoint split (sep : ascii) (s : string) : list string :=
  match s with
  | EmptyString => [EmptyString]
  | String c s' =>
      if Ascii.eqb c sep then EmptyString :: split sep s'
      else match split sep s' with
           | p :: ps => String c p :: ps
           | [] => [String c EmptyString]
           end
  end.

(** [l[i]] on a list. *)
Definition index {A : Type} (l : list A) (i : nat) : result A :=
  match nth_error l i with
  | Some x => Ok x
  | None => Raise IndexError
  end.

(** The characters that [int] skips around a literal: tab to carriage
    return and the space and, of the characters from 128 on, the two that
    are white space, next line (133) and the no-break space (160).  The
    separators 28 to 31, which [str.strip] removes, are no white space for
    [int]. *)
Definition is_space (c : ascii) : bool :=
  let n := nat_of_ascii c in
  ((9 <=? n) && (n <=? 13) || (n =? 32) || (n =? 133) || (n =? 160))%nat.

Definition digit_value (c : ascii) : option Z :=
  let n := nat_of_ascii c in
  if ((48 <=? n) && (n <=? 57))%nat then Some (Z.of_nat n - 48) else None.

Fixpoint lstrip (s : string) : string :=
  match s with
  | String c s' => if is_space c then lstrip s' else s
  | EmptyString => EmptyString
  end.

(** The digits of an integer literal after the first digit has been read:
    [acc] is the value so far, [after_us] says that the last character
    was an underscore (which a digit must follow).  Trailing white space
    ends the literal. *)
Fixpoint int_digits (acc : Z) (after_us : bool) (s : string) : option Z :=
  match s with
  | EmptyString => if after_us then None else Some acc
  | String c s' =>
      match digit_value c with
      | Some d => int_digits (10 * acc + d) false s'
      | None =>
          if Ascii.eqb c "_" then
            if after_us then None else int_digits acc true s'
          else if is_space c && negb after_us then
            match lstrip s' with
            | EmptyString => Some acc
            | _ => None
            end
          else None
      end
  end.

Definition int_unsigned (s : string) : option Z :=
  match s with
  | String c s' =>
      match digit_value c with
      | Some d => int_digits d false s'
      | None => None
      end
  | EmptyString => None
  end.

(** [int(s)] for a str, base ten: optional surrounding white space, an
    optional sign, decimal digits with single underscores between them.
    (The interpreter's limit on the number of digits is not modelled.) *)
Definition int_of_str (s : string) : result Z :=
  let r :=
    match lstrip s with
    | String "-" s' => option_map Z.opp (int_unsigned s')
    | String "+" s' => int_unsigned s'
    | s' => int_unsigned s'
    end in
  match r with
  | Some n => Ok n
  | None => Raise ValueError
  end.

(** [int(x)] for a float: the integral part, towards zero; an infinity
    and a NaN are not converted. *)
Definition int_of_float (x : SpecFloat.spec_float) : result Z :=
  match x with
  | SpecFloat.S754_zero _ => Ok 0
  | SpecFloat.S754_infinity _ => Raise OverflowError
  | SpecFloat.S754_nan => Raise ValueError
  | SpecFloat.S754_finite negative m e =>
      let magnitude := Z.shiftl (Z.pos m) e in
      Ok (if negative then - magnitude else magnitude)
  end.

(** [int(v)] for a parsed JSON value. *)
Definition int (v : json) : result Z :=
  match v with
  | JInt n => Ok n
  | JBool b => Ok (if b then 1 else 0)
  | JFloat x => int_of_float x
  | JStr s => int_of_str s
  | JNull | JList _ | JDict _ => Raise TypeError
  end.

(** [bool(v)]: [None], [False], a zero, an empty str, list or dict are
    false. *)
Definition truthy (v : json) : bool :=
  match v with
  | JNull => false
  | JBool b => b
  | JInt n => negb (n =? 0)
  | JFloat (SpecFloat.S754_zero _) => false
  | JFloat _ => true
  | JStr EmptyString => false
  | JStr _ => true
  | JList [] => false
  | JList _ => true
  | JDict [] => false
  | JDict _ => true
  end.

(** [str(n)] for an int: decimal digits, a minus sign before a negative
    number.  (As for [int], the interpreter's limit on the number of digits
    is not modelled.) *)
Definition str_of_int (n : Z) : string := NilZero.string_of_int (Z.to_int n).

(** [s.endswith(ch)] for a character [ch]. *)
Fixpoint ends_with (ch : ascii) (s : string) : bool :=
  match s with
  | EmptyString => false
  | String c EmptyString => Ascii.eqb c ch
  | String _ s' => ends_with ch s'
  end.

(** One step of [os.path.join] on a POSIX system: an absolute component
    replaces what was joined so far, another one is appended, after a slash
    unless the path is empty or ends with one. *)
Definition join_step (path b : string) : string :=
  if String.prefix "/" b then b
  else match path with
       | EmptyString => b
       | _ => if ends_with "/" path then (path ++ b)%string
              else (path ++ "/" ++ b)%string
       end.

(** [os.path.join(a, *p)]. *)
Definition path_join (a : string) (p : list string) : string :=
  fold_left join_step p a.

(** [s.lower()]: the capital letters among the 256 characters are A to Z
    and the accented capitals from 192 to 222, the multiplication sign 215
    excepted; the small letter is 32 further. *)
Definition lower_char (c : ascii) : ascii :=
  let n := nat_of_ascii c in
  if ((65 <=? n) && (n <=? 90)
      || (192 <=? n) && (n <=? 222) && negb (n =? 215))%nat
  then ascii_of_nat (n + 32)
  else c.

Fixpoint lower (s : string) : string :=
  match s with
  | EmptyString => EmptyString
  | String c s' => String (lower_char c) (lower s')
  end.

(** What a call that reaches the operating system raises: an exception
    of the interpreter, or [OSError] (a missing or unreadable file). *)
Inductive io_exn : Set :=
| Builtin (e : exn)
| OSError.

Inductive io (A : Type) : Type :=
| Return (a : A)
| Throw (e : io_exn).

Arguments Return {A} a.
Arguments Throw {A} e.

Definition io_bind {A B : Type} (m : io A) (f : A -> io B) : io B :=
  match m with
  | Return a => f a
  | Throw e => Throw e
  end.

Definition lift {A : Type} (m : result A) : io A :=
  match m with
  | Ok a => Return a
  | Raise e => Throw (Builtin e)
  end.

(** [hashlib] and the file system, as the interpreter provides them.
    [hashlib_new] is [hashlib.new]; [read_blocks path] is [open(path, "rb")]
    and the blocks of at most 1 MiB that the successive [read] calls
    return before the empty one; [getsize] is [os.path.getsize]. *)
Class Platform : Type := {
  hasher : Type;
  hashlib_new : option string -> io hasher;
  hasher_update : hasher -> string -> hasher;
  hasher_hexdigest : hasher -> string;
  read_blocks : string -> io (list string);
  getsize : string -> io Z
}.

End Py.

Import Py.

Notation "x <- m ;; k" := (Py.bind m (fun x => k))
(at level 61, m at next level, right associativity).

Notation "x <-- m ;; k" := (Py.io_bind m (fun x => k))
(at level 61, m at next level, right associativity).

(* ------------------------------------------------------------------ *)
(** * productmd/version.py *)

Module Version.

Definition version : Type := (Z * Z)%type.

Definition VERSION_1_0 : version := (1, 0).
Definition VERSION_1_1 : version := (1, 1).
Definition VERSION_1_2 : version := (1, 2).
Definition VERSION_2_0 : version := (2, 0).

Definition CURRENT_VERSION : version := VERSION_1_2.
Definition MIN_LOCATION_VERSION : version := VERSION_2_0.

(** [a >= b] on two tuples of two ints: the first components that differ
    decide, equal tuples are [>=]. *)
Definition tuple_ge (a b : version) : bool :=
  if fst a =? fst b then snd b <=? snd a else fst b <=? fst a.

(** [string_to_version]: the argument is whatever the caller passes; a
    value without a [split] method raises [AttributeError], which the
    [except] clause does not catch. *)
Definition string_to_version (version_str : json) : result version :=
  match version_str with
  | JStr s =>
      let parts := split "." s in
      let body :=
        p0 <- index parts 0 ;;
        major <- int_of_str p0 ;;
        p1 <- index parts 1 ;;
        minor <- int_of_str p1 ;;
        Ok (major, minor) in
      match body with
      | Ok v => Ok v
      | Raise ValueError | Raise IndexError => Raise ValueError
      | Raise e => Raise e
      end
  | _ => Raise AttributeError
  end.

(** The argument of the predicates: [Union[str, Tuple[int, int]]]. *)
Inductive version_arg : Type :=
| OfStr (s : string)
| OfTuple (v : version).

Definition get_version_tuple (v : version_arg) : result version :=
  match v with
  | OfStr s => string_to_version (JStr s)
  | OfTuple t => Ok t
  end.

Definition is_v1 (v : version_arg) : result bool :=
  t <- get_version_tuple v ;; Ok (fst t =? 1).

Definition is_v2 (v : version_arg) : result bool :=
  t <- get_version_tuple v ;; Ok (2 <=? fst t).

Definition is_distributed (v : version_arg) : result bool := is_v2 v.

Definition supports_location_objects (v : version_arg) : result bool :=
  t <- get_version_tuple v ;; Ok (tuple_ge t MIN_LOCATION_VERSION).

(** [isinstance(x, dict) and key in x] *)
Definition dict_with_key (key : string) (x : json) : bool :=
  match x with
  | JDict d => has_key key d
  | _ => false
  end.

(** The loops of [_has_location_in_payload] below the first [values()]
    call: every level is guarded by [isinstance], so they cannot raise. *)
Definition rpms_variant_has_location (variant : json) : bool :=
  match variant with
  | JDict archs =>
      existsb (fun arch =>
        match arch with
        | JDict srpms =>
            existsb (fun srpm =>
              match srpm with
              | JDict rpms => existsb (dict_with_key "location") (dict_values rpms)
              | _ => false
              end) (dict_values srpms)
        | _ => false
        end) (dict_values archs)
  | _ => false
  end.

Definition list_variant_has_location (variant : json) : bool :=
  match variant with
  | JDict archs =>
      existsb (fun arch =>
        match arch with
        | JList items => existsb (dict_with_key "location") items
        | _ => false
        end) (dict_values archs)
  | _ => false
  end.

(** The body of the loop over [payload["variants"].values()]:
    [paths.values()] is called without an [isinstance] guard. *)
Definition variant_has_url (variant : json) : result bool :=
  match variant with
  | JDict v =>
      match dict_get "paths" v with
      | Some paths =>
          path_types <- values paths ;;
          Ok (existsb (fun path_type =>
                match path_type with
                | JDict arch_paths =>
                    existsb (dict_with_key "url") (dict_values arch_paths)
                | _ => false
                end) path_types)
      | None => Ok false
      end
  | _ => Ok false
  end.

(** A [for] loop that returns [True] at the first element for which the
    body does, and propagates what the body raises. *)
Fixpoint any_m {A : Type} (f : A -> result bool) (l : list A) : result bool :=
  match l with
  | [] => Ok false
  | x :: rest =>
      b <- f x ;;
      if b then Ok true else any_m f rest
  end.

(** One [if key in payload: for variant in payload[key].values(): ...]
    block. *)
Definition check_block (key : string) (body : json -> result bool)
           (payload : json) : result bool :=
  present <- contains key payload ;;
  if present then
    container <- getitem payload key ;;
    variants <- values container ;;
    any_m body variants
  else Ok false.

Definition _has_location_in_payload (payload : json) : result bool :=
  r <- check_block "rpms" (fun v => Ok (rpms_variant_has_location v)) payload ;;
  if r then Ok true else
  i <- check_block "images" (fun v => Ok (list_variant_has_location v)) payload ;;
  if i then Ok true else
  e <- check_block "extra_files" (fun v => Ok (list_variant_has_location v)) payload ;;
  if e then Ok true else
  check_block "variants" variant_has_url payload.

Definition has_location_objects (data : json) : result bool :=
  present <- contains "payload" data ;;
  if present then
    payload <- getitem data "payload" ;;
    _has_location_in_payload payload
  else Ok false.

(** [a or b] on two tests that may raise: [b] is evaluated only when [a]
    is false. *)
Definition or_else (a b : result bool) : result bool :=
  x <- a ;; if x then Ok true else b.

(** [a and b], likewise. *)
Definition and_then (a b : result bool) : result bool :=
  x <- a ;; if x then b else Ok false.

Definition detect_version_from_data (data : json) : result version :=
  tagged <- and_then (contains "header" data)
                     (header <- getitem data "header" ;;
                      contains "version" header) ;;
  if tagged then
    header <- getitem data "header" ;;
    tag <- getitem header "version" ;;
    string_to_version tag
  else
    with_payload <- contains "payload" data ;;
    if with_payload then
      payload <- getitem data "payload" ;;
      located <- _has_location_in_payload payload ;;
      if located then Ok VERSION_2_0 else
      legacy <- or_else (contains "rpms" payload)
                  (or_else (contains "images" payload)
                           (contains "compose" payload)) ;;
      if legacy then Ok VERSION_1_0 else Raise ValueError
    else Raise ValueError.

Definition version_to_string (v : version) : string :=
  (str_of_int (fst v) ++ "." ++ str_of_int (snd v))%string.

(** [required_keys.issubset(obj.keys())] on a dict. *)
Definition _is_location_object (obj : json) : bool :=
  match obj with
  | JDict d =>
      forallb (fun key => has_key key d) ["url"; "size"; "checksum"; "local_path"]
  | _ => false
  end.

(** [VersionedMetadataMixin]: the state of the mixin is the attribute
    [_output_version], [None] in the class. *)
Record VersionedMetadataMixin : Type := {
  _output_version : option version
}.

Definition output_version (self : VersionedMetadataMixin) : version :=
  match _output_version self with
  | Some v => v
  | None => CURRENT_VERSION
  end.

(** The setter of [output_version]: the object after the assignment, or
    the exception of [get_version_tuple], which leaves the object as it
    was. *)
Definition set_output_version (self : VersionedMetadataMixin)
           (v : version_arg) : result VersionedMetadataMixin :=
  t <- get_version_tuple v ;;
  Ok {| _output_version := Some t |}.

Definition detect_data_version (self : VersionedMetadataMixin) (data : json)
  : result version :=
  detect_version_from_data data.

Definition should_use_locations (self : VersionedMetadataMixin) : result bool :=
  supports_location_objects (OfTuple (output_version self)).

End Version.


(* ------------------------------------------------------------------ *)
(** * Regular expressions of the [re] module

    The fragment that the two patterns of [location.py] use, matched the
    way [re] does it: by backtracking, alternatives from left to right,
    repetitions greedy.  The continuation [k] is the rest of the pattern;
    a branch fails when the continuation fails on what it leaves. *)

Module Re.

Inductive regex : Type :=
| Lit (s : string)                      (* literal characters *)
| Alt (r1 r2 : regex)                   (* r1|r2 *)
| Plus (cls : ascii -> bool)            (* [...]+ *)
| Count (n : nat) (cls : ascii -> bool) (* [...]{n} *)
| Opt (r : regex)                       (* (r)? *)
| Group (name : string) (r : regex)     (* (?P<name>r) *)
| Seq (r1 r2 : regex)
| Eos.                                  (* $ *)

(** The named groups that took part in a match, the last one first. *)
Definition groups : Type := list (string * string).

Fixpoint strip_prefix (p s : string) : option string :=
  match p with
  | EmptyString => Some s
  | String a p' =>
      match s with
      | String b s' => if Ascii.eqb a b then strip_prefix p' s' else None
      | EmptyString => None
      end
  end.

(** [cls*] followed by [k]: the longest run first, then shorter ones. *)
Fixpoint star (cls : ascii -> bool) (s : string)
         (k : string -> option groups) : option groups :=
  match s with
  | String c s' =>
      if cls c then
        match star cls s' k with
        | Some g => Some g
        | None => k s
        end
      else k s
  | EmptyString => k s
  end.

Definition plus (cls : ascii -> bool) (s : string)
           (k : string -> option groups) : option groups :=
  match s with
  | String c s' => if cls c then star cls s' k else None
  | EmptyString => None
  end.

Fixpoint count (n : nat) (cls : ascii -> bool) (s : string) : option string :=
  match n with
  | O => Some s
  | S n' =>
      match s with
      | String c s' => if cls c then count n' cls s' else None
      | EmptyString => None
      end
  end.

(** The text between the position [s] and the later position [rest]. *)
Definition consumed (s rest : string) : string :=
  String.substring 0 (String.length s - String.length rest) s.

(** [$] without [re.MULTILINE]: the end of the string, or just before a
    newline that ends the string. *)
Definition at_end (s : string) : bool :=
  match s with
  | EmptyString => true
  | String c EmptyString => Ascii.eqb c "010"
  | _ => false
  end.

Fixpoint run (r : regex) (s : string) (g : groups)
         (k : string -> groups -> option groups) : option groups :=
  match r with
  | Lit l =>
      match strip_prefix l s with
      | Some rest => k rest g
      | None => None
      end
  | Alt r1 r2 =>
      match run r1 s g k with
      | Some m => Some m
      | None => run r2 s g k
      end
  | Plus cls => plus cls s (fun rest => k rest g)
  | Count n cls =>
      match count n cls s with
      | Some rest => k rest g
      | None => None
      end
  | Opt r' =>
      match run r' s g k with
      | Some m => Some m
      | None => k s g
      end
  | Group name r' =>
      run r' s g (fun rest g' => k rest ((name, consumed s rest) :: g'))
  | Seq r1 r2 => run r1 s g (fun rest g' => run r2 rest g' k)
  | Eos => if at_end s then k s g else None
  end.

(** [pattern.match(s)]: the match is anchored at the start of [s] (so a
    leading [^] adds nothing); [None] when there is no match. *)
Definition rmatch (r : regex) (s : string) : option groups :=
  run r s [] (fun _ g => Some g).

(** [m.group(name)]: [None] for a group that took no part in the match. *)
Fixpoint group (name : string) (m : groups) : option string :=
  match m with
  | [] => None
  | (n, v) :: rest => if String.eqb name n then Some v else group name rest
  end.

(** Character classes. *)
Definition hex_lower (c : ascii) : bool :=
  let n := nat_of_ascii c in
  ((97 <=? n) && (n <=? 102) || (48 <=? n) && (n <=? 57))%nat.

Definition other_than (excluded : list ascii) (c : ascii) : bool :=
  negb (existsb (Ascii.eqb c) excluded).

End Re.

(* ------------------------------------------------------------------ *)
(** * productmd/location.py *)

(** The attributes of [FileEntry] and [Location] have the types of the
    class docstrings ([str], [int], [list] of [FileEntry]), or are [None],
    the default of the constructors.  [bool] being a subclass of [int], a
    [size] of [True] or [False] is read as [1] or [0].  Only [deserialize]
    assigns values of other types, and only until its [validate] has
    passed: [Module Untyped] of each class has the object in that state. *)

(** [a == b] on two attributes that are [None] or hold a value. *)
Definition eq_attr {A : Type} (eqb : A -> A -> bool) (a b : option A) : bool :=
  match a, b with
  | Some x, Some y => eqb x y
  | None, None => true
  | _, _ => false
  end.

(** [bool(s)] for an attribute that is [None] or a str. *)
Definition truthy_str (s : option string) : bool :=
  match s with
  | None | Some EmptyString => false
  | Some _ => true
  end.

(** The builtin [hash] on the values the attributes hold, and on a tuple
    given the hashes of its elements.  The interpreter fixes these
    functions (the one on [str] anew for every process); nothing is
    assumed about them. *)
Class Hash : Type := {
  hash_none : Z;
  hash_int : Z -> Z;
  hash_str : string -> Z;
  hash_tuple : list Z -> Z
}.

Definition hash_attr {A : Type} (h : A -> Z) `{Hash} (a : option A) : Z :=
  match a with
  | Some x => h x
  | None => hash_none
  end.

Module MetadataBase.

(** Modelled from the spec: [productmd/common.py], which defines the base
    class [MetadataBase], is not among the sources.  [_assert_type(field,
    [T])] raises [TypeError] unless the attribute is an instance of [T]: an
    attribute of the model is [None] or an instance of its type. *)
Definition _assert_type {A : Type} (value : option A) : result A :=
  match value with
  | Some a => Ok a
  | None => Raise TypeError
  end.

(** Modelled from the spec: [_assert_type(field, [str])] of the same base
    class on an attribute that holds a parsed value, of whatever type: only
    a [str] is an instance of [str]. *)
Definition _assert_str (value : json) : result string :=
  match value with
  | JStr s => Ok s
  | _ => Raise TypeError
  end.

(** Modelled from the spec: [_assert_not_blank(field)] of the same base
    class raises [ValueError] when the attribute is the empty string. *)
Definition _assert_not_blank (value : string) : result unit :=
  match value with
  | EmptyString => Raise ValueError
  | _ => Ok tt
  end.

(** Modelled from the spec: [validate()] of the same base class runs the
    [_validate_*] methods of the object, here in the order of their names,
    and the first violation met is reported; there is no partial
    success. *)
Fixpoint validate (checks : list (result unit)) : result unit :=
  match checks with
  | [] => Ok tt
  | c :: rest => _ <- c ;; validate rest
  end.

End MetadataBase.

Import MetadataBase.

Definition CHECKSUM_ALGO : string := "sha256".

(** [^(?P<algorithm>sha256|sha512|sha1|md5):(?P<digest>[a-f0-9]+)$] *)
Definition CHECKSUM_RE : Re.regex :=
  Re.Seq (Re.Group "algorithm"
            (Re.Alt (Re.Lit "sha256")
               (Re.Alt (Re.Lit "sha512")
                  (Re.Alt (Re.Lit "sha1") (Re.Lit "md5")))))
    (Re.Seq (Re.Lit ":")
       (Re.Seq (Re.Group "digest" (Re.Plus Re.hex_lower)) Re.Eos)).

(** [^oci://(?P<registry>[^/]+)/(?P<repository>[^:@]+)]
    [(:(?P<tag>[^@]+))?(@(?P<digest>sha256:[a-f0-9]{64}))$] *)
Definition OCI_REFERENCE_RE : Re.regex :=
  Re.Seq (Re.Lit "oci://")
    (Re.Seq (Re.Group "registry" (Re.Plus (Re.other_than ["/"%char])))
       (Re.Seq (Re.Lit "/")
          (Re.Seq (Re.Group "repository"
                     (Re.Plus (Re.other_than [":"%char; "@"%char])))
             (Re.Seq (Re.Opt (Re.Seq (Re.Lit ":")
                                (Re.Group "tag"
                                   (Re.Plus (Re.other_than ["@"%char])))))
                (Re.Seq (Re.Seq (Re.Lit "@")
                           (Re.Group "digest"
                              (Re.Seq (Re.Lit "sha256:")
                                 (Re.Count 64 Re.hex_lower))))
                   Re.Eos))))).

Definition parse_checksum (checksum : string)
  : result (option string * option string) :=
  match Re.rmatch CHECKSUM_RE checksum with
  | Some m => Ok (Re.group "algorithm" m, Re.group "digest" m)
  | None => Raise ValueError
  end.

(** The value of an attribute in the dictionary that [serialize] builds. *)
Definition json_of_str (a : option string) : json :=
  match a with
  | Some s => JStr s
  | None => JNull
  end.

Definition json_of_int (a : option Z) : json :=
  match a with
  | Some n => JInt n
  | None => JNull
  end.

(** The attribute of type [str] that holds the parsed value [v].  (An
    object with an attribute that is no [str] does not leave
    [deserialize]: its [validate] raises.) *)
Definition str_value (v : json) : option string :=
  match v with
  | JStr s => Some s
  | _ => None
  end.

(** [for x in v] on a parsed value: the elements of a list, the keys of a
    dict, the characters of a str. *)
Definition iterate (v : json) : result (list json) :=
  match v with
  | JList xs => Ok xs
  | JDict d => Ok (map (fun kv => JStr (fst kv)) d)
  | JStr s => Ok (map (fun c => JStr (String c EmptyString)) (list_ascii_of_string s))
  | JNull | JBool _ | JInt _ | JFloat _ => Raise TypeError
  end.

(** A loop that appends [f x] for every [x], stopping at the first
    exception. *)
Fixpoint map_m {A B : Type} (f : A -> result B) (l : list A) : result (list B) :=
  match l with
  | [] => Ok []
  | x :: rest =>
      y <- f x ;;
      ys <- map_m f rest ;;
      Ok (y :: ys)
  end.

Module FileEntry.

Record t : Type := {
  file : option string;
  size : option Z;
  checksum : option string;
  layer_digest : option string
}.

Definition __init__ (file : option string) (size : option Z)
           (checksum layer_digest : option string) : t :=
  {| file := file; size := size; checksum := checksum;
     layer_digest := layer_digest |}.

Definition __eq__ (self other : t) : bool :=
  eq_attr String.eqb (file self) (file other)
  && eq_attr Z.eqb (size self) (size other)
  && eq_attr String.eqb (checksum self) (checksum other)
  && eq_attr String.eqb (layer_digest self) (layer_digest other).

Definition __hash__ `{Hash} (self : t) : Z :=
  hash_tuple [hash_attr hash_str (file self);
              hash_attr hash_int (size self);
              hash_attr hash_str (checksum self);
              hash_attr hash_str (layer_digest self)].

Definition _validate_file (self : t) : result unit :=
  f <- _assert_type (file self) ;;
  _ <- _assert_not_blank f ;;
  if String.prefix "/" f then Raise ValueError else Ok tt.

Definition _validate_size (self : t) : result unit :=
  n <- _assert_type (size self) ;;
  if n <? 0 then Raise ValueError else Ok tt.

Definition _validate_checksum (self : t) : result unit :=
  c <- _assert_type (checksum self) ;;
  _ <- _assert_not_blank c ;;
  match Re.rmatch CHECKSUM_RE c with
  | Some _ => Ok tt
  | None => Raise ValueError
  end.

Definition _validate_layer_digest (self : t) : result unit :=
  d <- _assert_type (layer_digest self) ;;
  _ <- _assert_not_blank d ;;
  if String.prefix "sha256:" d then Ok tt else Raise ValueError.

Definition validate (self : t) : result unit :=
  MetadataBase.validate
    [_validate_checksum self; _validate_file self;
     _validate_layer_digest self; _validate_size self].

Definition serialize (self : t) : result json :=
  _ <- validate self ;;
  Ok (JDict [("file", json_of_str (file self));
             ("size", json_of_int (size self));
             ("checksum", json_of_str (checksum self));
             ("layer_digest", json_of_str (layer_digest self))]).

(** [deserialize] assigns what the dictionary holds, of whatever type,
    and then calls [validate]: until [validate] has passed, the attributes
    [file], [checksum] and [layer_digest] are parsed values.  ([size] is an
    int, the result of [int].)  The [_validate_*] methods on such an
    object: *)
Module Untyped.

Record t : Type := {
  file : json;
  size : Z;
  checksum : json;
  layer_digest : json
}.

Definition _validate_file (self : t) : result unit :=
  f <- _assert_str (file self) ;;
  _ <- _assert_not_blank f ;;
  if String.prefix "/" f then Raise ValueError else Ok tt.

(** [_assert_type("size", [int])] passes: [size] is an int. *)
Definition _validate_size (self : t) : result unit :=
  if size self <? 0 then Raise ValueError else Ok tt.

Definition _validate_checksum (self : t) : result unit :=
  c <- _assert_str (checksum self) ;;
  _ <- _assert_not_blank c ;;
  match Re.rmatch CHECKSUM_RE c with
  | Some _ => Ok tt
  | None => Raise ValueError
  end.

Definition _validate_layer_digest (self : t) : result unit :=
  d <- _assert_str (layer_digest self) ;;
  _ <- _assert_not_blank d ;;
  if String.prefix "sha256:" d then Ok tt else Raise ValueError.

Definition validate (self : t) : result unit :=
  MetadataBase.validate
    [_validate_checksum self; _validate_file self;
     _validate_layer_digest self; _validate_size self].

End Untyped.

(** [deserialize] on a fresh object, which [from_dict] returns. *)
Definition from_dict (data : json) : result t :=
  f <- getitem data "file" ;;
  s <- getitem data "size" ;;
  n <- int s ;;
  c <- getitem data "checksum" ;;
  d <- getitem data "layer_digest" ;;
  _ <- Untyped.validate
         {| Untyped.file := f; Untyped.size := n; Untyped.checksum := c;
            Untyped.layer_digest := d |} ;;
  Ok (__init__ (str_value f) (Some n) (str_value c) (str_value d)).

Definition __repr__ (self : t) : string :=
  ("<FileEntry:" ++ match file self with
                    | Some f => f
                    | None => "None"
                    end ++ ">")%string.

End FileEntry.

Module Location.

Record t : Type := {
  url : option string;
  size : option Z;
  checksum : option string;
  local_path : option string;
  contents : list FileEntry.t
}.

(** [contents or []]: the list that was passed when it is not empty, a new
    empty list otherwise. *)
Definition __init__ (url : option string) (size : option Z)
           (checksum local_path : option string)
           (contents : option (list FileEntry.t)) : t :=
  {| url := url; size := size; checksum := checksum;
     local_path := local_path;
     contents := match contents with
                 | Some (e :: es) => e :: es
                 | Some [] | None => []
                 end |}.

(** [==] on two lists: the same length and equal elements. *)
Fixpoint list_eq (a b : list FileEntry.t) : bool :=
  match a, b with
  | [], [] => true
  | x :: a', y :: b' => FileEntry.__eq__ x y && list_eq a' b'
  | _, _ => false
  end.

Definition __eq__ (self other : t) : bool :=
  eq_attr String.eqb (url self) (url other)
  && eq_attr Z.eqb (size self) (size other)
  && eq_attr String.eqb (checksum self) (checksum other)
  && eq_attr String.eqb (local_path self) (local_path other)
  && list_eq (contents self) (contents other).

Definition __hash__ `{Hash} (self : t) : Z :=
  hash_tuple [hash_attr hash_str (url self);
              hash_attr hash_int (size self);
              hash_attr hash_str (checksum self);
              hash_attr hash_str (local_path self)].

(** [self.url.startswith(prefix)] behind the guard [if not self.url]. *)
Definition url_startswith (self : t) (prefixes : list string) : bool :=
  match url self with
  | Some u =>
      if truthy_str (Some u)
      then existsb (fun p => String.prefix p u) prefixes
      else false
  | None => false
  end.

Definition is_remote (self : t) : bool :=
  url_startswith self ["https://"; "http://"; "oci://"].

Definition is_https (self : t) : bool := url_startswith self ["https://"].

Definition is_http (self : t) : bool := url_startswith self ["http://"].

Definition is_oci (self : t) : bool := url_startswith self ["oci://"].

Definition is_local (self : t) : bool := negb (is_remote self).

Definition has_contents (self : t) : bool :=
  match contents self with
  | [] => false
  | _ :: _ => true
  end.

Definition checksum_algorithm (self : t) : result (option string) :=
  match checksum self with
  | Some c =>
      if truthy_str (Some c)
      then r <- parse_checksum c ;; Ok (fst r)
      else Ok None
  | None => Ok None
  end.

Definition checksum_value (self : t) : result (option string) :=
  match checksum self with
  | Some c =>
      if truthy_str (Some c)
      then r <- parse_checksum c ;; Ok (snd r)
      else Ok None
  | None => Ok None
  end.

(** The four OCI properties: [None] unless the url is an OCI reference
    that matches [OCI_REFERENCE_RE]. *)
Definition oci_group (name : string) (self : t) : option string :=
  if is_oci self then
    match url self with
    | Some u =>
        match Re.rmatch OCI_REFERENCE_RE u with
        | Some m => Re.group name m
        | None => None
        end
    | None => None
    end
  else None.

Definition oci_registry : t -> option string := oci_group "registry".
Definition oci_repository : t -> option string := oci_group "repository".
Definition oci_tag : t -> option string := oci_group "tag".
Definition oci_digest : t -> option string := oci_group "digest".

Definition _validate_url (self : t) : result unit :=
  u <- _assert_type (url self) ;;
  _ <- _assert_not_blank u ;;
  if String.prefix "/" u then Raise ValueError
  else if is_oci self && negb (str_contains "@sha256:" u) then Raise ValueError
  else Ok tt.

Definition _validate_size (self : t) : result unit :=
  n <- _assert_type (size self) ;;
  if n <? 0 then Raise ValueError else Ok tt.

Definition _validate_checksum (self : t) : result unit :=
  c <- _assert_type (checksum self) ;;
  _ <- _assert_not_blank c ;;
  match Re.rmatch CHECKSUM_RE c with
  | Some _ => Ok tt
  | None => Raise ValueError
  end.

Definition _validate_local_path (self : t) : result unit :=
  p <- _assert_type (local_path self) ;;
  _ <- _assert_not_blank p ;;
  if String.prefix "/" p then Raise ValueError else Ok tt.

(** The loop of [_validate_contents]: every element of the model is a
    [FileEntry], so the [isinstance] test of the loop holds. *)
Fixpoint validate_entries (entries : list FileEntry.t) : result unit :=
  match entries with
  | [] => Ok tt
  | e :: rest => _ <- FileEntry.validate e ;; validate_entries rest
  end.

Definition _validate_contents (self : t) : result unit :=
  if has_contents self && negb (is_oci self) then Raise ValueError
  else validate_entries (contents self).

Definition validate (self : t) : result unit :=
  MetadataBase.validate
    [_validate_checksum self; _validate_contents self;
     _validate_local_path self; _validate_size self; _validate_url self].

Definition serialize (self : t) : result json :=
  _ <- validate self ;;
  let result :=
    [("url", json_of_str (url self));
     ("size", json_of_int (size self));
     ("checksum", json_of_str (checksum self));
     ("local_path", json_of_str (local_path self))] in
  if has_contents self then
    entries <- map_m FileEntry.serialize (contents self) ;;
    Ok (JDict (result ++ [("contents", JList entries)]))
  else Ok (JDict result).

(** [deserialize] assigns what the dictionary holds, of whatever type,
    and then calls [validate]: until [validate] has passed, the attributes
    [url], [checksum] and [local_path] are parsed values.  ([size] is an
    int, the result of [int], and [contents] a list of the [FileEntry]
    objects that [FileEntry.from_dict] returned.)  The methods that
    [validate] runs, on such an object: *)
Module Untyped.

Record t : Type := {
  url : json;
  size : Z;
  checksum : json;
  local_path : json;
  contents : list FileEntry.t
}.

(** [not self.url] is the truth value of the object, of any type;
    [startswith] is a method of [str] only. *)
Definition is_oci (self : t) : result bool :=
  if negb (truthy (url self)) then Ok false
  else match url self with
       | JStr u => Ok (String.prefix "oci://" u)
       | _ => Raise AttributeError
       end.

Definition _validate_url (self : t) : result unit :=
  u <- _assert_str (url self) ;;
  _ <- _assert_not_blank u ;;
  if String.prefix "/" u then Raise ValueError
  else
    oci <- is_oci self ;;
    if oci && negb (str_contains "@sha256:" u) then Raise ValueError
    else Ok tt.

(** [_assert_type("size", [int])] passes: [size] is an int. *)
Definition _validate_size (self : t) : result unit :=
  if size self <? 0 then Raise ValueError else Ok tt.

Definition _validate_checksum (self : t) : result unit :=
  c <- _assert_str (checksum self) ;;
  _ <- _assert_not_blank c ;;
  match Re.rmatch CHECKSUM_RE c with
  | Some _ => Ok tt
  | None => Raise ValueError
  end.

Definition _validate_local_path (self : t) : result unit :=
  p <- _assert_str (local_path self) ;;
  _ <- _assert_not_blank p ;;
  if String.prefix "/" p then Raise ValueError else Ok tt.

(** [_assert_type("contents", [list])] passes.  In
    [self.contents and not self.is_oci] the property is read only when the
    list is not empty. *)
Definition _validate_contents (self : t) : result unit :=
  misplaced <- match contents self with
               | [] => Ok false
               | _ :: _ => oci <- is_oci self ;; Ok (negb oci)
               end ;;
  if misplaced then Raise ValueError else validate_entries (contents self).

Definition validate (self : t) : result unit :=
  MetadataBase.validate
    [_validate_checksum self; _validate_contents self;
     _validate_local_path self; _validate_size self; _validate_url self].

End Untyped.

(** [deserialize] on a fresh object, which [from_dict] returns. *)
Definition from_dict (data : json) : result t :=
  u <- getitem data "url" ;;
  s <- getitem data "size" ;;
  n <- int s ;;
  c <- getitem data "checksum" ;;
  p <- getitem data "local_path" ;;
  listed <- Py.contains "contents" data ;;
  entries <- (if listed then
                cs <- getitem data "contents" ;;
                items <- iterate cs ;;
                map_m FileEntry.from_dict items
              else Ok []) ;;
  _ <- Untyped.validate
         {| Untyped.url := u; Untyped.size := n; Untyped.checksum := c;
            Untyped.local_path := p; Untyped.contents := entries |} ;;
  Ok {| url := str_value u; size := Some n; checksum := str_value c;
        local_path := str_value p; contents := entries |}.

(** [s.rstrip(ch)]: [s] without the characters [ch] at its end. *)
Fixpoint rstrip (ch : ascii) (s : string) : string :=
  match s with
  | EmptyString => EmptyString
  | String c s' =>
      match rstrip ch s' with
      | EmptyString => if Ascii.eqb c ch then EmptyString else String c EmptyString
      | r => String c r
      end
  end.

(** An attribute inside an f-string. *)
Definition format (a : option string) : string :=
  match a with
  | Some s => s
  | None => "None"
  end.

(** [with_remote_url] on the values of the attributes; the identity of the
    list objects is the matter of [Module Objects] below. *)
Definition with_remote_url (self : t) (base_url : string) : t :=
  let base_url := rstrip "/" base_url in
  let new_url := (base_url ++ "/" ++ format (local_path self))%string in
  __init__ (Some new_url) (size self) (checksum self) (local_path self)
    (if has_contents self then Some (contents self) else None).

Definition __repr__ (self : t) : string :=
  if is_remote self
  then ("<Location:" ++ format (url self) ++ ">")%string
  else ("<Location:" ++ format (local_path self) ++ ">")%string.

(** [os.path.join] takes no [None]. *)
Definition get_localized_path (self : t) (output_dir : string) : result string :=
  match local_path self with
  | Some p => Ok (path_join output_dir ["compose"; p])
  | None => Raise TypeError
  end.

(** [compute_checksum(path, algorithm)]: the hasher is made before the
    file is opened, and is fed block after block. *)
Definition compute_checksum `{Platform} (path : string)
           (algorithm : option string) : io string :=
  h <-- hashlib_new algorithm ;;
  blocks <-- read_blocks path ;;
  let h' := fold_left hasher_update blocks h in
  Return (format algorithm ++ ":" ++ lower (hasher_hexdigest h'))%string.

Definition from_local_file `{Platform} (path base_dir : string)
           (compute_integrity : bool) : io t :=
  let loc := __init__ None None None None None in
  let loc := {| url := Some path; size := size loc; checksum := checksum loc;
                local_path := Some path; contents := contents loc |} in
  if compute_integrity then
    let full_path := path_join base_dir [path] in
    n <-- getsize full_path ;;
    c <-- compute_checksum full_path (Some CHECKSUM_ALGO) ;;
    Return {| url := url loc; size := Some n; checksum := Some c;
              local_path := local_path loc; contents := contents loc |}
  else
    Return {| url := url loc; size := Some 0;
              checksum :=
                Some ("sha256:" ++ string_of_list_ascii (repeat "0"%char 64))%string;
              local_path := local_path loc; contents := contents loc |}.

Definition verify_checksum `{Platform} (self : t) (path : string) : io bool :=
  algo <-- lift (checksum_algorithm self) ;;
  actual <-- compute_checksum path algo ;;
  if eq_attr String.eqb (Some actual) (checksum self)
  then Return true
  else Throw (Builtin ValueError).

Definition verify_size `{Platform} (self : t) (path : string) : io bool :=
  actual <-- getsize path ;;
  if eq_attr Z.eqb (Some actual) (size self)
  then Return true
  else Throw (Builtin ValueError).

Definition verify `{Platform} (self : t) (path : string) : io bool :=
  _ <-- verify_size self path ;;
  _ <-- verify_checksum self path ;;
  Return true.

End Location.

(* ------------------------------------------------------------------ *)
(** * Object identity

    [with_remote_url] is specified up to the identity of the list that
    [contents] refers to.  Here a [Location] object holds the address of a
    list object, and a list object holds the addresses of its [FileEntry]
    elements, as in the interpreter. *)

Module Objects.

Definition addr : Type := nat.

Record heap : Type := {
  lists : list (list addr);
  entries : list FileEntry.t
}.

Record location : Type := {
  url : option string;
  size : option Z;
  checksum : option string;
  local_path : option string;
  contents : addr
}.

(** The elements of the list object at [a]. *)
Definition elements (h : heap) (a : addr) : list addr := nth a (lists h) [].

(** The [FileEntry] object at [a]. *)
Definition entry (h : heap) (a : addr) : FileEntry.t :=
  nth a (entries h) (FileEntry.__init__ None None None None).

(** A new list object. *)
Definition new_list (h : heap) (l : list addr) : heap * addr :=
  ({| lists := lists h ++ [l]; entries := entries h |},
   List.length (lists h)).

(** [l.copy()]: a new list object with the elements of [l]. *)
Definition list_copy (h : heap) (a : addr) : heap * addr :=
  new_list h (elements h a).

(** [Location(url, size, checksum, local_path, contents)], with
    [self.contents = contents or []]. *)
Definition __init__ (h : heap) (url : option string) (size : option Z)
           (checksum local_path : option string) (contents : option addr)
  : heap * location :=
  let make (a : addr) :=
    {| url := url; size := size; checksum := checksum;
       local_path := local_path; contents := a |} in
  let fresh := new_list h [] in
  match contents with
  | Some a =>
      match elements h a with
      | _ :: _ => (h, make a)
      | [] => (fst fresh, make (snd fresh))
      end
  | None => (fst fresh, make (snd fresh))
  end.

Definition with_remote_url (h : heap) (self : location) (base_url : string)
  : heap * location :=
  let base_url := Location.rstrip "/" base_url in
  let new_url := (base_url ++ "/" ++ Location.format (local_path self))%string in
  let copied :=
    match elements h (contents self) with
    | _ :: _ =>
        let c := list_copy h (contents self) in (fst c, Some (snd c))
    | [] => (h, None)
    end in
  __init__ (fst copied) (Some new_url) (size self) (checksum self)
    (local_path self) (snd copied).

(** The attribute values of a [Location] object. *)
Definition value (h : heap) (o : location) : Location.t :=
  {| Location.url := url o;
     Location.size := size o;
     Location.checksum := checksum o;
     Location.local_path := local_path o;
     Location.contents := map (entry h) (elements h (contents o)) |}.

End Objects.

(* ------------------------------------------------------------------ *)
(** * The words of the design document *)

Module Spec.

(** Version tuples are ordered lexicographically. *)
Definition lex_ge (a b : Version.version) : Prop :=
  fst b < fst a \/ (fst a = fst b /\ snd b <= snd a).

(** An entry, that is an object, with the key [key]. *)
Definition entry_with (key : string) (x : json) : Prop :=
  exists d, x = JDict d /\ has_key key d = true.

(** The package tree: variant, architecture, source package, package. *)
Definition package_tree_location (payload : dict) : Prop :=
  exists tree variant arch srpm rpm,
    dict_get "rpms" payload = Some (JDict tree)
    /\ In (JDict variant) (dict_values tree)
    /\ In (JDict arch) (dict_values variant)
    /\ In (JDict srpm) (dict_values arch)
    /\ In rpm (dict_values srpm)
    /\ entry_with "location" rpm.

(** The image list and the extra-files list: variant, architecture, a list
    of entries. *)
Definition listing_location (key : string) (payload : dict) : Prop :=
  exists tree variant items item,
    dict_get key payload = Some (JDict tree)
    /\ In (JDict variant) (dict_values tree)
    /\ In (JList items) (dict_values variant)
    /\ In item items
    /\ entry_with "location" item.

(** The variant path table: variant, its [paths], path type, the path
    descriptor of an architecture. *)
Definition path_table_url (payload : dict) : Prop :=
  exists table variant paths path_type descriptor,
    dict_get "variants" payload = Some (JDict table)
    /\ In (JDict variant) (dict_values table)
    /\ dict_get "paths" variant = Some (JDict paths)
    /\ In (JDict path_type) (dict_values paths)
    /\ In descriptor (dict_values path_type)
    /\ entry_with "url" descriptor.

Definition location_markers (payload : dict) : Prop :=
  package_tree_location payload
  \/ listing_location "images" payload
  \/ listing_location "extra_files" payload
  \/ path_table_url payload.

Definition legacy_keys (payload : dict) : Prop :=
  has_key "rpms" payload = true
  \/ has_key "images" payload = true
  \/ has_key "compose" payload = true.

(** A document whose payload shows the evidence [ev]. *)
Definition payload_shows (ev : dict -> Prop) (data : dict) : Prop :=
  exists payload, dict_get "payload" data = Some (JDict payload) /\ ev payload.

(** No explicit version tag: no header, or a header object without the
    key [version]. *)
Definition untagged (data : dict) : Prop :=
  dict_get "header" data = None
  \/ exists header,
       dict_get "header" data = Some (JDict header)
       /\ has_key "version" header = false.

(** Steps 2 to 4 of the detector. *)
Definition structural_inference (data : dict) : Prop :=
  (payload_shows location_markers data ->
   Version.detect_version_from_data (JDict data) = Ok Version.VERSION_2_0)
  /\ (~ payload_shows location_markers data ->
      payload_shows legacy_keys data ->
      Version.detect_version_from_data (JDict data) = Ok Version.VERSION_1_0)
  /\ (~ payload_shows location_markers data ->
      ~ payload_shows legacy_keys data ->
      Version.detect_version_from_data (JDict data) = Raise ValueError).

(** The value under [key], when there is one, is an object. *)
Definition object_if_present (key : string) (d : dict) : Prop :=
  forall v, dict_get key d = Some v -> is_dict v = true.

(** The containers that the detector walks are objects. *)
Definition containers_are_objects (payload : dict) : Prop :=
  object_if_present "rpms" payload
  /\ object_if_present "images" payload
  /\ object_if_present "extra_files" payload
  /\ object_if_present "variants" payload
  /\ (forall table variant,
        dict_get "variants" payload = Some (JDict table) ->
        In (JDict variant) (dict_values table) ->
        object_if_present "paths" variant).

Definition well_shaped (data : dict) : Prop :=
  forall p, dict_get "payload" data = Some p ->
            exists payload, p = JDict payload /\ containers_are_objects payload.

(** The four algorithms of a checksum string. *)
Definition algorithms : list string := ["sha256"; "sha512"; "sha1"; "md5"].

(** The length of the hexadecimal digest that an algorithm outputs. *)
Definition digest_length (algorithm : string) : nat :=
  if String.eqb algorithm "sha256" then 64
  else if String.eqb algorithm "sha512" then 128
  else if String.eqb algorithm "sha1" then 40
  else if String.eqb algorithm "md5" then 32
  else 0.

Definition lowercase_hex (digest : string) : bool :=
  forallb Re.hex_lower (list_ascii_of_string digest).

(** The digest component of an OCI reference: [@sha256:] and 64 lowercase
    hexadecimal digits, somewhere in the url. *)
Fixpoint has_digest_component (u : string) : bool :=
  match Re.strip_prefix "@sha256:" u with
  | Some rest =>
      match Re.count 64 Re.hex_lower rest with
      | Some _ => true
      | None => false
      end
  | None => false
  end
  || match u with
     | String _ u' => has_digest_component u'
     | EmptyString => false
     end.

(** The invariant violations of a [Location]: an absolute url, an absolute
    local path, an OCI url that lacks its digest, a negative size, contents
    on a url that is not an OCI reference.  What an OCI url lacks when it
    lacks its digest is the parameter [digest_present]. *)
Definition violation_with (digest_present : string -> bool) (L : Location.t)
  : Prop :=
  (exists u, Location.url L = Some u /\ String.prefix "/" u = true)
  \/ (exists p, Location.local_path L = Some p /\ String.prefix "/" p = true)
  \/ (exists u, Location.url L = Some u
                /\ String.prefix "oci://" u = true
                /\ digest_present u = false)
  \/ (exists n, Location.size L = Some n /\ n < 0)
  \/ (Location.contents L <> [] /\ Location.is_oci L = false).

(** The violations in the words of the design document: the digest of an
    OCI url is its digest component, [@sha256:] and 64 digits. *)
Definition violation : Location.t -> Prop :=
  violation_with has_digest_component.

(** The violations that [validate] looks for: an OCI url lacks its digest
    when it lacks the marker [@sha256:]. *)
Definition checked_violation : Location.t -> Prop :=
  violation_with (str_contains "@sha256:").

(** [base] is [s] with the slashes at its end stripped: [s] is [base]
    and a run of slashes, and [base] does not end with a slash. *)
Definition stripped (s base : string) : Prop :=
  ends_with "/" base = false
  /\ exists k, s = (base ++ string_of_list_ascii (repeat "/"%char k))%string.

(** The pattern of a checksum after the algorithm, and the pattern of an
    OCI reference from the digest on. *)
Definition digest_tail : Re.regex :=
  Re.Seq (Re.Lit ":") (Re.Seq (Re.Group "digest" (Re.Plus Re.hex_lower)) Re.Eos).

Definition digest_end : Re.regex :=
  Re.Seq (Re.Seq (Re.Lit "@")
            (Re.Group "digest"
               (Re.Seq (Re.Lit "sha256:") (Re.Count 64 Re.hex_lower))))
    Re.Eos.

(** The tag of an OCI reference as it stands in the url. *)
Definition tag_part (tag : option string) : string :=
  match tag with
  | Some t => (":" ++ t)%string
  | None => EmptyString
  end.

(** What may follow the text that [$] ends: nothing, or one newline. *)
Definition line_end (nl : string) : Prop :=
  nl = EmptyString \/ nl = String "010" EmptyString.

(** No character of [s] is [ch]. *)
Definition free_of (ch : ascii) (s : string) : bool :=
  negb (existsb (Ascii.eqb ch) (list_ascii_of_string s)).

(** The value of the decimal digits [d] read after the value [acc]. *)
Fixpoint digits_value (d : Decimal.uint) (acc : Z) : Z :=
  match d with
  | Decimal.Nil => acc
  | Decimal.D0 l => digits_value l (10 * acc + 0)
  | Decimal.D1 l => digits_value l (10 * acc + 1)
  | Decimal.D2 l => digits_value l (10 * acc + 2)
  | Decimal.D3 l => digits_value l (10 * acc + 3)
  | Decimal.D4 l => digits_value l (10 * acc + 4)
  | Decimal.D5 l => digits_value l (10 * acc + 5)
  | Decimal.D6 l => digits_value l (10 * acc + 6)
  | Decimal.D7 l => digits_value l (10 * acc + 7)
  | Decimal.D8 l => digits_value l (10 * acc + 8)
  | Decimal.D9 l => digits_value l (10 * acc + 9)
  end.

(** Hexadecimal digits, capital letters allowed, and at least one. *)
Definition hex_digits (digest : string) : Prop :=
  digest <> EmptyString
  /\ forallb (fun c => Re.hex_lower (lower_char c))
       (list_ascii_of_string digest) = true.

(** The hasher of the platform prints hexadecimal digits. *)
Definition prints_hex `{Platform} : Prop :=
  forall h, hex_digits (hasher_hexdigest h).

End Spec.

(* ------------------------------------------------------------------ *)
(** * Sample values, from the test suite and the design document *)

Module Sample.

Definition digest (c : ascii) : string :=
  ("sha256:" ++ string_of_list_ascii (repeat c 64))%string.

Definition bash_url : string :=
  ("oci://quay.io/fedora/rpms:bash@" ++ digest "a")%string.

Definition bash_rpm : string := "Server/x86_64/os/Packages/b/bash.rpm".

Definition image_location : json :=
  JDict [("url", JStr "https://example.com/image.iso");
         ("size", JInt 1000);
         ("checksum", JStr (digest "a"));
         ("local_path", JStr "Server/x86_64/iso/image.iso")].

Definition located_images : json :=
  JDict [("images",
          JDict [("Server",
                  JDict [("x86_64",
                          JList [JDict [("location", image_location);
                                        ("type", JStr "dvd")]])])])].

(** A document tagged 1.2 whose payload has the shape of 2.0. *)
Definition tagged_header : dict :=
  [("version", JStr "1.2"); ("type", JStr "productmd.images")].

Definition tagged_document : dict :=
  [("header", JDict tagged_header); ("payload", located_images)].

(** A document without a header, with legacy keys. *)
Definition legacy_document : dict :=
  [("payload", JDict [("compose", JDict []); ("rpms", JDict [])])].

(** A document whose package container is a list. *)
Definition rpms_list_document : dict :=
  [("payload", JDict [("rpms", JList [])])].

Definition boot_entry : FileEntry.t :=
  FileEntry.__init__ (Some "vmlinuz") (Some 100) (Some (digest "b"))
    (Some (digest "b")).

Definition oci_location : Location.t :=
  Location.__init__ (Some bash_url) (Some 1000) (Some (digest "a"))
    (Some "path/to/file.rpm") None.

Definition boot_files : Location.t :=
  Location.__init__ (Some bash_url) (Some 1000) (Some (digest "a"))
    (Some "path/to/file.rpm") (Some [boot_entry]).

Definition untagged_oci_url : string := "oci://quay.io/fedora/rpms:bash".

Definition without_digest : Location.t :=
  Location.__init__ (Some untagged_oci_url) (Some 1000) (Some (digest "a"))
    (Some "path/to/file.rpm") None.

Definition short_digest_url : string :=
  "oci://quay.io/fedora/rpms:bash@sha256:abc".

Definition short_digest_location : Location.t :=
  Location.__init__ (Some short_digest_url) (Some 1000) (Some (digest "a"))
    (Some "path/to/file.rpm") None.

(** An OCI url that ends with the marker of a digest, and has none. *)
Definition empty_digest_url : string := "oci://quay.io/fedora/rpms:bash@sha256:".

Definition empty_digest_location : Location.t :=
  Location.__init__ (Some empty_digest_url) (Some 1000) (Some (digest "a"))
    (Some "path/to/file.rpm") None.

Definition https_with_contents : Location.t :=
  Location.__init__ (Some "https://x/y") (Some 1000) (Some (digest "a"))
    (Some "path/to/file.rpm") (Some [boot_entry]).

Definition unset_location : Location.t :=
  Location.__init__ None None None None None.

(** A heap with one list object, which holds one [FileEntry], and a
    [Location] object that refers to it. *)
Definition heap : Objects.heap :=
  {| Objects.lists := [[0%nat]]; Objects.entries := [boot_entry] |}.

Definition local_bash : Objects.location :=
  {| Objects.url := Some bash_rpm;
     Objects.size := Some 1000;
     Objects.checksum := Some (digest "a");
     Objects.local_path := Some bash_rpm;
     Objects.contents := 0%nat |}.

(** Dictionaries with values of other types than the attributes have: a
    number for the url, a fraction (-3/2) for the size. *)
Definition entry_dict : json :=
  JDict [("file", JStr "vmlinuz"); ("size", JInt 100);
         ("checksum", JStr (digest "b")); ("layer_digest", JStr (digest "b"))].

Definition numbered_url (url checksum : json) (contents : list json) : json :=
  JDict ([("url", url); ("size", JInt 1); ("checksum", checksum);
          ("local_path", JStr "a")]
         ++ match contents with
            | [] => []
            | _ => [("contents", JList contents)]
            end).

Definition sized (size : json) : json :=
  JDict [("url", JStr "a"); ("size", size); ("checksum", JStr "md5:0f");
         ("local_path", JStr "a")].

Definition minus_three_halves : json :=
  JFloat (SpecFloat.S754_finite true 3 (-1)).

Definition five_halves : json :=
  JFloat (SpecFloat.S754_finite false 5 (-1)).

(** Some hash functions. *)
Definition length_hash : Hash :=
  {| hash_none := 0;
     hash_int := fun n => n;
     hash_str := fun s => Z.of_nat (String.length s);
     hash_tuple := fun hs => fold_right Z.add 0 hs |}.

(** A platform with one file, [out/a.bin] of 3 bytes, and a hash function
    that prints the number of bytes it was fed, in capital letters. *)
Definition one_file : Platform :=
  {| hasher := nat;
     hashlib_new := fun a => match a with
                             | Some _ => Return 0%nat
                             | None => Throw (Builtin TypeError)
                             end;
     hasher_update := fun h block => (h + String.length block)%nat;
     hasher_hexdigest := fun h => if (h =? 3)%nat then "A3" else "0";
     read_blocks := fun path =>
                      if String.eqb path "out/a.bin" then Return ["ab"; "c"]
                      else Throw OSError;
     getsize := fun path =>
                  if String.eqb path "out/a.bin" then Return 3 else Throw OSError |}.

End Sample.

(** A check is one of those that [validate] runs. *)
Ltac among_checks := cbn [In]; tauto.

(* ------------------------------------------------------------------ *)
(** * The version model and the detector *)

Import Version.

Lemma has_key_some (key : string) (d : dict) (v : json) :
  dict_get key d = Some v -> has_key key d = true.
Proof. unfold has_key. intros ->. reflexivity. Qed.

Lemma has_key_none (key : string) (d : dict) :
  dict_get key d = None -> has_key key d = false.
Proof. unfold has_key. intros ->. reflexivity. Qed.

Lemma has_key_true (key : string) (d : dict) :
  has_key key d = true -> exists v, dict_get key d = Some v.
Proof.
  unfold has_key. destruct (dict_get key d) as [v|]; [eauto | discriminate].
Qed.

Lemma getitem_some (key : string) (d : dict) (v : json) :
  dict_get key d = Some v -> getitem (JDict d) key = Ok v.
Proof. unfold getitem. intros ->. reflexivity. Qed.

Lemma contains_dict (key : string) (d : dict) :
  contains key (JDict d) = Ok (has_key key d).
Proof. reflexivity. Qed.

Lemma tuple_ge_spec (a b : version) :
  tuple_ge a b = true <-> Spec.lex_ge a b.
Proof.
  unfold tuple_ge, Spec.lex_ge.
  destruct (Z.eqb_spec (fst a) (fst b)) as [E|E].
  - rewrite Z.leb_le. lia.
  - rewrite Z.leb_le. lia.
Qed.

Lemma is_dict_true (v : json) : is_dict v = true -> exists d, v = JDict d.
Proof. destruct v; try discriminate. eauto. Qed.

Lemma dict_with_key_spec (key : string) (x : json) :
  dict_with_key key x = true <-> Spec.entry_with key x.
Proof.
  unfold Spec.entry_with. split.
  - destruct x; try discriminate. cbn. eauto.
  - intros (d & -> & H). exact H.
Qed.

Lemma rpms_variant_spec (v : json) :
  rpms_variant_has_location v = true <->
  exists variant arch srpm rpm,
    v = JDict variant
    /\ In (JDict arch) (dict_values variant)
    /\ In (JDict srpm) (dict_values arch)
    /\ In rpm (dict_values srpm)
    /\ Spec.entry_with "location" rpm.
Proof.
  split.
  - destruct v as [| | | | | |variant]; try discriminate.
    cbn [rpms_variant_has_location]. intros H.
    apply existsb_exists in H as ([| | | | | |arch] & Ha & H); try discriminate.
    apply existsb_exists in H as ([| | | | | |srpm] & Hs & H); try discriminate.
    apply existsb_exists in H as (rpm & Hr & H).
    apply dict_with_key_spec in H.
    exists variant, arch, srpm, rpm. auto 10.
  - intros (variant & arch & srpm & rpm & -> & Ha & Hs & Hr & H).
    cbn [rpms_variant_has_location].
    apply existsb_exists. exists (JDict arch). split; [exact Ha|].
    apply existsb_exists. exists (JDict srpm). split; [exact Hs|].
    apply existsb_exists. exists rpm. split; [exact Hr|].
    apply dict_with_key_spec. exact H.
Qed.

Lemma list_variant_spec (v : json) :
  list_variant_has_location v = true <->
  exists variant items item,
    v = JDict variant
    /\ In (JList items) (dict_values variant)
    /\ In item items
    /\ Spec.entry_with "location" item.
Proof.
  split.
  - destruct v as [| | | | | |variant]; try discriminate.
    cbn [list_variant_has_location]. intros H.
    apply existsb_exists in H as ([| | | | |items|] & Ha & H); try discriminate.
    apply existsb_exists in H as (item & Hi & H).
    apply dict_with_key_spec in H.
    exists variant, items, item. auto 10.
  - intros (variant & items & item & -> & Ha & Hi & H).
    cbn [list_variant_has_location].
    apply existsb_exists. exists (JList items). split; [exact Ha|].
    apply existsb_exists. exists item. split; [exact Hi|].
    apply dict_with_key_spec. exact H.
Qed.

Lemma variant_url_spec (v : json) :
  variant_has_url v = Ok true <->
  exists variant paths path_type descriptor,
    v = JDict variant
    /\ dict_get "paths" variant = Some (JDict paths)
    /\ In (JDict path_type) (dict_values paths)
    /\ In descriptor (dict_values path_type)
    /\ Spec.entry_with "url" descriptor.
Proof.
  split.
  - destruct v as [| | | | | |variant]; try discriminate.
    cbn [variant_has_url].
    destruct (dict_get "paths" variant) as [[| | | | | |paths]|] eqn:Ep;
      try discriminate.
    cbn [values bind]. intros H. injection H as H.
    apply existsb_exists in H as ([| | | | | |path_type] & Ht & H); try discriminate.
    apply existsb_exists in H as (descriptor & Hd & H).
    apply dict_with_key_spec in H.
    exists variant, paths, path_type, descriptor. auto 10.
  - intros (variant & paths & path_type & descriptor & -> & Ep & Ht & Hd & H).
    cbn [variant_has_url]. rewrite Ep. cbn [values bind]. f_equal.
    apply existsb_exists. exists (JDict path_type). split; [exact Ht|].
    apply existsb_exists. exists descriptor. split; [exact Hd|].
    apply dict_with_key_spec. exact H.
Qed.

Lemma any_m_pure {A : Type} (f : A -> bool) (l : list A) :
  any_m (fun x => Ok (f x)) l = Ok (existsb f l).
Proof.
  induction l as [|x l IH]; [reflexivity|].
  cbn [any_m bind existsb]. destruct (f x); [reflexivity | exact IH].
Qed.

Lemma any_m_total {A : Type} (f : A -> result bool) (l : list A) :
  (forall x, In x l -> exists b, f x = Ok b) ->
  exists b, any_m f l = Ok b
            /\ (b = true <-> exists x, In x l /\ f x = Ok true).
Proof.
  induction l as [|x l IH]; intros Hf.
  - exists false. split; [reflexivity|]. split; [discriminate|].
    intros (x & [] & _).
  - destruct (Hf x (or_introl eq_refl)) as (bx & Ex).
    cbn [any_m]. rewrite Ex. cbn [bind]. destruct bx.
    + exists true. split; [reflexivity|]. split; [|reflexivity].
      intros _. exists x. split; [left; reflexivity | exact Ex].
    + destruct IH as (b & Eb & Hb).
      { intros y Hy. apply Hf. right. exact Hy. }
      exists b. split; [exact Eb|]. rewrite Hb. split.
      * intros (y & Hy & Ey). exists y. split; [right; exact Hy | exact Ey].
      * intros (y & [<-|Hy] & Ey).
        -- rewrite Ex in Ey. discriminate.
        -- exists y. auto 10.
Qed.

Lemma check_block_absent (key : string) (body : json -> result bool)
      (payload : dict) :
  dict_get key payload = None ->
  check_block key body (JDict payload) = Ok false.
Proof.
  intros E. unfold check_block.
  rewrite contains_dict, (has_key_none _ _ E). reflexivity.
Qed.

Lemma check_block_present (key : string) (body : json -> result bool)
      (payload tree : dict) :
  dict_get key payload = Some (JDict tree) ->
  check_block key body (JDict payload) = any_m body (dict_values tree).
Proof.
  intros E. unfold check_block.
  rewrite contains_dict, (has_key_some _ _ _ E). cbn [bind].
  rewrite (getitem_some _ _ _ E). reflexivity.
Qed.

(** A block over a container that is an object (or is absent) returns, and
    returns [True] exactly when one of the variants passes the body. *)
Lemma check_block_total (key : string) (body : json -> result bool)
      (payload : dict) :
  Spec.object_if_present key payload ->
  (forall tree x, dict_get key payload = Some (JDict tree) ->
                  In x (dict_values tree) -> exists b, body x = Ok b) ->
  exists b,
    check_block key body (JDict payload) = Ok b
    /\ (b = true <->
        exists tree x, dict_get key payload = Some (JDict tree)
                       /\ In x (dict_values tree) /\ body x = Ok true).
Proof.
  intros Hobj Hbody.
  destruct (dict_get key payload) as [v|] eqn:E.
  - destruct (is_dict_true v (Hobj v E)) as (tree & ->).
    rewrite (check_block_present _ _ _ _ E).
    destruct (any_m_total body (dict_values tree)) as (b & Eb & Hb).
    { intros x Hx. exact (Hbody tree x eq_refl Hx). }
    exists b. split; [exact Eb|]. rewrite Hb. split.
    + intros (x & Hx & Ex). exists tree, x. auto 10.
    + intros (tree' & x & Et & Hx & Ex). injection Et as <-. exists x. auto 10.
  - rewrite (check_block_absent _ _ _ E). exists false.
    split; [reflexivity|]. split; [discriminate|].
    intros (tree & x & Et & _). discriminate.
Qed.

Lemma rpms_block (payload : dict) :
  Spec.object_if_present "rpms" payload ->
  exists b,
    check_block "rpms" (fun v => Ok (rpms_variant_has_location v)) (JDict payload)
    = Ok b
    /\ (b = true <-> Spec.package_tree_location payload).
Proof.
  intros Hobj.
  destruct (check_block_total "rpms"
              (fun v => Ok (rpms_variant_has_location v)) payload Hobj)
    as (b & Eb & Hb); [eauto|].
  exists b. split; [exact Eb|]. rewrite Hb. unfold Spec.package_tree_location.
  split.
  - intros (tree & x & Et & Hx & Ex). injection Ex as Ex.
    apply rpms_variant_spec in Ex
      as (variant & arch & srpm & rpm & -> & Ha & Hs & Hr & H).
    exists tree, variant, arch, srpm, rpm. auto 10.
  - intros (tree & variant & arch & srpm & rpm & Et & Hv & Ha & Hs & Hr & H).
    exists tree, (JDict variant). split; [exact Et|]. split; [exact Hv|].
    f_equal. apply rpms_variant_spec.
    exists variant, arch, srpm, rpm. auto 10.
Qed.

Lemma listing_block (key : string) (payload : dict) :
  Spec.object_if_present key payload ->
  exists b,
    check_block key (fun v => Ok (list_variant_has_location v)) (JDict payload)
    = Ok b
    /\ (b = true <-> Spec.listing_location key payload).
Proof.
  intros Hobj.
  destruct (check_block_total key
              (fun v => Ok (list_variant_has_location v)) payload Hobj)
    as (b & Eb & Hb); [eauto|].
  exists b. split; [exact Eb|]. rewrite Hb. unfold Spec.listing_location.
  split.
  - intros (tree & x & Et & Hx & Ex). injection Ex as Ex.
    apply list_variant_spec in Ex as (variant & items & item & -> & Ha & Hi & H).
    exists tree, variant, items, item. auto 10.
  - intros (tree & variant & items & item & Et & Hv & Ha & Hi & H).
    exists tree, (JDict variant). split; [exact Et|]. split; [exact Hv|].
    f_equal. apply list_variant_spec.
    exists variant, items, item. auto 10.
Qed.

Lemma variant_has_url_total (v : json) :
  (forall variant, v = JDict variant -> Spec.object_if_present "paths" variant) ->
  exists b, variant_has_url v = Ok b.
Proof.
  intros Hobj. destruct v as [| | | | | |variant]; cbn [variant_has_url]; eauto.
  destruct (dict_get "paths" variant) as [paths|] eqn:Ep; eauto.
  destruct (is_dict_true paths (Hobj variant eq_refl paths Ep)) as (d & ->).
  cbn [values bind]. eauto.
Qed.

Lemma variants_block (payload : dict) :
  Spec.object_if_present "variants" payload ->
  (forall table variant,
      dict_get "variants" payload = Some (JDict table) ->
      In (JDict variant) (dict_values table) ->
      Spec.object_if_present "paths" variant) ->
  exists b,
    check_block "variants" variant_has_url (JDict payload) = Ok b
    /\ (b = true <-> Spec.path_table_url payload).
Proof.
  intros Hobj Hpaths.
  destruct (check_block_total "variants" variant_has_url payload Hobj)
    as (b & Eb & Hb).
  { intros table x Et Hx. apply variant_has_url_total.
    intros variant ->. exact (Hpaths table variant Et Hx). }
  exists b. split; [exact Eb|]. rewrite Hb. unfold Spec.path_table_url.
  split.
  - intros (table & x & Et & Hx & Ex).
    apply variant_url_spec in Ex
      as (variant & paths & path_type & descriptor & -> & Ep & Ht & Hd & H).
    exists table, variant, paths, path_type, descriptor. auto 10.
  - intros (table & variant & paths & path_type & descriptor
            & Et & Hv & Ep & Ht & Hd & H).
    exists table, (JDict variant). split; [exact Et|]. split; [exact Hv|].
    apply variant_url_spec.
    exists variant, paths, path_type, descriptor. auto 10.
Qed.

Lemma has_location_spec (payload : dict) :
  Spec.containers_are_objects payload ->
  exists b,
    _has_location_in_payload (JDict payload) = Ok b
    /\ (b = true <-> Spec.location_markers payload).
Proof.
  intros (Hr & Hi & He & Hv & Hp).
  unfold _has_location_in_payload, Spec.location_markers.
  destruct (rpms_block payload Hr) as (b1 & -> & H1).
  destruct (listing_block "images" payload Hi) as (b2 & -> & H2).
  destruct (listing_block "extra_files" payload He) as (b3 & -> & H3).
  destruct (variants_block payload Hv Hp) as (b4 & -> & H4).
  cbn [bind].
  destruct b1; [exists true; intuition|].
  destruct b2; [exists true; intuition|].
  destruct b3; [exists true; intuition|].
  exists b4. split; [reflexivity|].
  rewrite H4. intuition discriminate.
Qed.

Lemma legacy_spec (payload : dict) :
  exists b,
    or_else (contains "rpms" (JDict payload))
      (or_else (contains "images" (JDict payload))
               (contains "compose" (JDict payload))) = Ok b
    /\ (b = true <-> Spec.legacy_keys payload).
Proof.
  unfold or_else, Spec.legacy_keys. rewrite !contains_dict. cbn [bind].
  destruct (has_key "rpms" payload); [exists true; intuition|].
  destruct (has_key "images" payload); [exists true; intuition|].
  destruct (has_key "compose" payload); [exists true; intuition|].
  exists false. intuition discriminate.
Qed.

Lemma untagged_falls_through (data : dict) :
  Spec.untagged data ->
  and_then (contains "header" (JDict data))
    (header <- getitem (JDict data) "header" ;; contains "version" header)
  = Ok false.
Proof.
  unfold and_then. rewrite contains_dict.
  intros [E | (header & E & Hv)].
  - rewrite (has_key_none _ _ E). reflexivity.
  - rewrite (has_key_some _ _ _ E), (getitem_some _ _ _ E). cbn [bind].
    rewrite contains_dict, Hv. reflexivity.
Qed.

(** C1.  When the header of a document is an object with the key
    [version], the detector returns what [string_to_version] makes of the
    value under that key, whatever else the document holds: the payload is
    not looked at. *)
Theorem explicit_tag_wins (data header : dict) (tag : json) :
  dict_get "header" data = Some (JDict header) ->
  dict_get "version" header = Some tag ->
  detect_version_from_data (JDict data) = string_to_version tag.
Proof.
  intros Hh Ht.
  unfold detect_version_from_data, and_then.
  rewrite contains_dict, (has_key_some _ _ _ Hh), (getitem_some _ _ _ Hh).
  cbn [bind].
  rewrite contains_dict, (has_key_some _ _ _ Ht), (getitem_some _ _ _ Ht).
  reflexivity.
Qed.

Lemma explicit_tag_wins_witness :
  dict_get "header" Sample.tagged_document = Some (JDict Sample.tagged_header)
  /\ dict_get "version" Sample.tagged_header = Some (JStr "1.2")
  /\ detect_version_from_data (JDict Sample.tagged_document)
     = string_to_version (JStr "1.2").
Proof.
  split; [reflexivity|]. split; [reflexivity|].
  apply (explicit_tag_wins Sample.tagged_document Sample.tagged_header);
    reflexivity.
Defined.

(** The sample document is tagged 1.2 although its payload holds location
    objects: the tag decides. *)
Example tagged_document_detected :
  has_location_objects (JDict Sample.tagged_document) = Ok true
  /\ detect_version_from_data (JDict Sample.tagged_document) = Ok VERSION_1_2.
Proof. split; reflexivity. Qed.

(** C6.  On a version tuple with non-negative components [is_distributed]
    and [supports_location_objects] return the same boolean, which is
    [True] exactly when the tuple is at least (2, 0) in the lexicographic
    order. *)
Theorem distributed_iff_location_objects (major minor : Z) :
  0 <= major -> 0 <= minor ->
  is_distributed (OfTuple (major, minor))
  = supports_location_objects (OfTuple (major, minor))
  /\ (is_distributed (OfTuple (major, minor)) = Ok true
      <-> Spec.lex_ge (major, minor) VERSION_2_0)
  /\ (is_distributed (OfTuple (major, minor)) = Ok false
      <-> ~ Spec.lex_ge (major, minor) VERSION_2_0).
Proof.
  intros Hmajor Hminor.
  unfold is_distributed, is_v2, supports_location_objects, get_version_tuple.
  cbn [bind fst snd].
  assert (E : tuple_ge (major, minor) MIN_LOCATION_VERSION = (2 <=? major)).
  { unfold tuple_ge, MIN_LOCATION_VERSION, VERSION_2_0. cbn [fst snd].
    destruct (Z.eqb_spec major 2) as [->|N].
    - apply Z.leb_le in Hminor. rewrite Hminor. reflexivity.
    - reflexivity. }
  rewrite E. split; [reflexivity|].
  unfold Spec.lex_ge, VERSION_2_0. cbn [fst snd].
  destruct (Z.leb_spec 2 major) as [L|L]; split; split; intro H;
    try discriminate; try reflexivity; try lia.
Qed.

Lemma distributed_iff_location_objects_witness :
  0 <= 2 /\ 0 <= 0
  /\ is_distributed (OfTuple (2, 0)) = supports_location_objects (OfTuple (2, 0))
  /\ (is_distributed (OfTuple (2, 0)) = Ok true
      <-> Spec.lex_ge (2, 0) VERSION_2_0)
  /\ (is_distributed (OfTuple (2, 0)) = Ok false
      <-> ~ Spec.lex_ge (2, 0) VERSION_2_0).
Proof.
  split; [lia|]. split; [lia|].
  apply (distributed_iff_location_objects 2 0); lia.
Defined.

(** C2, as the code has it.  For a document without a version tag whose
    payload, and whose containers in the payload (the package tree, the
    image list, the extra-files list, the variant table and the path table
    of each variant), are objects where they are present: location markers
    give (2, 0); without them, legacy keys give (1, 0); without either the
    detector raises [ValueError] and returns no version. *)
Theorem detect_untagged (data : dict) :
  Spec.untagged data ->
  Spec.well_shaped data ->
  Spec.structural_inference data.
Proof.
  intros Hu Hs. unfold Spec.structural_inference, detect_version_from_data.
  rewrite (untagged_falls_through data Hu). cbn [bind].
  rewrite contains_dict. unfold Spec.payload_shows.
  destruct (dict_get "payload" data) as [p|] eqn:Ep.
  - destruct (Hs p Ep) as (payload & -> & Hc).
    rewrite (has_key_some _ _ _ Ep), (getitem_some _ _ _ Ep). cbn [bind].
    destruct (has_location_spec payload Hc) as (b & -> & Hb).
    destruct (legacy_spec payload) as (l & -> & Hl).
    cbn [bind].
    assert (Hm : (exists q, Some (JDict payload) = Some (JDict q)
                            /\ Spec.location_markers q) <-> b = true).
    { rewrite Hb. split.
      - intros (q & E & H). injection E as <-. exact H.
      - intros H. exists payload. auto 10. }
    assert (Hk : (exists q, Some (JDict payload) = Some (JDict q)
                            /\ Spec.legacy_keys q) <-> l = true).
    { rewrite Hl. split.
      - intros (q & E & H). injection E as <-. exact H.
      - intros H. exists payload. auto 10. }
    rewrite Hm, Hk.
    destruct b, l; repeat split; intros; try reflexivity;
      try congruence.
  - rewrite (has_key_none _ _ Ep).
    repeat split.
    + intros (q & E & _). discriminate.
    + intros _ (q & E & _). discriminate.
Qed.

Lemma detect_untagged_witness :
  Spec.untagged Sample.legacy_document
  /\ Spec.well_shaped Sample.legacy_document
  /\ Spec.structural_inference Sample.legacy_document.
Proof.
  assert (U : Spec.untagged Sample.legacy_document) by (left; reflexivity).
  assert (W : Spec.well_shaped Sample.legacy_document).
  { intros p E. injection E as <-. eexists. split; [reflexivity|].
    repeat split; intros v; cbn; intros E; try discriminate.
    injection E as <-. reflexivity. }
  split; [exact U|]. split; [exact W|].
  exact (detect_untagged Sample.legacy_document U W).
Defined.

(** C2, as it is stated, fails on a document whose package container is a
    list: the payload has the key [rpms] and no location marker, and the
    detector raises [AttributeError] where (1, 0) is promised. *)
Lemma structural_inference_fails :
  Spec.untagged Sample.rpms_list_document
  /\ detect_version_from_data (JDict Sample.rpms_list_document)
     = Raise AttributeError
  /\ ~ Spec.structural_inference Sample.rpms_list_document.
Proof.
  split; [left; reflexivity|]. split; [reflexivity|].
  intros (_ & H & _).
  assert (E : Ok VERSION_1_0 = Raise AttributeError :> result version);
    [|discriminate E].
  symmetry. apply H.
  - intros (payload & Ep & [Hm | [Hm | [Hm | Hm]]]); injection Ep as <-.
    + destruct Hm as (tree & variant & arch & srpm & rpm & Et & _). discriminate.
    + destruct Hm as (tree & variant & items & item & Et & _). discriminate.
    + destruct Hm as (tree & variant & items & item & Et & _). discriminate.
    + destruct Hm as (table & variant & a & b & c & Et & _). discriminate.
  - exists [("rpms", JList [])]. split; [reflexivity|]. left. reflexivity.
Qed.

(* ------------------------------------------------------------------ *)
(** * Strings and patterns *)

Lemma prefix_split (p s : string) :
  String.prefix p s = true -> exists r, s = (p ++ r)%string.
Proof.
  revert s. induction p as [|a p IH]; intros s H.
  - exists s. reflexivity.
  - destruct s as [|b s]; [discriminate|]. cbn in H.
    destruct (ascii_dec a b) as [->|]; [|discriminate].
    destruct (IH s H) as (r & ->). exists r. reflexivity.
Qed.

Lemma https_is_not_http (u : string) :
  String.prefix "https://" u && String.prefix "http://" u = false.
Proof.
  destruct (String.prefix "https://" u) eqn:E1; [|reflexivity].
  destruct (String.prefix "http://" u) eqn:E2; [|reflexivity].
  apply prefix_split in E1 as (r1 & ->). cbn in E2. discriminate.
Qed.

Lemma https_is_not_oci (u : string) :
  String.prefix "https://" u && String.prefix "oci://" u = false.
Proof.
  destruct (String.prefix "https://" u) eqn:E1; [|reflexivity].
  apply prefix_split in E1 as (r1 & ->). reflexivity.
Qed.

Lemma http_is_not_oci (u : string) :
  String.prefix "http://" u && String.prefix "oci://" u = false.
Proof.
  destruct (String.prefix "http://" u) eqn:E1; [|reflexivity].
  apply prefix_split in E1 as (r1 & ->). reflexivity.
Qed.

Lemma substring_prefix (p r : string) :
  String.substring 0 (String.length p) (p ++ r) = p.
Proof.
  induction p as [|a p IH]; cbn.
  - destruct r; reflexivity.
  - rewrite IH. reflexivity.
Qed.

Lemma length_append (p r : string) :
  String.length (p ++ r) = (String.length p + String.length r)%nat.
Proof.
  induction p as [|a p IH]; cbn; [reflexivity | rewrite IH; reflexivity].
Qed.

Lemma append_empty_r (s : string) : (s ++ EmptyString)%string = s.
Proof.
  induction s as [|a s IH]; cbn; [reflexivity | rewrite IH; reflexivity].
Qed.

(** A group that matched the prefix [p] of [p ++ r] captures [p]. *)
Lemma consumed_app (p r : string) : Re.consumed (p ++ r) r = p.
Proof.
  unfold Re.consumed. rewrite length_append.
  replace (String.length p + String.length r - String.length r)%nat
    with (String.length p) by lia.
  apply substring_prefix.
Qed.

Lemma consumed_all (s : string) : Re.consumed s EmptyString = s.
Proof.
  pose proof (consumed_app s EmptyString) as H.
  rewrite append_empty_r in H. exact H.
Qed.

(** A greedy repetition takes a whole string of the class when the rest of
    the pattern matches at the end. *)
Lemma star_all (cls : ascii -> bool) (s : string)
      (k : string -> option Re.groups) (m : Re.groups) :
  forallb cls (list_ascii_of_string s) = true ->
  k EmptyString = Some m ->
  Re.star cls s k = Some m.
Proof.
  intros Hs Hk. induction s as [|c s IH]; cbn in *.
  - exact Hk.
  - apply andb_prop in Hs as (Hc & Hs). rewrite Hc, (IH Hs). reflexivity.
Qed.

Lemma plus_all (cls : ascii -> bool) (s : string)
      (k : string -> option Re.groups) (m : Re.groups) :
  s <> EmptyString ->
  forallb cls (list_ascii_of_string s) = true ->
  k EmptyString = Some m ->
  Re.plus cls s k = Some m.
Proof.
  intros Hn Hs Hk. destruct s as [|c s]; [congruence|]. cbn in *.
  apply andb_prop in Hs as (Hc & Hs). rewrite Hc.
  apply star_all; assumption.
Qed.

(** [rstrip] removes a run of [ch] at the end, and all of it. *)
Lemma rstrip_spec (ch : ascii) (s : string) :
  exists k,
    s = (Location.rstrip ch s ++ string_of_list_ascii (repeat ch k))%string
    /\ forall t, Location.rstrip ch s <> (t ++ String ch EmptyString)%string.
Proof.
  induction s as [|c s (k & E & N)].
  - exists 0%nat. split; [reflexivity|]. intros [|a t]; discriminate.
  - cbn [Location.rstrip].
    destruct (Location.rstrip ch s) as [|b r] eqn:R.
    + destruct (Ascii.eqb_spec c ch) as [->|Hc].
      * exists (S k). split; [cbn in *; congruence|]. intros [|a t]; discriminate.
      * exists k. split; [cbn in *; congruence|].
        intros [|a [|a' t]]; cbn; congruence.
    + exists k. split; [cbn in *; congruence|].
      intros [|a t]; cbn; [discriminate|].
      intros H. injection H as _ H. exact (N t H).
Qed.

(** A string that does not end with [ch] is left as it is. *)
Lemma rstrip_fixed (ch : ascii) (s : string) :
  ends_with ch s = false -> Location.rstrip ch s = s.
Proof.
  induction s as [|c s IH]; [reflexivity|].
  cbn [Location.rstrip]. destruct s as [|c' s].
  - cbn. intros ->. reflexivity.
  - intros H. change (ends_with ch (String c' s) = false) in H.
    rewrite (IH H). reflexivity.
Qed.

(** A run of [ch] at the end is removed. *)
Lemma rstrip_run (ch : ascii) (s : string) (k : nat) :
  Location.rstrip ch (s ++ string_of_list_ascii (repeat ch k))
  = Location.rstrip ch s.
Proof.
  induction s as [|c s IH].
  - induction k as [|k IH]; [reflexivity|].
    cbn in *. rewrite IH, Ascii.eqb_refl. reflexivity.
  - cbn [append Location.rstrip]. rewrite IH. reflexivity.
Qed.

(** What [rstrip] returns does not end with [ch]. *)
Lemma rstrip_no_trailing (ch : ascii) (s : string) :
  ends_with ch (Location.rstrip ch s) = false.
Proof.
  induction s as [|c s IH]; [reflexivity|].
  cbn [Location.rstrip]. destruct (Location.rstrip ch s) as [|b r].
  - destruct (Ascii.eqb c ch) eqn:E; [reflexivity | exact E].
  - exact IH.
Qed.

(** [rstrip] returns the string with the slashes at its end stripped, and
    there is one such string. *)
Lemma stripped_iff (s base : string) :
  Spec.stripped s base <-> base = Location.rstrip "/" s.
Proof.
  split.
  - intros (He & k & ->). rewrite rstrip_run. symmetry.
    apply rstrip_fixed. exact He.
  - intros ->. split; [apply rstrip_no_trailing|].
    destruct (rstrip_spec "/" s) as (k & E & _). exists k. exact E.
Qed.

(* ------------------------------------------------------------------ *)
(** * Checksum strings *)

(** C8, as the code has it.  [parse_checksum] accepts every string made of
    one of the four algorithm names, a colon and a non-empty digest of
    lowercase hexadecimal digits, and returns the two parts, whatever the
    length of the digest: the pattern does not relate the length to the
    algorithm. *)
Theorem parse_any_length (algorithm digest : string) :
  In algorithm Spec.algorithms ->
  digest <> EmptyString ->
  Spec.lowercase_hex digest = true ->
  parse_checksum (algorithm ++ ":" ++ digest) = Ok (Some algorithm, Some digest).
Proof.
  intros Ha Hn Hd. unfold parse_checksum, Re.rmatch, CHECKSUM_RE.
  cbn [Re.run].
  destruct Ha as [<-|[<-|[<-|[<-|[]]]]];
    cbn [append Re.strip_prefix Ascii.eqb Bool.eqb];
    (erewrite plus_all; [| exact Hn | exact Hd | reflexivity]);
    rewrite consumed_all.
  - pose proof (consumed_app "sha256" (":" ++ digest)) as E.
    cbn [append] in E. rewrite E. reflexivity.
  - pose proof (consumed_app "sha512" (":" ++ digest)) as E.
    cbn [append] in E. rewrite E. reflexivity.
  - pose proof (consumed_app "sha1" (":" ++ digest)) as E.
    cbn [append] in E. rewrite E. reflexivity.
  - pose proof (consumed_app "md5" (":" ++ digest)) as E.
    cbn [append] in E. rewrite E. reflexivity.
Qed.

Lemma parse_any_length_witness :
  In "sha1" Spec.algorithms
  /\ "abc" <> EmptyString
  /\ Spec.lowercase_hex "abc" = true
  /\ parse_checksum ("sha1" ++ ":" ++ "abc") = Ok (Some "sha1", Some "abc").
Proof.
  assert (A : In "sha1" Spec.algorithms) by (cbn; tauto).
  assert (N : "abc" <> EmptyString) by discriminate.
  assert (X : Spec.lowercase_hex "abc" = true) by reflexivity.
  split; [exact A|]. split; [exact N|]. split; [exact X|].
  exact (parse_any_length "sha1" "abc" A N X).
Defined.

(** C8, as it is stated, fails: ten hexadecimal digits after [sha256:] are
    not the 64 of the algorithm, and the string is parsed and not
    rejected. *)
Lemma short_digest_accepted :
  In "sha256" Spec.algorithms
  /\ Spec.lowercase_hex "abcdef0123" = true
  /\ String.length "abcdef0123" <> Spec.digest_length "sha256"
  /\ parse_checksum "sha256:abcdef0123" = Ok (Some "sha256", Some "abcdef0123")
  /\ ~ raises (parse_checksum "sha256:abcdef0123").
Proof.
  split; [cbn; tauto|]. split; [reflexivity|]. split; [cbn; lia|].
  split; [reflexivity|]. intros (e & H). discriminate H.
Qed.

(* ------------------------------------------------------------------ *)
(** * Classification of a url *)

(** C9.  The three schemes exclude each other; [is_remote] is their
    disjunction and [is_local] its negation; a url that is [None] or empty
    is local. *)
Theorem scheme_classification (L : Location.t) :
  Location.is_https L && Location.is_http L = false
  /\ Location.is_https L && Location.is_oci L = false
  /\ Location.is_http L && Location.is_oci L = false
  /\ Location.is_remote L
     = Location.is_https L || Location.is_http L || Location.is_oci L
  /\ Location.is_local L
     = negb (Location.is_https L || Location.is_http L || Location.is_oci L)
  /\ (Location.url L = None \/ Location.url L = Some EmptyString ->
      Location.is_local L = true).
Proof.
  unfold Location.is_local, Location.is_remote, Location.is_https,
    Location.is_http, Location.is_oci, Location.url_startswith.
  destruct (Location.url L) as [u|].
  - destruct (truthy_str (Some u)) eqn:T.
    + cbn [existsb]. rewrite !orb_false_r.
      split; [apply https_is_not_http|].
      split; [apply https_is_not_oci|].
      split; [apply http_is_not_oci|].
      split; [apply orb_assoc|].
      split; [f_equal; apply orb_assoc|].
      intros [E|E]; [discriminate|]. injection E as ->. discriminate.
    + repeat split; reflexivity.
  - repeat split; reflexivity.
Qed.

Lemma scheme_classification_witness :
  (Location.url Sample.unset_location = None
   \/ Location.url Sample.unset_location = Some EmptyString)
  /\ Location.is_local Sample.unset_location = true.
Proof.
  assert (U : Location.url Sample.unset_location = None
              \/ Location.url Sample.unset_location = Some EmptyString)
    by (left; reflexivity).
  split; [exact U|].
  exact (proj2 (proj2 (proj2 (proj2 (proj2
           (scheme_classification Sample.unset_location))))) U).
Defined.

(* ------------------------------------------------------------------ *)
(** * Validation *)

Lemma validate_raises (checks : list (result unit)) (c : result unit) :
  In c checks -> raises c -> raises (MetadataBase.validate checks).
Proof.
  intros Hin (e & ->). induction checks as [|x checks IH]; [destruct Hin|].
  cbn [MetadataBase.validate]. destruct Hin as [->|Hin].
  - exists e. reflexivity.
  - destruct x as [[]|e']; cbn [bind]; [exact (IH Hin) | exists e'; reflexivity].
Qed.

Lemma validate_ok (checks : list (result unit)) :
  MetadataBase.validate checks = Ok tt -> forall c, In c checks -> c = Ok tt.
Proof.
  induction checks as [|x checks IH]; intros H c Hin; [destruct Hin|].
  cbn [MetadataBase.validate] in H. destruct x as [[]|e]; [|discriminate].
  destruct Hin as [<-|Hin]; [reflexivity | exact (IH H c Hin)].
Qed.

(** [validate] passes exactly when every check does: the order in which
    the checks run only decides which violation is reported. *)
Lemma validate_ok_iff (checks : list (result unit)) :
  MetadataBase.validate checks = Ok tt <-> forall c, In c checks -> c = Ok tt.
Proof.
  split; [apply validate_ok|].
  induction checks as [|x checks IH]; intros H; [reflexivity|].
  cbn [MetadataBase.validate]. rewrite (H x (or_introl eq_refl)). cbn [bind].
  apply IH. intros c Hc. apply H. right. exact Hc.
Qed.

(** A check that begins with [_assert_type] passes only on an attribute
    that is set. *)
Lemma assert_type_ok {A : Type} (v : option A) (k : A -> result unit) :
  (a <- _assert_type v ;; k a) = Ok tt -> exists a, v = Some a.
Proof. destruct v as [a|]; [eauto | discriminate]. Qed.

Lemma bind_ok {A B : Type} (m : result A) (f : A -> result B) (b : B) :
  bind m f = Ok b -> exists a, m = Ok a /\ f a = Ok b.
Proof. destruct m as [a|e]; cbn [bind]; [eauto | discriminate]. Qed.

Lemma assert_str_ok (v : json) (k : string -> result unit) :
  (a <- _assert_str v ;; k a) = Ok tt -> exists s, v = JStr s.
Proof. destruct v; try discriminate. eauto. Qed.

Lemma is_oci_prefix (L : Location.t) (u : string) :
  Location.url L = Some u -> String.prefix "oci://" u = true ->
  Location.is_oci L = true.
Proof.
  intros E H. unfold Location.is_oci, Location.url_startswith. rewrite E.
  destruct u as [|c u]; [discriminate H|].
  cbn [truthy_str existsb]. rewrite H. reflexivity.
Qed.

Lemma oci_without_marker (L : Location.t) (u : string) :
  Location.url L = Some u ->
  String.prefix "oci://" u = true ->
  str_contains "@sha256:" u = false ->
  Location._validate_url L = Raise ValueError.
Proof.
  intros E Hp Hm. unfold Location._validate_url.
  rewrite (is_oci_prefix L u E Hp), E. cbn [_assert_type bind]. rewrite Hm.
  apply prefix_split in Hp as (r & ->). reflexivity.
Qed.

Lemma absolute_path_rejected (p : string) :
  String.prefix "/" p = true ->
  (_ <- _assert_not_blank p ;;
   if String.prefix "/" p then Raise ValueError else Ok tt) = Raise ValueError.
Proof.
  intros H. rewrite H. destruct p; [discriminate H | reflexivity].
Qed.

(** C3, as the code has it.  The sample OCI url is classified as the
    design document says, and [validate] fails on every [Location] whose
    url starts with [oci://] and does not contain the marker [@sha256:]. *)
Theorem oci_reference (L : Location.t) :
  (Location.url L = Some Sample.bash_url ->
   Location.is_oci L = true
   /\ Location.oci_registry L = Some "quay.io"
   /\ Location.oci_repository L = Some "fedora/rpms"
   /\ Location.oci_tag L = Some "bash"
   /\ Location.oci_digest L = Some (Sample.digest "a"))
  /\ (forall u,
        Location.url L = Some u ->
        String.prefix "oci://" u = true ->
        str_contains "@sha256:" u = false ->
        raises (Location.validate L)).
Proof.
  split.
  - intros E.
    unfold Location.oci_registry, Location.oci_repository, Location.oci_tag,
      Location.oci_digest, Location.oci_group, Location.is_oci,
      Location.url_startswith.
    rewrite E. vm_compute. repeat split.
  - intros u E Hp Hm. apply validate_raises with (c := Location._validate_url L).
    + among_checks.
    + exists ValueError. exact (oci_without_marker L u E Hp Hm).
Qed.

Lemma oci_reference_witness :
  (Location.url Sample.oci_location = Some Sample.bash_url
   /\ Location.oci_tag Sample.oci_location = Some "bash")
  /\ (Location.url Sample.without_digest = Some Sample.untagged_oci_url
      /\ String.prefix "oci://" Sample.untagged_oci_url = true
      /\ str_contains "@sha256:" Sample.untagged_oci_url = false
      /\ raises (Location.validate Sample.without_digest)).
Proof.
  split.
  - split; [reflexivity|].
    exact (proj1 (proj2 (proj2 (proj2
             (proj1 (oci_reference Sample.oci_location) eq_refl))))).
  - split; [reflexivity|]. split; [reflexivity|]. split; [reflexivity|].
    exact (proj2 (oci_reference Sample.without_digest)
             Sample.untagged_oci_url eq_refl eq_refl eq_refl).
Defined.

(** C3, as it is stated, fails: a url that starts with [oci://] and ends
    with [@sha256:abc] has no digest of 64 digits (it does not match
    [OCI_REFERENCE_RE] either), and the [Location] passes [validate]. *)
Lemma short_digest_passes :
  Location.url Sample.short_digest_location = Some Sample.short_digest_url
  /\ Location.is_oci Sample.short_digest_location = true
  /\ Spec.has_digest_component Sample.short_digest_url = false
  /\ Re.rmatch OCI_REFERENCE_RE Sample.short_digest_url = None
  /\ Location.validate Sample.short_digest_location = Ok tt
  /\ ~ raises (Location.validate Sample.short_digest_location).
Proof.
  repeat split; try (vm_compute; reflexivity).
  intros (e & H). vm_compute in H. discriminate H.
Qed.

(** C4, as the code has it.  The constructor stores what it is given,
    whatever the values, and raises nothing; [validate] fails on every
    [Location] that shows one of the violations, where an OCI url lacks its
    digest when it does not contain [@sha256:]. *)
Theorem violations_at_validate :
  (forall url size checksum local_path contents,
      let L := Location.__init__ url size checksum local_path contents in
      Location.url L = url
      /\ Location.size L = size
      /\ Location.checksum L = checksum
      /\ Location.local_path L = local_path
      /\ Location.contents L = match contents with Some c => c | None => [] end)
  /\ (forall L, Spec.checked_violation L -> raises (Location.validate L)).
Proof.
  split.
  - intros url size checksum local_path [[|e es]|]; cbn; repeat split.
  - intros L [(u & E & H) | [(p & E & H) | [(u & E & Hp & Hm)
              | [(n & E & H) | (Hc & Ho)]]]].
    + apply validate_raises with (c := Location._validate_url L);
        [among_checks|].
      exists ValueError. unfold Location._validate_url. rewrite E.
      cbn [_assert_type bind]. rewrite H.
      destruct u; [discriminate H | reflexivity].
    + apply validate_raises with (c := Location._validate_local_path L);
        [among_checks|].
      exists ValueError. unfold Location._validate_local_path. rewrite E.
      cbn [_assert_type bind]. exact (absolute_path_rejected p H).
    + apply validate_raises with (c := Location._validate_url L);
        [among_checks|].
      exists ValueError. exact (oci_without_marker L u E Hp Hm).
    + apply validate_raises with (c := Location._validate_size L);
        [among_checks|].
      exists ValueError. unfold Location._validate_size. rewrite E.
      cbn [_assert_type bind]. apply Z.ltb_lt in H. rewrite H. reflexivity.
    + apply validate_raises with (c := Location._validate_contents L);
        [among_checks|].
      exists ValueError. unfold Location._validate_contents, Location.has_contents.
      rewrite Ho. destruct (Location.contents L); [congruence | reflexivity].
Qed.

Lemma violations_at_validate_witness :
  Spec.checked_violation Sample.https_with_contents
  /\ raises (Location.validate Sample.https_with_contents).
Proof.
  assert (V : Spec.checked_violation Sample.https_with_contents).
  { do 4 right. split; [discriminate | reflexivity]. }
  split; [exact V|].
  exact (proj2 violations_at_validate Sample.https_with_contents V).
Defined.

(** C4, as it is stated, fails: the url [oci://quay.io/fedora/rpms:bash@sha256:]
    is an OCI url and has no digest (no digest component, and its
    [oci_digest] is [None]), which is a violation, and the [Location] passes
    [validate]. *)
Lemma empty_digest_passes :
  Spec.violation Sample.empty_digest_location
  /\ Location.is_oci Sample.empty_digest_location = true
  /\ Spec.has_digest_component Sample.empty_digest_url = false
  /\ Location.oci_digest Sample.empty_digest_location = None
  /\ Location.validate Sample.empty_digest_location = Ok tt
  /\ ~ raises (Location.validate Sample.empty_digest_location).
Proof.
  split.
  { right. right. left. exists Sample.empty_digest_url.
    split; [reflexivity|]. split; vm_compute; reflexivity. }
  repeat split; try (vm_compute; reflexivity).
  intros (e & H). vm_compute in H. discriminate H.
Qed.

(* ------------------------------------------------------------------ *)
(** * Serialization *)

Lemma entry_attributes_set (e : FileEntry.t) :
  FileEntry.validate e = Ok tt ->
  exists f n c d,
    e = {| FileEntry.file := Some f; FileEntry.size := Some n;
           FileEntry.checksum := Some c; FileEntry.layer_digest := Some d |}.
Proof.
  intros H. pose proof (validate_ok _ H) as V.
  destruct (assert_type_ok _ _ (V (FileEntry._validate_file e) ltac:(among_checks)))
    as (f & Ef).
  destruct (assert_type_ok _ _ (V (FileEntry._validate_size e) ltac:(among_checks)))
    as (n & En).
  destruct (assert_type_ok _ _
              (V (FileEntry._validate_checksum e) ltac:(among_checks)))
    as (c & Ec).
  destruct (assert_type_ok _ _
              (V (FileEntry._validate_layer_digest e) ltac:(among_checks)))
    as (d & Ed).
  exists f, n, c, d. destruct e. cbn in *. congruence.
Qed.

(** On attributes that hold strs, the methods of the object that
    [deserialize] fills are those of the typed object. *)
Lemma untyped_entry_validate (f c d : string) (n : Z) :
  FileEntry.Untyped.validate
    {| FileEntry.Untyped.file := JStr f; FileEntry.Untyped.size := n;
       FileEntry.Untyped.checksum := JStr c;
       FileEntry.Untyped.layer_digest := JStr d |}
  = FileEntry.validate (FileEntry.__init__ (Some f) (Some n) (Some c) (Some d)).
Proof. reflexivity. Qed.

(** [validate] passes on such an object only when the three attributes
    hold strs. *)
Lemma untyped_entry_strs (o : FileEntry.Untyped.t) :
  FileEntry.Untyped.validate o = Ok tt ->
  exists f c d,
    o = {| FileEntry.Untyped.file := JStr f;
           FileEntry.Untyped.size := FileEntry.Untyped.size o;
           FileEntry.Untyped.checksum := JStr c;
           FileEntry.Untyped.layer_digest := JStr d |}.
Proof.
  intros H. pose proof (validate_ok _ H) as V.
  destruct (assert_str_ok _ _
              (V (FileEntry.Untyped._validate_file o) ltac:(among_checks)))
    as (f & Ef).
  destruct (assert_str_ok _ _
              (V (FileEntry.Untyped._validate_checksum o) ltac:(among_checks)))
    as (c & Ec).
  destruct (assert_str_ok _ _
              (V (FileEntry.Untyped._validate_layer_digest o)
                 ltac:(among_checks)))
    as (d & Ed).
  exists f, c, d. destruct o. cbn in *. congruence.
Qed.

(** What [FileEntry.from_dict] returns has passed [validate]. *)
Lemma entry_from_dict_valid (data : json) (e : FileEntry.t) :
  FileEntry.from_dict data = Ok e -> FileEntry.validate e = Ok tt.
Proof.
  unfold FileEntry.from_dict. intros H.
  do 5 (apply bind_ok in H as (? & _ & H)).
  apply bind_ok in H as ([] & Hv & H). injection H as <-.
  destruct (untyped_entry_strs _ Hv) as (f & c & d & E).
  injection E as -> -> ->. rewrite untyped_entry_validate in Hv. exact Hv.
Qed.

Lemma entry_round_trip (e : FileEntry.t) :
  FileEntry.validate e = Ok tt ->
  exists d, FileEntry.serialize e = Ok d /\ FileEntry.from_dict d = Ok e.
Proof.
  intros H. destruct (entry_attributes_set e H) as (f & n & c & d & ->).
  eexists. split.
  - unfold FileEntry.serialize. rewrite H. reflexivity.
  - unfold FileEntry.from_dict.
    cbn [getitem dict_get String.eqb Ascii.eqb Bool.eqb bind int str_value
         json_of_str json_of_int FileEntry.file FileEntry.size
         FileEntry.checksum FileEntry.layer_digest].
    rewrite untyped_entry_validate. unfold FileEntry.__init__. rewrite H.
    reflexivity.
Qed.

Lemma entries_round_trip (es : list FileEntry.t) :
  Location.validate_entries es = Ok tt ->
  exists ds, map_m FileEntry.serialize es = Ok ds
             /\ map_m FileEntry.from_dict ds = Ok es.
Proof.
  induction es as [|e es IH]; intros H.
  - exists []. split; reflexivity.
  - cbn [Location.validate_entries] in H.
    destruct (FileEntry.validate e) as [[]|] eqn:He; [|discriminate].
    cbn [bind] in H.
    destruct (entry_round_trip e He) as (d & Es & Ed).
    destruct (IH H) as (ds & Ess & Eds).
    exists (d :: ds). cbn [map_m]. rewrite Es, Ess, Ed, Eds. split; reflexivity.
Qed.

Lemma entry_eq_refl (e : FileEntry.t) : FileEntry.__eq__ e e = true.
Proof.
  unfold FileEntry.__eq__.
  destruct e as [[f|] [n|] [c|] [d|]]; cbn;
    rewrite ?String.eqb_refl, ?Z.eqb_refl; reflexivity.
Qed.

Lemma list_eq_refl (es : list FileEntry.t) : Location.list_eq es es = true.
Proof.
  induction es as [|e es IH]; [reflexivity|].
  cbn. rewrite entry_eq_refl, IH. reflexivity.
Qed.

Lemma location_eq_refl (L : Location.t) : Location.__eq__ L L = true.
Proof.
  unfold Location.__eq__. rewrite list_eq_refl.
  destruct L as [[u|] [n|] [c|] [p|] es]; cbn;
    rewrite ?String.eqb_refl, ?Z.eqb_refl; reflexivity.
Qed.

Lemma location_attributes_set (L : Location.t) :
  Location.validate L = Ok tt ->
  exists u n c p,
    L = {| Location.url := Some u; Location.size := Some n;
           Location.checksum := Some c; Location.local_path := Some p;
           Location.contents := Location.contents L |}
    /\ Location.validate_entries (Location.contents L) = Ok tt.
Proof.
  intros H. pose proof (validate_ok _ H) as V.
  destruct (assert_type_ok _ _ (V (Location._validate_url L) ltac:(among_checks)))
    as (u & Eu).
  destruct (assert_type_ok _ _ (V (Location._validate_size L) ltac:(among_checks)))
    as (n & En).
  destruct (assert_type_ok _ _
              (V (Location._validate_checksum L) ltac:(among_checks)))
    as (c & Ec).
  destruct (assert_type_ok _ _
              (V (Location._validate_local_path L) ltac:(among_checks)))
    as (p & Ep).
  pose proof (V (Location._validate_contents L) ltac:(among_checks)) as Hc.
  unfold Location._validate_contents in Hc.
  destruct (Location.has_contents L && negb (Location.is_oci L));
    [discriminate|].
  exists u, n, c, p. split; [|exact Hc].
  destruct L. cbn in *. congruence.
Qed.

Lemma untyped_is_oci (u c p : json) (n : Z) (es : list FileEntry.t)
      (s : string) :
  u = JStr s ->
  Location.Untyped.is_oci
    {| Location.Untyped.url := u; Location.Untyped.size := n;
       Location.Untyped.checksum := c; Location.Untyped.local_path := p;
       Location.Untyped.contents := es |}
  = Ok (Location.is_oci
          {| Location.url := Some s; Location.size := Some n;
             Location.checksum := str_value c;
             Location.local_path := str_value p;
             Location.contents := es |}).
Proof.
  intros ->. unfold Location.Untyped.is_oci, Location.is_oci,
    Location.url_startswith.
  cbn [Location.Untyped.url Location.url truthy truthy_str existsb].
  destruct s as [|a s]; cbn [negb]; [reflexivity|].
  rewrite orb_false_r. reflexivity.
Qed.

(** On attributes that hold strs, the methods of the object that
    [deserialize] fills are those of the typed object. *)
Lemma untyped_location_validate (u c p : string) (n : Z)
      (es : list FileEntry.t) :
  Location.Untyped.validate
    {| Location.Untyped.url := JStr u; Location.Untyped.size := n;
       Location.Untyped.checksum := JStr c;
       Location.Untyped.local_path := JStr p;
       Location.Untyped.contents := es |}
  = Location.validate
      {| Location.url := Some u; Location.size := Some n;
         Location.checksum := Some c; Location.local_path := Some p;
         Location.contents := es |}.
Proof.
  set (o := {| Location.Untyped.url := JStr u |}).
  set (L := {| Location.url := Some u |}).
  assert (Ec : Location.Untyped._validate_contents o
               = Location._validate_contents L).
  { unfold Location.Untyped._validate_contents, Location._validate_contents,
      Location.has_contents.
    subst o L. cbn [Location.Untyped.contents Location.contents].
    destruct es as [|e es]; [reflexivity|].
    rewrite (untyped_is_oci _ _ _ _ _ u eq_refl). cbn [bind str_value andb].
    reflexivity. }
  assert (Eu : Location.Untyped._validate_url o = Location._validate_url L).
  { unfold Location.Untyped._validate_url, Location._validate_url.
    subst o L.
    cbn [Location.Untyped.url Location.url _assert_str _assert_type bind].
    destruct (_assert_not_blank u) as [[]|]; cbn [bind]; [|reflexivity].
    destruct (String.prefix "/" u); [reflexivity|].
    rewrite (untyped_is_oci _ _ _ _ _ u eq_refl). cbn [bind str_value].
    reflexivity. }
  unfold Location.Untyped.validate, Location.validate. rewrite Ec, Eu.
  reflexivity.
Qed.

(** [validate] passes on such an object only when the three attributes
    hold strs. *)
Lemma untyped_location_strs (o : Location.Untyped.t) :
  Location.Untyped.validate o = Ok tt ->
  exists u c p,
    o = {| Location.Untyped.url := JStr u;
           Location.Untyped.size := Location.Untyped.size o;
           Location.Untyped.checksum := JStr c;
           Location.Untyped.local_path := JStr p;
           Location.Untyped.contents := Location.Untyped.contents o |}.
Proof.
  intros H. pose proof (validate_ok _ H) as V.
  destruct (assert_str_ok _ _
              (V (Location.Untyped._validate_url o) ltac:(among_checks)))
    as (u & Eu).
  destruct (assert_str_ok _ _
              (V (Location.Untyped._validate_checksum o) ltac:(among_checks)))
    as (c & Ec).
  destruct (assert_str_ok _ _
              (V (Location.Untyped._validate_local_path o)
                 ltac:(among_checks)))
    as (p & Ep).
  exists u, c, p. destruct o. cbn in *. congruence.
Qed.

(** What [from_dict] reads back is the object that was serialized. *)
Lemma serialize_from_dict (L : Location.t) :
  Location.validate L = Ok tt ->
  exists d, Location.serialize L = Ok d /\ Location.from_dict d = Ok L.
Proof.
  intros H.
  destruct (location_attributes_set L H) as (u & n & c & p & E & Hes).
  destruct (entries_round_trip _ Hes) as (ds & Es & Ed).
  unfold Location.serialize. rewrite H. cbn [bind].
  destruct (Location.contents L) as [|e es] eqn:Ec.
  - unfold Location.has_contents. rewrite Ec. eexists. split; [reflexivity|].
    rewrite E in *. cbn in Ec. subst.
    unfold Location.from_dict.
    cbn [getitem dict_get String.eqb Ascii.eqb Bool.eqb bind int str_value
         json_of_str json_of_int contains has_key Location.url Location.size
         Location.checksum Location.local_path].
    rewrite untyped_location_validate, H. reflexivity.
  - unfold Location.has_contents. rewrite Ec, Es. cbn [bind].
    eexists. split; [reflexivity|].
    rewrite E in *. cbn in Ec. subst.
    unfold Location.from_dict.
    cbn [getitem dict_get String.eqb Ascii.eqb Bool.eqb bind int str_value
         json_of_str json_of_int contains has_key Location.url Location.size
         Location.checksum Location.local_path app iterate].
    rewrite Ed. cbn [bind]. rewrite untyped_location_validate, H. reflexivity.
Qed.

(** C5.  A [Location] that passes [validate] is serialized, the
    dictionary is read back by [from_dict], and the result is [==] to the
    original; so are the two lists of contents, element by element. *)
Theorem round_trip (L : Location.t) :
  Location.validate L = Ok tt ->
  exists d L',
    Location.serialize L = Ok d
    /\ Location.from_dict d = Ok L'
    /\ Location.__eq__ L' L = true
    /\ Location.list_eq (Location.contents L') (Location.contents L) = true.
Proof.
  intros H. destruct (serialize_from_dict L H) as (d & Hs & Hd).
  exists d, L. split; [exact Hs|]. split; [exact Hd|].
  split; [apply location_eq_refl | apply list_eq_refl].
Qed.

Lemma round_trip_witness :
  Location.validate Sample.boot_files = Ok tt
  /\ exists d L',
       Location.serialize Sample.boot_files = Ok d
       /\ Location.from_dict d = Ok L'
       /\ Location.__eq__ L' Sample.boot_files = true
       /\ Location.list_eq (Location.contents L')
            (Location.contents Sample.boot_files) = true.
Proof.
  assert (V : Location.validate Sample.boot_files = Ok tt)
    by (vm_compute; reflexivity).
  split; [exact V|]. exact (round_trip Sample.boot_files V).
Defined.

(* ------------------------------------------------------------------ *)
(** * Equality and hashing *)

Lemma eq_attr_str (a b : option string) :
  eq_attr String.eqb a b = true -> a = b.
Proof.
  destruct a, b; cbn; intros H; try discriminate; [|reflexivity].
  apply String.eqb_eq in H. congruence.
Qed.

Lemma eq_attr_int (a b : option Z) :
  eq_attr Z.eqb a b = true -> a = b.
Proof.
  destruct a, b; cbn; intros H; try discriminate; [|reflexivity].
  apply Z.eqb_eq in H. congruence.
Qed.



(* ------------------------------------------------------------------ *)
(** * Publishing a local location *)

Lemma new_list_elements (h : Objects.heap) (l : list Objects.addr) :
  Objects.elements (fst (Objects.new_list h l)) (snd (Objects.new_list h l)) = l.
Proof. unfold Objects.elements, Objects.new_list. cbn. apply nth_middle. Qed.

Lemma new_list_frame (h : Objects.heap) (l : list Objects.addr)
      (a : Objects.addr) :
  (a < List.length (Objects.lists h))%nat ->
  Objects.elements (fst (Objects.new_list h l)) a = Objects.elements h a.
Proof.
  intros H. unfold Objects.elements, Objects.new_list. cbn.
  apply app_nth1. exact H.
Qed.

(** What [with_remote_url] does to the heap: one list object is added,
    which holds the elements of [self.contents]. *)
Lemma with_remote_url_heap (h : Objects.heap) (self : Objects.location)
      (base_url : string) :
  Objects.with_remote_url h self base_url
  = (fst (Objects.new_list h (Objects.elements h (Objects.contents self))),
     {| Objects.url :=
          Some (Location.rstrip "/" base_url ++ "/"
                ++ Location.format (Objects.local_path self))%string;
        Objects.size := Objects.size self;
        Objects.checksum := Objects.checksum self;
        Objects.local_path := Objects.local_path self;
        Objects.contents := List.length (Objects.lists h) |}).
Proof.
  unfold Objects.with_remote_url, Objects.list_copy, Objects.__init__.
  destruct (Objects.elements h (Objects.contents self)) as [|x xs] eqn:E;
    cbn [fst snd].
  - reflexivity.
  - rewrite new_list_elements. reflexivity.
Qed.

(** C7.  For a [Location] object [self] of the heap [h] and a string
    [base_url], [with_remote_url] returns an object whose url is [base_url]
    with the slashes at its end stripped, a slash and the local path:
    whenever [base_url] is [base] and a run of slashes, and [base] does not
    end with a slash, the url is [base], one slash and the local path.  The
    size, checksum and local path of the object are those of [self]; its
    contents are a list object that [h] does not have, with the elements of
    [self.contents].  No object of [h] is changed, so [self] has the value
    it had. *)
Theorem with_remote_url_copy (h : Objects.heap) (self : Objects.location)
        (base_url : string) :
  (Objects.contents self < List.length (Objects.lists h))%nat ->
  let h' := fst (Objects.with_remote_url h self base_url) in
  let new := snd (Objects.with_remote_url h self base_url) in
  (exists base,
      Spec.stripped base_url base
      /\ Objects.url new
         = Some (base ++ "/" ++ Location.format (Objects.local_path self))%string)
  /\ (forall base p,
        Spec.stripped base_url base ->
        Objects.local_path self = Some p ->
        Objects.url new = Some (base ++ "/" ++ p)%string)
  /\ Objects.size new = Objects.size self
  /\ Objects.checksum new = Objects.checksum self
  /\ Objects.local_path new = Objects.local_path self
  /\ Objects.elements h' (Objects.contents new)
     = Objects.elements h (Objects.contents self)
  /\ Objects.value h' new
     = Location.with_remote_url (Objects.value h self) base_url
  /\ Location.contents (Objects.value h' new)
     = Location.contents (Objects.value h self)
  /\ Objects.contents new <> Objects.contents self
  /\ (List.length (Objects.lists h) <= Objects.contents new)%nat
  /\ (forall a, (a < List.length (Objects.lists h))%nat ->
                Objects.elements h' a = Objects.elements h a)
  /\ Objects.entries h' = Objects.entries h
  /\ Objects.value h' self = Objects.value h self.
Proof.
  intros Hself h' new. subst h' new. rewrite with_remote_url_heap.
  cbn [fst snd].
  cbn [Objects.url Objects.size Objects.checksum Objects.local_path
       Objects.contents].
  pose proof (new_list_elements h (Objects.elements h (Objects.contents self)))
    as Hnew.
  cbn [snd Objects.new_list] in Hnew.
  assert (Hc : map (Objects.entry
                      (fst (Objects.new_list h
                              (Objects.elements h (Objects.contents self)))))
                 (Objects.elements h (Objects.contents self))
               = map (Objects.entry h)
                   (Objects.elements h (Objects.contents self)))
    by reflexivity.
  split.
  { exists (Location.rstrip "/" base_url).
    split; [apply stripped_iff|]; reflexivity. }
  split.
  { intros base p Hb ->. apply stripped_iff in Hb. subst base. reflexivity. }
  split; [reflexivity|]. split; [reflexivity|]. split; [reflexivity|].
  split; [exact Hnew|].
  split.
  { unfold Objects.value, Location.with_remote_url, Location.__init__,
      Location.has_contents.
    cbn [Objects.url Objects.size Objects.checksum Objects.local_path
         Objects.contents Location.url Location.size Location.checksum
         Location.local_path Location.contents].
    rewrite Hnew, Hc.
    destruct (map (Objects.entry h)
                (Objects.elements h (Objects.contents self))); reflexivity. }
  split.
  { unfold Objects.value. cbn [Location.contents Objects.contents].
    rewrite Hnew. exact Hc. }
  split; [lia|]. split; [lia|].
  split; [intros a Ha; apply new_list_frame; exact Ha|].
  split; [reflexivity|].
  unfold Objects.value. f_equal. rewrite (new_list_frame _ _ _ Hself).
  reflexivity.
Qed.

Lemma with_remote_url_copy_witness :
  (Objects.contents Sample.local_bash
   < List.length (Objects.lists Sample.heap))%nat
  /\ Spec.stripped "https://cdn.example.com/compose//"
       "https://cdn.example.com/compose"
  /\ Objects.url (snd (Objects.with_remote_url Sample.heap Sample.local_bash
                         "https://cdn.example.com/compose//"))
     = Some ("https://cdn.example.com/compose/" ++ Sample.bash_rpm)%string
  /\ Objects.contents (snd (Objects.with_remote_url Sample.heap Sample.local_bash
                              "https://cdn.example.com/compose//"))
     <> Objects.contents Sample.local_bash.
Proof.
  assert (A : (Objects.contents Sample.local_bash
               < List.length (Objects.lists Sample.heap))%nat)
    by (cbn; lia).
  assert (B : Spec.stripped "https://cdn.example.com/compose//"
                "https://cdn.example.com/compose")
    by (split; [reflexivity | exists 2%nat; reflexivity]).
  pose proof (with_remote_url_copy Sample.heap Sample.local_bash
                "https://cdn.example.com/compose//" A) as W.
  cbv zeta in W.
  split; [exact A|]. split; [exact B|]. split.
  - exact (proj1 (proj2 W) "https://cdn.example.com/compose" Sample.bash_rpm
             B eq_refl).
  - exact (proj1 (proj2 (proj2 (proj2 (proj2 (proj2 (proj2 (proj2 (proj2 W))))))))).
Defined.

(* ------------------------------------------------------------------ *)
(** * The test suite on the model *)

Example test_string_to_version :
  string_to_version (JStr "1.0") = Ok (1, 0)
  /\ string_to_version (JStr "1.2") = Ok (1, 2)
  /\ string_to_version (JStr "2.0") = Ok (2, 0)
  /\ string_to_version (JStr "invalid") = Raise ValueError
  /\ string_to_version (JStr "1") = Raise ValueError
  /\ string_to_version (JStr "a.b") = Raise ValueError.
Proof. repeat split. Qed.

Example test_version_checks :
  is_v1 (OfTuple VERSION_1_2) = Ok true
  /\ is_v1 (OfStr "2.0") = Ok false
  /\ is_v2 (OfStr "1.2") = Ok false
  /\ is_v2 (OfStr "2.0") = Ok true
  /\ is_distributed (OfTuple VERSION_1_2) = Ok false
  /\ is_distributed (OfTuple VERSION_2_0) = Ok true
  /\ supports_location_objects (OfTuple VERSION_1_2) = Ok false
  /\ supports_location_objects (OfTuple VERSION_2_0) = Ok true.
Proof. repeat split. Qed.

Example test_detect_version_from_data :
  detect_version_from_data (JDict Sample.legacy_document) = Ok (1, 0)
  /\ detect_version_from_data (JDict [("payload", Sample.located_images)])
     = Ok (2, 0)
  /\ detect_version_from_data (JDict [("random", JStr "data")])
     = Raise ValueError
  /\ has_location_objects (JDict [("header", JDict [("version", JStr "1.2")])])
     = Ok false.
Proof. repeat split. Qed.

Example test_parse_checksum :
  parse_checksum (Sample.digest "a")
  = Ok (Some "sha256", Some (string_of_list_ascii (repeat "a"%char 64)))
  /\ parse_checksum "invalid" = Raise ValueError
  /\ parse_checksum "sha256" = Raise ValueError
  /\ parse_checksum "sha999:abcd" = Raise ValueError
  /\ parse_checksum "sha256:ABCD" = Raise ValueError
  /\ parse_checksum (String "010" "sha256:abcd") = Raise ValueError
  /\ parse_checksum ("sha256:abcd" ++ String "010" EmptyString)
     = Ok (Some "sha256", Some "abcd").
Proof. repeat split. Qed.

Example test_oci_reference_regex :
  Re.rmatch OCI_REFERENCE_RE Sample.untagged_oci_url = None
  /\ Re.rmatch OCI_REFERENCE_RE
       ("https://quay.io/fedora/rpms@" ++ Sample.digest "a") = None
  /\ option_map (Re.group "tag")
       (Re.rmatch OCI_REFERENCE_RE
          ("oci://registry.example.com/namespace/image@" ++ Sample.digest "b"))
     = Some None
  /\ option_map (Re.group "repository")
       (Re.rmatch OCI_REFERENCE_RE
          ("oci://registry.example.com/namespace/image@" ++ Sample.digest "b"))
     = Some (Some "namespace/image").
Proof. repeat split. Qed.

Example test_location_validation :
  Location.validate Sample.oci_location = Ok tt
  /\ Location.validate Sample.boot_files = Ok tt
  /\ Location.validate Sample.without_digest = Raise ValueError
  /\ Location.validate Sample.https_with_contents = Raise ValueError
  /\ Location.validate Sample.unset_location = Raise TypeError.
Proof. repeat split. Qed.

(** [deserialize] on values of other types than the attributes have: the
    first method of [validate] that reads such a value decides the
    exception, and [size] is what [int] makes of the value. *)
Example deserialize_other_types :
  Location.from_dict (Sample.numbered_url (JInt 5) (JStr "bad") [])
  = Raise ValueError
  /\ Location.from_dict
       (Sample.numbered_url (JInt 5) (JStr "md5:0f") [Sample.entry_dict])
     = Raise AttributeError
  /\ Location.from_dict
       (Sample.numbered_url (JInt 0) (JStr "md5:0f") [Sample.entry_dict])
     = Raise ValueError
  /\ Location.from_dict (Sample.numbered_url (JInt 5) (JStr "md5:0f") [])
     = Raise TypeError
  /\ Location.from_dict (Sample.numbered_url (JStr "a") (JInt 5) [])
     = Raise TypeError
  /\ Location.from_dict (Sample.sized Sample.five_halves)
     = Ok (Location.__init__ (Some "a") (Some 2) (Some "md5:0f") (Some "a") None)
  /\ Location.from_dict (Sample.sized Sample.minus_three_halves)
     = Raise ValueError
  /\ Location.from_dict (Sample.sized (JFloat (SpecFloat.S754_infinity false)))
     = Raise OverflowError
  /\ Location.from_dict (Sample.sized (JStr (String "028" "1")))
     = Raise ValueError
  /\ Location.from_dict (Sample.sized (JStr (String "160" "1")))
     = Ok (Location.__init__ (Some "a") (Some 1) (Some "md5:0f") (Some "a") None)
  /\ FileEntry.from_dict
       (JDict [("file", JInt 5); ("size", JInt 1); ("checksum", JStr "bad");
               ("layer_digest", JStr "sha256:0f")])
     = Raise ValueError
  /\ FileEntry.from_dict
       (JDict [("file", JInt 5); ("size", JInt 1); ("checksum", JStr "md5:0f");
               ("layer_digest", JStr "sha256:0f")])
     = Raise TypeError.
Proof. repeat split. Qed.

Example test_with_remote_url :
  Location.url
    (Location.with_remote_url
       (Location.__init__ (Some Sample.bash_rpm) (Some 1000)
          (Some (Sample.digest "a")) (Some Sample.bash_rpm) None)
       "https://cdn.example.com/compose/")
  = Some "https://cdn.example.com/compose/Server/x86_64/os/Packages/b/bash.rpm".
Proof. reflexivity. Qed.

(* ------------------------------------------------------------------ *)
(** * Version strings *)

Lemma append_assoc (a b c : string) : ((a ++ b) ++ c = a ++ (b ++ c))%string.
Proof.
  induction a as [|x a IH]; cbn; [reflexivity | rewrite IH; reflexivity].
Qed.

Lemma int_digits_printed (d : Decimal.uint) (acc : Z) :
  int_digits acc false (NilEmpty.string_of_uint d)
  = Some (Spec.digits_value d acc).
Proof.
  revert acc.
  induction d; intros acc; cbn [NilEmpty.string_of_uint Spec.digits_value];
    [reflexivity | ..]; apply IHd.
Qed.

Lemma digits_value_acc (d : Decimal.uint) (acc : positive) :
  Spec.digits_value d (Z.pos acc) = Z.pos (Pos.of_uint_acc d acc).
Proof.
  revert acc.
  induction d; intros acc; cbn [Spec.digits_value Pos.of_uint_acc];
    [reflexivity | ..];
    match goal with
    | |- Spec.digits_value _ ?a = Z.pos (Pos.of_uint_acc _ ?p) =>
        replace a with (Z.pos p) by lia
    end; apply IHd.
Qed.

Lemma digits_value_of_uint (d : Decimal.uint) :
  Spec.digits_value d 0 = Z.of_N (Pos.of_uint d).
Proof.
  induction d; cbn [Spec.digits_value Pos.of_uint];
    [reflexivity | exact IHd | ..];
    match goal with
    | |- Spec.digits_value _ ?a = Z.of_N (N.pos (Pos.of_uint_acc _ ?p)) =>
        change a with (Z.pos p)
    end; apply digits_value_acc.
Qed.

Lemma int_unsigned_printed (d : Decimal.uint) :
  d <> Decimal.Nil ->
  int_unsigned (NilEmpty.string_of_uint d) = Some (Z.of_uint d).
Proof.
  intros Hd. unfold Z.of_uint. rewrite <- digits_value_of_uint.
  destruct d; [congruence | ..];
    cbn [NilEmpty.string_of_uint int_unsigned Spec.digits_value];
    apply int_digits_printed.
Qed.

(** [int] reads a string that starts with a digit as an unsigned
    literal. *)
Lemma int_of_str_digit (c : ascii) (s : string) :
  digit_value c <> None ->
  int_of_str (String c s)
  = match int_unsigned (String c s) with
    | Some n => Ok n
    | None => Raise ValueError
    end.
Proof.
  destruct c as [[] [] [] [] [] [] [] []]; intros H;
    try (exfalso; apply H; reflexivity); reflexivity.
Qed.

Lemma printed_starts_with_digit (d : Decimal.uint) :
  d <> Decimal.Nil ->
  exists c s, NilEmpty.string_of_uint d = String c s /\ digit_value c <> None.
Proof.
  destruct d; [congruence | ..]; intros _; cbn [NilEmpty.string_of_uint];
    eexists _, _; (split; [reflexivity | discriminate]).
Qed.

(** [int(str(n)) == n]. *)
Lemma int_of_str_of_int (n : Z) : int_of_str (str_of_int n) = Ok n.
Proof.
  unfold str_of_int. rewrite <- (DecimalZ.of_to n) at 2.
  destruct n as [|p|p]; [reflexivity | |];
    cbn [Z.to_int NilZero.string_of_int Z.of_int];
    pose proof (DecimalPos.Unsigned.to_uint_nonnil p) as Hn;
    pose proof (int_unsigned_printed _ Hn) as Hp;
    destruct (printed_starts_with_digit _ Hn) as (c & s & E & Hc);
    assert (Ez : NilZero.string_of_uint (Pos.to_uint p)
                 = NilEmpty.string_of_uint (Pos.to_uint p))
      by (destruct (Pos.to_uint p); [congruence | reflexivity ..]);
    rewrite Ez.
  - rewrite E in *. rewrite (int_of_str_digit c s Hc), Hp. reflexivity.
  - change (int_of_str (String "-" (NilEmpty.string_of_uint (Pos.to_uint p))))
      with (match option_map Z.opp
                    (int_unsigned (NilEmpty.string_of_uint (Pos.to_uint p))) with
            | Some n => Ok n
            | None => Raise ValueError
            end).
    rewrite Hp. reflexivity.
Qed.

Lemma int_of_str_raises (s : string) (e : exn) :
  int_of_str s = Raise e -> e = ValueError.
Proof.
  unfold int_of_str.
  destruct (match lstrip s with
            | String "-" s' => option_map Z.opp (int_unsigned s')
            | String "+" s' => int_unsigned s'
            | s' => int_unsigned s'
            end); [discriminate|].
  intros [= <-]. reflexivity.
Qed.

Lemma index_raises {A : Type} (l : list A) (i : nat) (e : exn) :
  index l i = Raise e -> e = IndexError.
Proof.
  unfold index. destruct (nth_error l i); [discriminate|].
  intros [= <-]. reflexivity.
Qed.

Lemma split_free (sep : ascii) (s : string) :
  Spec.free_of sep s = true -> split sep s = [s].
Proof.
  unfold Spec.free_of. induction s as [|c s IH]; [reflexivity|].
  cbn [list_ascii_of_string existsb split]. rewrite negb_orb.
  intros H. apply andb_prop in H as (Hc & Hs).
  rewrite Ascii.eqb_sym in Hc. apply negb_true_iff in Hc. rewrite Hc, (IH Hs).
  reflexivity.
Qed.

Lemma split_app (sep : ascii) (a b : string) :
  Spec.free_of sep a = true ->
  split sep (a ++ String sep b) = a :: split sep b.
Proof.
  unfold Spec.free_of. induction a as [|c a IH].
  - intros _. cbn [append split]. rewrite Ascii.eqb_refl. reflexivity.
  - cbn [list_ascii_of_string existsb append split]. rewrite negb_orb.
    intros H. apply andb_prop in H as (Hc & Ha).
    rewrite Ascii.eqb_sym in Hc. apply negb_true_iff in Hc.
    rewrite Hc, (IH Ha). reflexivity.
Qed.

Lemma printed_uint_free (d : Decimal.uint) :
  Spec.free_of "." (NilEmpty.string_of_uint d) = true.
Proof.
  unfold Spec.free_of.
  induction d; cbn [NilEmpty.string_of_uint list_ascii_of_string existsb];
    [reflexivity | ..]; exact IHd.
Qed.

Lemma str_of_int_free (n : Z) : Spec.free_of "." (str_of_int n) = true.
Proof.
  unfold str_of_int.
  assert (U : forall d, Spec.free_of "." (NilZero.string_of_uint d) = true).
  { intros d. destruct d; try reflexivity; apply (printed_uint_free (_ d)). }
  destruct (Z.to_int n) as [d|d]; cbn [NilZero.string_of_int]; [apply U|].
  unfold Spec.free_of. cbn [list_ascii_of_string existsb]. apply (U d).
Qed.

(** X1.  [string_to_version] reads back what [version_to_string] prints,
    for every pair of ints, negative ones included (up to the interpreter's
    limit on the digits of an int, which the model does not have);
    components after the second are ignored. *)
Theorem version_string_round_trip (v : version) (rest : string) :
  string_to_version (JStr (version_to_string v)) = Ok v
  /\ string_to_version (JStr (version_to_string v ++ "." ++ rest)) = Ok v.
Proof.
  destruct v as [major minor].
  unfold version_to_string, string_to_version. cbn [fst snd].
  split.
  - change (str_of_int major ++ "." ++ str_of_int minor)%string
      with (str_of_int major ++ String "." (str_of_int minor))%string.
    rewrite (split_app "." _ _ (str_of_int_free major)),
      (split_free "." _ (str_of_int_free minor)).
    cbn [index nth_error bind]. rewrite !int_of_str_of_int. reflexivity.
  - rewrite append_assoc.
    change (str_of_int major ++ ("." ++ str_of_int minor) ++ "." ++ rest)%string
      with (str_of_int major
            ++ String "." (str_of_int minor ++ String "." rest))%string.
    rewrite (split_app "." _ _ (str_of_int_free major)),
      (split_app "." _ _ (str_of_int_free minor)).
    cbn [index nth_error bind]. rewrite !int_of_str_of_int. reflexivity.
Qed.

(** X2.  On a str, [string_to_version] raises nothing but [ValueError]
    (the [IndexError] of a missing component is converted), and it raises
    it on every string without a dot. *)
Theorem string_to_version_errors (s : string) :
  (forall e, string_to_version (JStr s) = Raise e -> e = ValueError)
  /\ (Spec.free_of "." s = true -> string_to_version (JStr s) = Raise ValueError).
Proof.
  unfold string_to_version. split.
  - intros e.
    destruct (index (split "." s) 0) as [p0|e0] eqn:E0; cbn [bind];
      [|rewrite (index_raises _ _ _ E0); congruence].
    destruct (int_of_str p0) as [a|ea] eqn:Ea; cbn [bind];
      [|rewrite (int_of_str_raises _ _ Ea); congruence].
    destruct (index (split "." s) 1) as [p1|e1] eqn:E1; cbn [bind];
      [|rewrite (index_raises _ _ _ E1); congruence].
    destruct (int_of_str p1) as [b|eb] eqn:Eb; cbn [bind];
      [discriminate | rewrite (int_of_str_raises _ _ Eb); congruence].
  - intros H. rewrite (split_free "." s H). cbn [index nth_error bind].
    destruct (int_of_str s) as [a|ea] eqn:Ea; cbn [bind]; [reflexivity|].
    rewrite (int_of_str_raises _ _ Ea). reflexivity.
Qed.

Lemma string_to_version_errors_witness :
  (string_to_version (JStr "1.x") = Raise ValueError -> ValueError = ValueError)
  /\ Spec.free_of "." "12" = true
  /\ string_to_version (JStr "12") = Raise ValueError.
Proof.
  split; [exact (proj1 (string_to_version_errors "1.x") ValueError)|].
  split; [reflexivity|].
  exact (proj2 (string_to_version_errors "12") eq_refl).
Defined.

(* ------------------------------------------------------------------ *)
(** * More on the detector and the version predicates *)

(** X3.  Whatever the document, a version that the detector returns is the
    parse of the tag in the header, or (2, 0) with [has_location_objects]
    true, or (1, 0) with [has_location_objects] false: it returns no other
    version. *)
Theorem detector_results (data : dict) (v : version) :
  detect_version_from_data (JDict data) = Ok v ->
  (exists header tag,
      dict_get "header" data = Some header
      /\ getitem header "version" = Ok tag
      /\ string_to_version tag = Ok v)
  \/ (v = VERSION_2_0 /\ has_location_objects (JDict data) = Ok true)
  \/ (v = VERSION_1_0 /\ has_location_objects (JDict data) = Ok false).
Proof.
  unfold detect_version_from_data, has_location_objects, and_then.
  rewrite !contains_dict. cbn [bind].
  intros H.
  assert (P : (with_payload <- Ok (has_key "payload" data) ;;
               if with_payload then
                 payload <- getitem (JDict data) "payload" ;;
                 located <- _has_location_in_payload payload ;;
                 if located then Ok VERSION_2_0 else
                 legacy <- or_else (contains "rpms" payload)
                             (or_else (contains "images" payload)
                                      (contains "compose" payload)) ;;
                 if legacy then Ok VERSION_1_0 else Raise ValueError
               else Raise ValueError) = Ok v ->
              (v = VERSION_2_0 /\
               (if has_key "payload" data
                then payload <- getitem (JDict data) "payload" ;;
                     _has_location_in_payload payload
                else Ok false) = Ok true)
              \/ (v = VERSION_1_0 /\
                  (if has_key "payload" data
                   then payload <- getitem (JDict data) "payload" ;;
                        _has_location_in_payload payload
                   else Ok false) = Ok false)).
  { cbn [bind]. destruct (has_key "payload" data); [|discriminate].
    destruct (getitem (JDict data) "payload") as [payload|]; [|discriminate].
    cbn [bind].
    destruct (_has_location_in_payload payload) as [[|]|]; cbn [bind];
      [intros [= <-]; auto | | discriminate].
    destruct (or_else _ _) as [[|]|]; cbn [bind]; try discriminate.
    intros [= <-]. auto. }
  destruct (has_key "header" data) eqn:Hh.
  - destruct (has_key_true _ _ Hh) as (header & Eh).
    rewrite (getitem_some _ _ _ Eh) in H. cbn [bind] in H.
    destruct (contains "version" header) as [[|]|] eqn:Ec; cbn [bind] in H;
      [| right; exact (P H) | discriminate].
    left. destruct (getitem header "version") as [tag|] eqn:Et; [|discriminate].
    exists header, tag. auto.
  - right. exact (P H).
Qed.

Lemma detector_results_witness :
  detect_version_from_data (JDict Sample.legacy_document) = Ok VERSION_1_0
  /\ ((exists header tag,
          dict_get "header" Sample.legacy_document = Some header
          /\ getitem header "version" = Ok tag
          /\ string_to_version tag = Ok VERSION_1_0)
      \/ (VERSION_1_0 = VERSION_2_0
          /\ has_location_objects (JDict Sample.legacy_document) = Ok true)
      \/ (VERSION_1_0 = VERSION_1_0
          /\ has_location_objects (JDict Sample.legacy_document) = Ok false)).
Proof.
  split; [reflexivity|].
  exact (detector_results Sample.legacy_document VERSION_1_0 eq_refl).
Defined.

(** X4.  For a document without a version tag: when
    [has_location_objects] is true the detector returns (2, 0); when there
    is no payload, [has_location_objects] is false and the detector raises
    [ValueError]. *)
Theorem location_objects_detected (data : dict) :
  Spec.untagged data ->
  (has_location_objects (JDict data) = Ok true ->
   detect_version_from_data (JDict data) = Ok VERSION_2_0)
  /\ (dict_get "payload" data = None ->
      has_location_objects (JDict data) = Ok false
      /\ detect_version_from_data (JDict data) = Raise ValueError).
Proof.
  intros Hu. unfold detect_version_from_data, has_location_objects.
  rewrite (untagged_falls_through data Hu), contains_dict. cbn [bind]. split.
  - destruct (has_key "payload" data); [|discriminate].
    destruct (getitem (JDict data) "payload") as [payload|]; [|discriminate].
    cbn [bind]. intros ->. reflexivity.
  - intros E. rewrite (has_key_none _ _ E). split; reflexivity.
Qed.

Lemma location_objects_detected_witness :
  Spec.untagged [("payload", Sample.located_images)]
  /\ has_location_objects (JDict [("payload", Sample.located_images)]) = Ok true
  /\ detect_version_from_data (JDict [("payload", Sample.located_images)])
     = Ok VERSION_2_0
  /\ Spec.untagged [("random", JStr "data")]
  /\ dict_get "payload" [("random", JStr "data")] = None
  /\ detect_version_from_data (JDict [("random", JStr "data")])
     = Raise ValueError.
Proof.
  assert (U1 : Spec.untagged [("payload", Sample.located_images)])
    by (left; reflexivity).
  assert (U2 : Spec.untagged [("random", JStr "data")]) by (left; reflexivity).
  split; [exact U1|]. split; [reflexivity|].
  split; [exact (proj1 (location_objects_detected _ U1) eq_refl)|].
  split; [exact U2|]. split; [reflexivity|].
  exact (proj2 (proj2 (location_objects_detected _ U2) eq_refl)).
Defined.

(** X5.  On every tuple of ints, [supports_location_objects] implies
    [is_distributed]; the two differ exactly on the tuples (2, minor) with
    a negative minor, which are distributed and do not support location
    objects. *)
Theorem location_support_and_distribution (major minor : Z) :
  (supports_location_objects (OfTuple (major, minor)) = Ok true ->
   is_distributed (OfTuple (major, minor)) = Ok true)
  /\ (is_distributed (OfTuple (major, minor)) = Ok true
      /\ supports_location_objects (OfTuple (major, minor)) = Ok false
      <-> major = 2 /\ minor < 0).
Proof.
  unfold is_distributed, is_v2, supports_location_objects, get_version_tuple,
    tuple_ge, MIN_LOCATION_VERSION, VERSION_2_0.
  cbn [bind fst snd].
  destruct (Z.eqb_spec major 2) as [E|N];
    destruct (Z.leb_spec 0 minor) as [Hm|Hm];
    destruct (Z.leb_spec 2 major) as [HM|HM];
    (split; [intros H | split; [intros (H1 & H2) | intros (H1 & H2)]]);
    try discriminate; try reflexivity; try lia; try (split; reflexivity).
Qed.

Lemma location_support_and_distribution_witness :
  (2 = 2 /\ -1 < 0)
  /\ is_distributed (OfTuple (2, -1)) = Ok true
  /\ supports_location_objects (OfTuple (2, -1)) = Ok false.
Proof.
  assert (H : 2 = 2 /\ -1 < 0) by lia.
  split; [exact H|].
  exact (proj2 (proj2 (location_support_and_distribution 2 (-1))) H).
Defined.

(** X6.  [supports_location_objects] is monotone: a version that is at
    least a version with location objects has location objects. *)
Theorem location_support_monotone (v w : version) :
  tuple_ge w v = true ->
  supports_location_objects (OfTuple v) = Ok true ->
  supports_location_objects (OfTuple w) = Ok true.
Proof.
  unfold supports_location_objects, get_version_tuple. cbn [bind].
  intros Hwv [= Hv]. f_equal.
  apply tuple_ge_spec. apply tuple_ge_spec in Hwv, Hv.
  unfold Spec.lex_ge in *. lia.
Qed.

Lemma location_support_monotone_witness :
  tuple_ge (3, 1) (2, 0) = true
  /\ supports_location_objects (OfTuple (2, 0)) = Ok true
  /\ supports_location_objects (OfTuple (3, 1)) = Ok true.
Proof.
  split; [reflexivity|]. split; [reflexivity|].
  exact (location_support_monotone (2, 0) (3, 1) eq_refl eq_refl).
Defined.

(** X7.  A mixin whose output version was never set writes the legacy
    layout; after the output version is set to [v], a string or a tuple,
    [should_use_locations] is [supports_location_objects(v)]. *)
Theorem output_version_decides_layout (self self' : VersionedMetadataMixin)
        (v : version_arg) :
  should_use_locations {| _output_version := None |} = Ok false
  /\ (set_output_version self v = Ok self' ->
      should_use_locations self' = supports_location_objects v
      /\ get_version_tuple v = Ok (output_version self')).
Proof.
  split; [reflexivity|].
  unfold set_output_version, should_use_locations, supports_location_objects,
    output_version.
  destruct (get_version_tuple v) as [t|] eqn:E; [|discriminate].
  cbn [bind get_version_tuple]. intros [= <-]. cbn. auto.
Qed.

Lemma output_version_decides_layout_witness :
  set_output_version {| _output_version := None |} (OfStr "2.0")
  = Ok {| _output_version := Some VERSION_2_0 |}
  /\ should_use_locations {| _output_version := Some VERSION_2_0 |}
     = supports_location_objects (OfStr "2.0").
Proof.
  split; [reflexivity|].
  exact (proj1 (proj2 (output_version_decides_layout
                         {| _output_version := None |}
                         {| _output_version := Some VERSION_2_0 |}
                         (OfStr "2.0")) eq_refl)).
Defined.

(* ------------------------------------------------------------------ *)
(** * What the two patterns accept *)

Lemma strip_prefix_inv (p s rest : string) :
  Re.strip_prefix p s = Some rest -> s = (p ++ rest)%string.
Proof.
  revert s. induction p as [|a p IH]; intros s H; cbn in H.
  - injection H as ->. reflexivity.
  - destruct s as [|b s]; [discriminate|].
    destruct (Ascii.eqb_spec a b) as [->|]; [|discriminate].
    cbn. f_equal. exact (IH s H).
Qed.

(** A repetition that matched took a run of the class and left the rest to
    the continuation. *)
Lemma star_inv (cls : ascii -> bool) (s : string)
      (k : string -> option Re.groups) (m : Re.groups) :
  Re.star cls s k = Some m ->
  exists a b, s = (a ++ b)%string
              /\ forallb cls (list_ascii_of_string a) = true
              /\ k b = Some m.
Proof.
  induction s as [|c s IH]; cbn [Re.star]; intros H.
  - exists EmptyString, EmptyString. auto.
  - destruct (cls c) eqn:Hc.
    + destruct (Re.star cls s k) as [m'|] eqn:Hs.
      * injection H as <-. destruct (IH eq_refl) as (a & b & -> & Ha & Hb).
        exists (String c a), b. cbn. rewrite Hc, Ha. auto.
      * exists EmptyString, (String c s). auto.
    + exists EmptyString, (String c s). auto.
Qed.

Lemma plus_inv (cls : ascii -> bool) (s : string)
      (k : string -> option Re.groups) (m : Re.groups) :
  Re.plus cls s k = Some m ->
  exists a b, s = (a ++ b)%string
              /\ a <> EmptyString
              /\ forallb cls (list_ascii_of_string a) = true
              /\ k b = Some m.
Proof.
  destruct s as [|c s]; cbn [Re.plus]; [discriminate|].
  destruct (cls c) eqn:Hc; [|discriminate]. intros H.
  apply star_inv in H as (a & b & -> & Ha & Hb).
  exists (String c a), b. cbn. rewrite Hc, Ha. repeat split; auto. discriminate.
Qed.

Lemma count_inv (n : nat) (cls : ascii -> bool) (s rest : string) :
  Re.count n cls s = Some rest ->
  exists a, s = (a ++ rest)%string
            /\ String.length a = n
            /\ forallb cls (list_ascii_of_string a) = true.
Proof.
  revert s. induction n as [|n IH]; intros s H; cbn in H.
  - injection H as <-. exists EmptyString. auto.
  - destruct s as [|c s]; [discriminate|].
    destruct (cls c) eqn:Hc; [|discriminate].
    destruct (IH s H) as (a & -> & Hl & Ha).
    exists (String c a). cbn. rewrite Hc, Ha, Hl. auto.
Qed.

Lemma at_end_inv (s : string) : Re.at_end s = true -> Spec.line_end s.
Proof.
  unfold Spec.line_end.
  destruct s as [|c [|d s]]; cbn; intros H; try discriminate; auto.
  apply Ascii.eqb_eq in H. subst. auto.
Qed.

Lemma digest_tail_inv (rest : string) (g m : Re.groups) :
  Re.run Spec.digest_tail rest g (fun _ g' => Some g') = Some m ->
  exists digest nl,
    rest = (":" ++ digest ++ nl)%string
    /\ digest <> EmptyString
    /\ Spec.lowercase_hex digest = true
    /\ Spec.line_end nl
    /\ m = ("digest", digest) :: g.
Proof.
  unfold Spec.digest_tail. cbn [Re.run]. intros H.
  destruct (Re.strip_prefix ":" rest) as [r|] eqn:E; [|discriminate].
  apply strip_prefix_inv in E as ->.
  apply plus_inv in H as (a & b & -> & Hn & Ha & Hb).
  destruct (Re.at_end b) eqn:Eb; [|discriminate].
  injection Hb as <-. rewrite consumed_app.
  exists a, b. repeat split; auto. apply at_end_inv. exact Eb.
Qed.

Lemma algorithm_branch (algorithm checksum : string) (m : Re.groups) :
  match Re.strip_prefix algorithm checksum with
  | Some rest =>
      Re.run Spec.digest_tail rest [("algorithm", Re.consumed checksum rest)]
        (fun _ g => Some g)
  | None => None
  end = Some m ->
  exists digest nl,
    checksum = (algorithm ++ ":" ++ digest ++ nl)%string
    /\ digest <> EmptyString
    /\ Spec.lowercase_hex digest = true
    /\ Spec.line_end nl
    /\ m = [("digest", digest); ("algorithm", algorithm)].
Proof.
  destruct (Re.strip_prefix algorithm checksum) as [rest|] eqn:E; [|discriminate].
  apply strip_prefix_inv in E as ->. rewrite consumed_app. intros H.
  apply digest_tail_inv in H as (digest & nl & -> & Hn & Hd & Hl & ->).
  exists digest, nl. auto.
Qed.

(** What [CHECKSUM_RE] matches. *)
Lemma checksum_match_inv (checksum : string) (m : Re.groups) :
  Re.rmatch CHECKSUM_RE checksum = Some m ->
  exists algorithm digest nl,
    In algorithm Spec.algorithms
    /\ digest <> EmptyString
    /\ Spec.lowercase_hex digest = true
    /\ Spec.line_end nl
    /\ checksum = (algorithm ++ ":" ++ digest ++ nl)%string
    /\ m = [("digest", digest); ("algorithm", algorithm)].
Proof.
  unfold Re.rmatch, CHECKSUM_RE. fold Spec.digest_tail.
  cbn [Re.run]. intros H.
  assert (A : exists algorithm,
             In algorithm Spec.algorithms
             /\ match Re.strip_prefix algorithm checksum with
                | Some rest =>
                    Re.run Spec.digest_tail rest
                      [("algorithm", Re.consumed checksum rest)]
                      (fun _ g => Some g)
                | None => None
                end = Some m).
  { unfold Spec.algorithms.
    repeat match type of H with
           | match ?x with Some m => Some m | None => _ end = _ =>
               let E := fresh "E" in
               destruct x as [?m|] eqn:E;
               [injection H as <-; eexists; split; [|exact E]; cbn [In]; tauto|]
           end.
    eexists. split; [|exact H]. cbn [In]. tauto. }
  destruct A as (algorithm & Hin & Hm).
  apply algorithm_branch in Hm as (digest & nl & -> & Hn & Hd & Hl & ->).
  exists algorithm, digest, nl. auto 10.
Qed.

Lemma digest_end_inv (s : string) (g m : Re.groups) :
  Re.run Spec.digest_end s g (fun _ g' => Some g') = Some m ->
  exists hex nl,
    s = ("@sha256:" ++ hex ++ nl)%string
    /\ String.length hex = 64%nat
    /\ Spec.lowercase_hex hex = true
    /\ Spec.line_end nl
    /\ m = ("digest", ("sha256:" ++ hex)%string) :: g.
Proof.
  unfold Spec.digest_end. cbn [Re.run]. intros H.
  destruct (Re.strip_prefix "@" s) as [r|] eqn:E; [|discriminate].
  apply strip_prefix_inv in E as ->.
  destruct (Re.strip_prefix "sha256:" r) as [r'|] eqn:E; [|discriminate].
  apply strip_prefix_inv in E as ->.
  destruct (Re.count 64 Re.hex_lower r') as [nl|] eqn:E; [|discriminate].
  apply count_inv in E as (hex & -> & Hl & Hh).
  destruct (Re.at_end nl) eqn:En; [|discriminate].
  injection H as <-.
  exists hex, nl. split; [reflexivity|]. split; [exact Hl|]. split; [exact Hh|].
  split; [apply at_end_inv; exact En|].
  pose proof (consumed_app ("sha256:" ++ hex) nl) as C.
  cbn [append] in C. rewrite C. reflexivity.
Qed.

(** What [OCI_REFERENCE_RE] matches, and what its groups hold. *)
Lemma oci_match_inv (u : string) (m : Re.groups) :
  Re.rmatch OCI_REFERENCE_RE u = Some m ->
  exists registry repository tag hex nl,
    u = ("oci://" ++ registry ++ "/" ++ repository ++ Spec.tag_part tag
         ++ "@sha256:" ++ hex ++ nl)%string
    /\ registry <> EmptyString
    /\ Spec.free_of "/" registry = true
    /\ repository <> EmptyString
    /\ Spec.free_of ":" repository = true
    /\ Spec.free_of "@" repository = true
    /\ (forall t, tag = Some t ->
                  t <> EmptyString /\ Spec.free_of "@" t = true)
    /\ String.length hex = 64%nat
    /\ Spec.lowercase_hex hex = true
    /\ Spec.line_end nl
    /\ Re.group "registry" m = Some registry
    /\ Re.group "repository" m = Some repository
    /\ Re.group "tag" m = tag
    /\ Re.group "digest" m = Some ("sha256:" ++ hex)%string.
Proof.
  assert (F1 : forall ch s,
             forallb (Re.other_than [ch]) (list_ascii_of_string s) = true ->
             Spec.free_of ch s = true).
  { intros ch s. unfold Spec.free_of, Re.other_than.
    induction (list_ascii_of_string s) as [|c l IH]; [reflexivity|].
    cbn [forallb existsb]. rewrite orb_false_r, negb_orb.
    intros H. apply andb_prop in H as (Hc & Hl).
    rewrite (Ascii.eqb_sym ch c), Hc. exact (IH Hl). }
  assert (F2 : forall a b s,
             forallb (Re.other_than [a; b]) (list_ascii_of_string s) = true ->
             Spec.free_of a s = true /\ Spec.free_of b s = true).
  { intros a b s. unfold Spec.free_of, Re.other_than.
    induction (list_ascii_of_string s) as [|c l IH]; [auto|].
    cbn [forallb existsb]. rewrite orb_false_r, !negb_orb.
    intros H. apply andb_prop in H as (Hc & Hl).
    apply andb_prop in Hc as (Hca & Hcb).
    destruct (IH Hl) as (Ia & Ib).
    rewrite (Ascii.eqb_sym a c), (Ascii.eqb_sym b c), Hca, Hcb. auto. }
  unfold Re.rmatch, OCI_REFERENCE_RE. fold Spec.digest_end.
  cbn [Re.run]. intros H.
  destruct (Re.strip_prefix "oci://" u) as [s1|] eqn:E; [|discriminate].
  apply strip_prefix_inv in E as ->.
  apply plus_inv in H as (registry & s2 & -> & Hrn & Hr & H).
  rewrite consumed_app in H.
  destruct (Re.strip_prefix "/" s2) as [s3|] eqn:E; [|discriminate].
  apply strip_prefix_inv in E as ->.
  apply plus_inv in H as (repository & s4 & -> & Hpn & Hp & H).
  rewrite consumed_app in H.
  apply F1 in Hr. apply F2 in Hp as (Hp1 & Hp2).
  match type of H with
  | match ?x with Some _ => _ | None => _ end = _ =>
      destruct x as [m'|] eqn:T
  end.
  - injection H as <-.
    destruct (Re.strip_prefix ":" s4) as [s5|] eqn:E; [|discriminate].
    apply strip_prefix_inv in E as ->.
    apply plus_inv in T as (t & s6 & -> & Htn & Ht & T).
    rewrite consumed_app in T. apply F1 in Ht.
    apply digest_end_inv in T as (hex & nl & -> & Hl & Hh & Hnl & ->).
    exists registry, repository, (Some t), hex, nl.
    cbn [Re.group String.eqb Ascii.eqb Bool.eqb Spec.tag_part].
    repeat match goal with |- _ /\ _ => split end; auto.
    intros ? [= <-]. auto.
  - apply digest_end_inv in H as (hex & nl & -> & Hl & Hh & Hnl & ->).
    exists registry, repository, None, hex, nl.
    cbn [Re.group String.eqb Ascii.eqb Bool.eqb Spec.tag_part append].
    repeat match goal with |- _ /\ _ => split end; auto.
    discriminate.
Qed.

Lemma prefix_append (p r : string) : String.prefix p (p ++ r) = true.
Proof.
  induction p as [|a p IH]; cbn.
  - destruct r; reflexivity.
  - destruct (ascii_dec a a); [exact IH | congruence].
Qed.

Lemma str_contains_prefix (sub s : string) :
  String.prefix sub s = true -> str_contains sub s = true.
Proof. intros H. destruct s; cbn [str_contains]; rewrite H; reflexivity. Qed.

Lemma str_contains_append (sub a s : string) :
  str_contains sub s = true -> str_contains sub (a ++ s) = true.
Proof.
  intros H. induction a as [|c a IH]; [exact H|].
  cbn [append str_contains]. rewrite IH. apply orb_true_r.
Qed.

(** X8.  A string that [parse_checksum] accepts is an algorithm name of
    the four, a colon and a non-empty digest of lowercase hexadecimal
    digits, followed by nothing or by one newline (which [$] lets pass);
    the two parts are what is returned. *)
Theorem parse_checksum_sound (checksum : string)
        (r : option string * option string) :
  parse_checksum checksum = Ok r ->
  exists algorithm digest nl,
    r = (Some algorithm, Some digest)
    /\ In algorithm Spec.algorithms
    /\ digest <> EmptyString
    /\ Spec.lowercase_hex digest = true
    /\ Spec.line_end nl
    /\ checksum = (algorithm ++ ":" ++ digest ++ nl)%string.
Proof.
  unfold parse_checksum.
  destruct (Re.rmatch CHECKSUM_RE checksum) as [m|] eqn:E; [|discriminate].
  apply checksum_match_inv in E
    as (algorithm & digest & nl & Hin & Hn & Hd & Hl & -> & ->).
  intros [= <-]. exists algorithm, digest, nl.
  cbn [Re.group String.eqb Ascii.eqb Bool.eqb]. auto 10.
Qed.

Lemma parse_checksum_sound_witness :
  parse_checksum ("sha256:abcd" ++ String "010" EmptyString)
  = Ok (Some "sha256", Some "abcd")
  /\ exists algorithm digest nl,
       (Some "sha256", Some "abcd") = (Some algorithm, Some digest)
       /\ In algorithm Spec.algorithms
       /\ digest <> EmptyString
       /\ Spec.lowercase_hex digest = true
       /\ Spec.line_end nl
       /\ ("sha256:abcd" ++ String "010" EmptyString
           = algorithm ++ ":" ++ digest ++ nl)%string.
Proof.
  split; [reflexivity|].
  exact (parse_checksum_sound ("sha256:abcd" ++ String "010" EmptyString)
           (Some "sha256", Some "abcd") eq_refl).
Defined.

(** X9.  On a [Location] that passes [validate], [checksum_algorithm] and
    [checksum_value] raise nothing: they return one of the four algorithm
    names and a non-empty lowercase hexadecimal digest, and the checksum is
    the two joined by a colon, with at most a newline after them. *)
Theorem checksum_properties_of_valid (L : Location.t) :
  Location.validate L = Ok tt ->
  exists algorithm digest nl,
    Location.checksum_algorithm L = Ok (Some algorithm)
    /\ Location.checksum_value L = Ok (Some digest)
    /\ In algorithm Spec.algorithms
    /\ digest <> EmptyString
    /\ Spec.lowercase_hex digest = true
    /\ Spec.line_end nl
    /\ Location.checksum L = Some (algorithm ++ ":" ++ digest ++ nl)%string.
Proof.
  intros H.
  pose proof (validate_ok _ H (Location._validate_checksum L)
                ltac:(among_checks)) as Hc.
  unfold Location._validate_checksum in Hc.
  destruct (Location.checksum L) as [c|] eqn:Ec; [|discriminate].
  cbn [_assert_type bind] in Hc.
  destruct (_assert_not_blank c) as [[]|]; [|discriminate]. cbn [bind] in Hc.
  destruct (Re.rmatch CHECKSUM_RE c) as [m|] eqn:Em; [|discriminate].
  pose proof (checksum_match_inv c m Em)
    as (algorithm & digest & nl & Hin & Hn & Hd & Hl & E & Hm).
  exists algorithm, digest, nl.
  unfold Location.checksum_algorithm, Location.checksum_value, parse_checksum.
  rewrite Ec, Em. subst m.
  assert (T : truthy_str (Some c) = true).
  { subst c. destruct Hin as [<-|[<-|[<-|[<-|[]]]]]; reflexivity. }
  rewrite T. cbn [bind fst snd Re.group String.eqb Ascii.eqb Bool.eqb].
  subst c. auto 10.
Qed.

Lemma checksum_properties_of_valid_witness :
  Location.validate Sample.boot_files = Ok tt
  /\ exists algorithm digest nl,
       Location.checksum_algorithm Sample.boot_files = Ok (Some algorithm)
       /\ Location.checksum_value Sample.boot_files = Ok (Some digest)
       /\ In algorithm Spec.algorithms
       /\ digest <> EmptyString
       /\ Spec.lowercase_hex digest = true
       /\ Spec.line_end nl
       /\ Location.checksum Sample.boot_files
          = Some (algorithm ++ ":" ++ digest ++ nl)%string.
Proof.
  assert (V : Location.validate Sample.boot_files = Ok tt)
    by (vm_compute; reflexivity).
  split; [exact V|]. exact (checksum_properties_of_valid Sample.boot_files V).
Defined.

(** X10.  When [oci_digest] returns a digest, the url is [oci://], a
    registry without a slash, a slash, a repository without colon or at
    sign, an optional colon and tag, [@sha256:] and 64 lowercase
    hexadecimal digits, with at most a newline after them; the four OCI
    properties return these parts. *)
Theorem oci_properties_sound (L : Location.t) (d : string) :
  Location.oci_digest L = Some d ->
  exists registry repository tag hex nl,
    Location.url L
    = Some ("oci://" ++ registry ++ "/" ++ repository ++ Spec.tag_part tag
            ++ "@sha256:" ++ hex ++ nl)%string
    /\ d = ("sha256:" ++ hex)%string
    /\ Location.oci_registry L = Some registry
    /\ Location.oci_repository L = Some repository
    /\ Location.oci_tag L = tag
    /\ registry <> EmptyString
    /\ Spec.free_of "/" registry = true
    /\ repository <> EmptyString
    /\ Spec.free_of ":" repository = true
    /\ Spec.free_of "@" repository = true
    /\ (forall t, tag = Some t ->
                  t <> EmptyString /\ Spec.free_of "@" t = true)
    /\ String.length hex = 64%nat
    /\ Spec.lowercase_hex hex = true
    /\ Spec.line_end nl.
Proof.
  unfold Location.oci_digest, Location.oci_registry, Location.oci_repository,
    Location.oci_tag, Location.oci_group.
  destruct (Location.is_oci L); [|discriminate].
  destruct (Location.url L) as [u|]; [|discriminate].
  destruct (Re.rmatch OCI_REFERENCE_RE u) as [m|] eqn:Em; [|discriminate].
  intros Hd.
  destruct (oci_match_inv u m Em)
    as (registry & repository & tag & hex & nl & -> & H1 & H2 & H3 & H4 & H5
        & H6 & H7 & H8 & H9 & G1 & G2 & G3 & G4).
  exists registry, repository, tag, hex, nl.
  rewrite G4 in Hd. injection Hd as <-.
  repeat match goal with |- _ /\ _ => split end; auto.
Qed.

Lemma oci_properties_sound_witness :
  Location.oci_digest Sample.oci_location = Some (Sample.digest "a")
  /\ exists registry repository tag hex nl,
       Location.url Sample.oci_location
       = Some ("oci://" ++ registry ++ "/" ++ repository ++ Spec.tag_part tag
               ++ "@sha256:" ++ hex ++ nl)%string
       /\ Sample.digest "a" = ("sha256:" ++ hex)%string
       /\ Location.oci_registry Sample.oci_location = Some registry
       /\ Location.oci_repository Sample.oci_location = Some repository
       /\ Location.oci_tag Sample.oci_location = tag
       /\ registry <> EmptyString
       /\ Spec.free_of "/" registry = true
       /\ repository <> EmptyString
       /\ Spec.free_of ":" repository = true
       /\ Spec.free_of "@" repository = true
       /\ (forall t, tag = Some t ->
                     t <> EmptyString /\ Spec.free_of "@" t = true)
       /\ String.length hex = 64%nat
       /\ Spec.lowercase_hex hex = true
       /\ Spec.line_end nl.
Proof.
  assert (D : Location.oci_digest Sample.oci_location = Some (Sample.digest "a"))
    by (vm_compute; reflexivity).
  split; [exact D|]. exact (oci_properties_sound Sample.oci_location _ D).
Defined.

(** X11.  A url that [OCI_REFERENCE_RE] matches passes [_validate_url]:
    whenever the OCI properties of a [Location] are defined, the check of
    the digest marker succeeds. *)
Theorem matched_oci_url_is_valid (L : Location.t) (d : string) :
  Location.oci_digest L = Some d -> Location._validate_url L = Ok tt.
Proof.
  unfold Location.oci_digest, Location.oci_group, Location._validate_url.
  destruct (Location.is_oci L) eqn:Ho; [|discriminate].
  destruct (Location.url L) as [u|]; [|discriminate].
  destruct (Re.rmatch OCI_REFERENCE_RE u) as [m|] eqn:Em; [|discriminate].
  intros _.
  destruct (oci_match_inv u m Em)
    as (registry & repository & tag & hex & nl & -> & _).
  cbn [_assert_type bind].
  assert (C : str_contains "@sha256:"
                ("oci://" ++ registry ++ "/" ++ repository ++ Spec.tag_part tag
                 ++ "@sha256:" ++ hex ++ nl) = true).
  { do 5 apply str_contains_append.
    apply str_contains_prefix. apply (prefix_append "@sha256:"). }
  rewrite C. reflexivity.
Qed.

Lemma matched_oci_url_is_valid_witness :
  Location.oci_digest Sample.oci_location = Some (Sample.digest "a")
  /\ Location._validate_url Sample.oci_location = Ok tt.
Proof.
  assert (D : Location.oci_digest Sample.oci_location = Some (Sample.digest "a"))
    by (vm_compute; reflexivity).
  split; [exact D|]. exact (matched_oci_url_is_valid Sample.oci_location _ D).
Defined.

(* ------------------------------------------------------------------ *)
(** * When validation passes *)

Lemma checked_path_iff (v : option string) :
  (p <- _assert_type v ;;
   _ <- _assert_not_blank p ;;
   if String.prefix "/" p then Raise ValueError else Ok tt) = Ok tt
  <-> exists p, v = Some p /\ p <> EmptyString /\ String.prefix "/" p = false.
Proof.
  split.
  - destruct v as [[|c p]|]; cbn [_assert_type _assert_not_blank bind];
      try discriminate.
    destruct (String.prefix "/" (String c p)) eqn:E; [discriminate|].
    intros _. exists (String c p). repeat split; [discriminate | exact E].
  - intros (p & -> & Hn & Hp). destruct p as [|c p]; [congruence|].
    cbn [_assert_type _assert_not_blank bind]. rewrite Hp. reflexivity.
Qed.

Lemma checked_size_iff (v : option Z) :
  (n <- _assert_type v ;; if n <? 0 then Raise ValueError else Ok tt) = Ok tt
  <-> exists n, v = Some n /\ 0 <= n.
Proof.
  split.
  - destruct v as [n|]; cbn [_assert_type bind]; [|discriminate].
    destruct (Z.ltb_spec n 0); [discriminate|]. intros _. exists n. auto.
  - intros (n & -> & Hn). cbn [_assert_type bind].
    destruct (Z.ltb_spec n 0); [lia | reflexivity].
Qed.

Lemma checked_checksum_iff (v : option string) :
  (c <- _assert_type v ;;
   _ <- _assert_not_blank c ;;
   match Re.rmatch CHECKSUM_RE c with
   | Some _ => Ok tt
   | None => Raise ValueError
   end) = Ok tt
  <-> exists c m, v = Some c /\ Re.rmatch CHECKSUM_RE c = Some m.
Proof.
  split.
  - destruct v as [[|a c]|]; cbn [_assert_type _assert_not_blank bind];
      try discriminate.
    destruct (Re.rmatch CHECKSUM_RE (String a c)) as [m|] eqn:E; [|discriminate].
    intros _. exists (String a c), m. auto.
  - intros (c & m & -> & Hm). destruct c as [|a c]; [discriminate Hm|].
    cbn [_assert_type _assert_not_blank bind]. rewrite Hm. reflexivity.
Qed.

Lemma validate_entries_iff (es : list FileEntry.t) :
  Location.validate_entries es = Ok tt
  <-> Forall (fun e => FileEntry.validate e = Ok tt) es.
Proof.
  induction es as [|e es IH]; cbn [Location.validate_entries].
  - split; [constructor | reflexivity].
  - split.
    + destruct (FileEntry.validate e) as [[]|] eqn:He; [|discriminate].
      cbn [bind]. intros H. constructor; [exact He | apply IH, H].
    + intros H. inversion H as [|? ? He Hes]; subst.
      rewrite He. cbn [bind]. apply IH, Hes.
Qed.

Lemma is_oci_of_url (L : Location.t) (u : string) :
  Location.url L = Some u -> u <> EmptyString ->
  Location.is_oci L = String.prefix "oci://" u.
Proof.
  intros E Hn. unfold Location.is_oci, Location.url_startswith. rewrite E.
  destruct u as [|c u]; [congruence|]. cbn [truthy_str existsb].
  apply orb_false_r.
Qed.

Lemma validate_url_iff (L : Location.t) :
  Location._validate_url L = Ok tt
  <-> exists u, Location.url L = Some u
                /\ u <> EmptyString
                /\ String.prefix "/" u = false
                /\ (String.prefix "oci://" u = true ->
                    str_contains "@sha256:" u = true).
Proof.
  unfold Location._validate_url. split.
  - destruct (Location.url L) as [[|c u]|] eqn:E;
      cbn [_assert_type _assert_not_blank bind]; try discriminate.
    rewrite (is_oci_of_url L _ E ltac:(discriminate)).
    destruct (String.prefix "/" (String c u)) eqn:Ea; [discriminate|].
    destruct (String.prefix "oci://" (String c u)) eqn:Eo;
      destruct (str_contains "@sha256:" (String c u)) eqn:Em;
      cbn [andb negb]; try discriminate; intros _;
      exists (String c u); repeat split; auto; congruence.
  - intros (u & E & Hn & Ha & Ho). rewrite (is_oci_of_url L u E Hn), E.
    destruct u as [|c u]; [congruence|].
    cbn [_assert_type _assert_not_blank bind]. rewrite Ha.
    destruct (String.prefix "oci://" (String c u)); [|reflexivity].
    rewrite (Ho eq_refl). reflexivity.
Qed.

Lemma validate_contents_iff (L : Location.t) :
  Location._validate_contents L = Ok tt
  <-> (Location.contents L <> [] -> Location.is_oci L = true)
      /\ Forall (fun e => FileEntry.validate e = Ok tt) (Location.contents L).
Proof.
  unfold Location._validate_contents, Location.has_contents.
  rewrite <- validate_entries_iff.
  destruct (Location.contents L) as [|e es]; cbn [andb].
  - split; [intros H; split; [congruence | exact H] | intros (_ & H); exact H].
  - destruct (Location.is_oci L); cbn [negb].
    + split; [intros H; split; [reflexivity | exact H] | intros (_ & H); exact H].
    + split; [discriminate|]. intros (H & _).
      discriminate (H ltac:(discriminate)).
Qed.

(** X12.  [validate] passes on a [Location] exactly when the url is a
    non-empty string that is not absolute and, when it starts with
    [oci://], contains [@sha256:]; the size is an int that is not negative;
    the checksum matches [CHECKSUM_RE]; the local path is a non-empty
    string that is not absolute; the contents are empty unless the url is
    an OCI reference; and every entry of the contents passes its own
    [validate]. *)
Theorem location_validate_iff (L : Location.t) :
  Location.validate L = Ok tt
  <-> (exists u, Location.url L = Some u
                 /\ u <> EmptyString
                 /\ String.prefix "/" u = false
                 /\ (String.prefix "oci://" u = true ->
                     str_contains "@sha256:" u = true))
      /\ (exists n, Location.size L = Some n /\ 0 <= n)
      /\ (exists c m, Location.checksum L = Some c
                      /\ Re.rmatch CHECKSUM_RE c = Some m)
      /\ (exists p, Location.local_path L = Some p
                    /\ p <> EmptyString
                    /\ String.prefix "/" p = false)
      /\ (Location.contents L <> [] -> Location.is_oci L = true)
      /\ Forall (fun e => FileEntry.validate e = Ok tt) (Location.contents L).
Proof.
  rewrite <- validate_url_iff, <- (checked_size_iff (Location.size L)),
    <- (checked_checksum_iff (Location.checksum L)),
    <- (checked_path_iff (Location.local_path L)).
  rewrite <- validate_contents_iff.
  unfold Location.validate. rewrite validate_ok_iff. split.
  - intros V.
    split; [apply V; among_checks|]. split; [apply V; among_checks|].
    split; [apply V; among_checks|]. split; apply V; among_checks.
  - intros (Hu & Hs & Hc & Hp & Hn) c
           [<-|[<-|[<-|[<-|[<-|[]]]]]]; assumption.
Qed.

(** X13.  [validate] passes on a [FileEntry] exactly when the file is a
    non-empty string that is not absolute, the size is an int that is not
    negative, the checksum matches [CHECKSUM_RE] and the layer digest
    starts with [sha256:]. *)
Theorem file_entry_validate_iff (e : FileEntry.t) :
  FileEntry.validate e = Ok tt
  <-> (exists f, FileEntry.file e = Some f
                 /\ f <> EmptyString
                 /\ String.prefix "/" f = false)
      /\ (exists n, FileEntry.size e = Some n /\ 0 <= n)
      /\ (exists c m, FileEntry.checksum e = Some c
                      /\ Re.rmatch CHECKSUM_RE c = Some m)
      /\ (exists d, FileEntry.layer_digest e = Some d
                    /\ String.prefix "sha256:" d = true).
Proof.
  rewrite <- (checked_path_iff (FileEntry.file e)),
    <- (checked_size_iff (FileEntry.size e)),
    <- (checked_checksum_iff (FileEntry.checksum e)).
  assert (D : FileEntry._validate_layer_digest e = Ok tt
              <-> exists d, FileEntry.layer_digest e = Some d
                            /\ String.prefix "sha256:" d = true).
  { unfold FileEntry._validate_layer_digest. split.
    - destruct (FileEntry.layer_digest e) as [[|c d]|];
        cbn [_assert_type _assert_not_blank bind]; try discriminate.
      destruct (String.prefix "sha256:" (String c d)) eqn:E; [|discriminate].
      intros _. exists (String c d). auto.
    - intros (d & -> & Hd). destruct d as [|c d]; [discriminate Hd|].
      cbn [_assert_type _assert_not_blank bind]. rewrite Hd. reflexivity. }
  rewrite <- D. unfold FileEntry.validate. rewrite validate_ok_iff. split.
  - intros V.
    split; [apply V; among_checks|]. split; [apply V; among_checks|].
    split; apply V; among_checks.
  - intros (Hf & Hs & Hc & Hd) c [<-|[<-|[<-|[<-|[]]]]]; assumption.
Qed.

Lemma location_validate_iff_witness :
  Location.validate Sample.boot_files = Ok tt
  /\ (Location.contents Sample.boot_files <> [] ->
      Location.is_oci Sample.boot_files = true)
  /\ Forall (fun e => FileEntry.validate e = Ok tt)
       (Location.contents Sample.boot_files).
Proof.
  assert (V : Location.validate Sample.boot_files = Ok tt)
    by (vm_compute; reflexivity).
  split; [exact V|].
  exact (proj2 (proj2 (proj2 (proj2
           (proj1 (location_validate_iff Sample.boot_files) V))))).
Defined.

Lemma file_entry_validate_iff_witness :
  FileEntry.validate Sample.boot_entry = Ok tt
  /\ exists d, FileEntry.layer_digest Sample.boot_entry = Some d
               /\ String.prefix "sha256:" d = true.
Proof.
  assert (V : FileEntry.validate Sample.boot_entry = Ok tt)
    by (vm_compute; reflexivity).
  split; [exact V|].
  exact (proj2 (proj2 (proj2 (proj1 (file_entry_validate_iff Sample.boot_entry) V)))).
Defined.

(* ------------------------------------------------------------------ *)
(** * What serialization produces and what deserialization accepts *)

Lemma getitem_ok (data : json) (key : string) (v : json) :
  getitem data key = Ok v -> exists d, data = JDict d /\ dict_get key d = Some v.
Proof.
  destruct data as [| | | | | |d]; cbn [getitem]; try discriminate.
  destruct (dict_get key d) as [x|] eqn:E; [|discriminate].
  intros [= <-]. eauto.
Qed.

(** X14.  [Location.serialize] returns a dictionary only for a [Location]
    that passes [validate], and for every such one.  The dictionary has the
    keys [url], [size], [checksum] and [local_path], so that
    [_is_location_object] recognizes it, and it has the key [contents]
    exactly when the contents are not empty. *)
Theorem serialize_only_valid (L : Location.t) :
  (forall d,
      Location.serialize L = Ok d ->
      Location.validate L = Ok tt
      /\ Version._is_location_object d = true
      /\ contains "contents" d = Ok (Location.has_contents L))
  /\ (Location.validate L = Ok tt -> exists d, Location.serialize L = Ok d).
Proof.
  split.
  - intros d. unfold Location.serialize.
    destruct (Location.validate L) as [[]|]; cbn [bind]; [|discriminate].
    destruct (Location.has_contents L).
    + destruct (map_m FileEntry.serialize (Location.contents L)); cbn [bind];
        [|discriminate].
      intros [= <-]. repeat split.
    + intros [= <-]. repeat split.
  - intros H. destruct (serialize_from_dict L H) as (d & Hs & _). eauto.
Qed.

Lemma serialize_only_valid_witness :
  Location.validate Sample.boot_files = Ok tt
  /\ exists d, Location.serialize Sample.boot_files = Ok d.
Proof.
  assert (V : Location.validate Sample.boot_files = Ok tt)
    by (vm_compute; reflexivity).
  split; [exact V|]. exact (proj2 (serialize_only_valid Sample.boot_files) V).
Defined.

(** X15.  A [Location] that [from_dict] returns passes [validate]; its
    url, checksum and local path are the strings under these keys of the
    dictionary, its size is [int] of the value under [size]; and it
    serializes to a dictionary from which [from_dict] returns it again. *)
Theorem from_dict_yields_valid (data : json) (L : Location.t) :
  Location.from_dict data = Ok L ->
  Location.validate L = Ok tt
  /\ (exists d u c p s n,
         data = JDict d
         /\ dict_get "url" d = Some (JStr u) /\ Location.url L = Some u
         /\ dict_get "checksum" d = Some (JStr c) /\ Location.checksum L = Some c
         /\ dict_get "local_path" d = Some (JStr p)
         /\ Location.local_path L = Some p
         /\ dict_get "size" d = Some s /\ int s = Ok n
         /\ Location.size L = Some n)
  /\ (exists d', Location.serialize L = Ok d' /\ Location.from_dict d' = Ok L).
Proof.
  unfold Location.from_dict. intros H.
  apply bind_ok in H as (u & Hu & H). apply bind_ok in H as (s & Hs & H).
  apply bind_ok in H as (n & Hn & H). apply bind_ok in H as (c & Hc & H).
  apply bind_ok in H as (p & Hp & H). apply bind_ok in H as (listed & _ & H).
  apply bind_ok in H as (entries & _ & H).
  apply bind_ok in H as ([] & Hv & H).
  injection H as <-.
  destruct (untyped_location_strs _ Hv) as (u0 & c0 & p0 & E).
  injection E as -> -> ->. rewrite untyped_location_validate in Hv.
  cbn [str_value].
  split; [exact Hv|]. split; [|exact (serialize_from_dict _ Hv)].
  apply getitem_ok in Hu as (d & -> & Hu).
  apply getitem_ok in Hs as (d1 & [= <-] & Hs).
  apply getitem_ok in Hc as (d2 & [= <-] & Hc).
  apply getitem_ok in Hp as (d3 & [= <-] & Hp).
  exists d, u0, c0, p0, s, n. cbn. auto 12.
Qed.

Lemma from_dict_yields_valid_witness :
  Location.from_dict
    (JDict [("url", JStr "a/b"); ("size", JStr " 1_000 ");
            ("checksum", JStr "md5:0f"); ("local_path", JStr "a/b");
            ("extra", JNull)])
  = Ok (Location.__init__ (Some "a/b") (Some 1000) (Some "md5:0f")
          (Some "a/b") None)
  /\ Location.validate
       (Location.__init__ (Some "a/b") (Some 1000) (Some "md5:0f")
          (Some "a/b") None) = Ok tt.
Proof.
  assert (F : Location.from_dict
                (JDict [("url", JStr "a/b"); ("size", JStr " 1_000 ");
                        ("checksum", JStr "md5:0f"); ("local_path", JStr "a/b");
                        ("extra", JNull)])
              = Ok (Location.__init__ (Some "a/b") (Some 1000) (Some "md5:0f")
                      (Some "a/b") None))
    by (vm_compute; reflexivity).
  split; [exact F|]. exact (proj1 (from_dict_yields_valid _ _ F)).
Defined.

(** X16.  [Location.from_dict] raises [TypeError] on a value that is not a
    dictionary, [KeyError] on a dictionary without the key [url], and some
    exception on a dictionary that lacks one of [url], [size], [checksum],
    [local_path]. *)
Theorem from_dict_missing_key :
  (forall data, is_dict data = false -> Location.from_dict data = Raise TypeError)
  /\ (forall d, dict_get "url" d = None ->
                Location.from_dict (JDict d) = Raise KeyError)
  /\ (forall d key,
        In key ["url"; "size"; "checksum"; "local_path"] ->
        dict_get key d = None ->
        raises (Location.from_dict (JDict d))).
Proof.
  split; [|split].
  - intros [| | | | | |d]; try discriminate; reflexivity.
  - intros d E. unfold Location.from_dict, getitem. rewrite E. reflexivity.
  - intros d key Hk E.
    destruct (Location.from_dict (JDict d)) as [L|e] eqn:F;
      [|exists e; reflexivity].
    exfalso. unfold Location.from_dict in F.
    apply bind_ok in F as (u & Hu & F). apply bind_ok in F as (s & Hs & F).
    apply bind_ok in F as (n & Hn & F). apply bind_ok in F as (c & Hc & F).
    apply bind_ok in F as (p & Hp & _).
    apply getitem_ok in Hu as (d0 & [= <-] & Hu).
    apply getitem_ok in Hs as (d1 & [= <-] & Hs).
    apply getitem_ok in Hc as (d2 & [= <-] & Hc).
    apply getitem_ok in Hp as (d3 & [= <-] & Hp).
    destruct Hk as [<-|[<-|[<-|[<-|[]]]]]; congruence.
Qed.

Lemma from_dict_missing_key_witness :
  is_dict (JList []) = false
  /\ Location.from_dict (JList []) = Raise TypeError
  /\ dict_get "url" [("size", JInt 1)] = None
  /\ Location.from_dict (JDict [("size", JInt 1)]) = Raise KeyError
  /\ raises (Location.from_dict (JDict [("url", JStr "a"); ("size", JInt 1)])).
Proof.
  split; [reflexivity|].
  split; [exact (proj1 from_dict_missing_key (JList []) eq_refl)|].
  split; [reflexivity|].
  split; [exact (proj1 (proj2 from_dict_missing_key) [("size", JInt 1)] eq_refl)|].
  apply (proj2 (proj2 from_dict_missing_key) _ "checksum");
    [cbn [In]; tauto | reflexivity].
Defined.

(** X17.  A [FileEntry] that passes [validate] is serialized, and
    [from_dict] reads the dictionary back to an entry that is [==] to it;
    an entry that [from_dict] returns passes [validate]. *)
Theorem file_entry_round_trip (e : FileEntry.t) :
  (FileEntry.validate e = Ok tt ->
   exists d e',
     FileEntry.serialize e = Ok d
     /\ FileEntry.from_dict d = Ok e'
     /\ FileEntry.__eq__ e' e = true)
  /\ (forall data, FileEntry.from_dict data = Ok e ->
                   FileEntry.validate e = Ok tt).
Proof.
  split.
  - intros H. destruct (entry_round_trip e H) as (d & Hs & Hd).
    exists d, e. split; [exact Hs|]. split; [exact Hd | apply entry_eq_refl].
  - intros data H. exact (entry_from_dict_valid data e H).
Qed.

Lemma file_entry_round_trip_witness :
  FileEntry.validate Sample.boot_entry = Ok tt
  /\ exists d e',
       FileEntry.serialize Sample.boot_entry = Ok d
       /\ FileEntry.from_dict d = Ok e'
       /\ FileEntry.__eq__ e' Sample.boot_entry = true.
Proof.
  assert (V : FileEntry.validate Sample.boot_entry = Ok tt)
    by (vm_compute; reflexivity).
  split; [exact V|]. exact (proj1 (file_entry_round_trip Sample.boot_entry) V).
Defined.

(* ------------------------------------------------------------------ *)
(** * Equality *)

Lemma entry_eq_iff (e1 e2 : FileEntry.t) :
  FileEntry.__eq__ e1 e2 = true <-> e1 = e2.
Proof.
  split; [|intros ->; apply entry_eq_refl].
  unfold FileEntry.__eq__. intros H.
  repeat (apply andb_prop in H as (H & ?)).
  destruct e1, e2. cbn in *. f_equal;
    first [apply eq_attr_str | apply eq_attr_int]; assumption.
Qed.

Lemma list_eq_iff (a b : list FileEntry.t) :
  Location.list_eq a b = true <-> a = b.
Proof.
  split; [|intros ->; apply list_eq_refl].
  revert b. induction a as [|x a IH]; intros [|y b]; cbn [Location.list_eq];
    try discriminate; [reflexivity|].
  intros H. apply andb_prop in H as (Hx & Hr).
  apply entry_eq_iff in Hx. rewrite Hx, (IH b Hr). reflexivity.
Qed.

Lemma location_eq_iff (L1 L2 : Location.t) :
  Location.__eq__ L1 L2 = true <-> L1 = L2.
Proof.
  split; [|intros ->; apply location_eq_refl].
  unfold Location.__eq__. intros H.
  repeat (apply andb_prop in H as (H & ?)).
  destruct L1, L2. cbn in *. f_equal;
    first [apply eq_attr_str | apply eq_attr_int | apply list_eq_iff];
    assumption.
Qed.

(** X18.  [==] on [Location]s is an equivalence relation: it holds
    exactly when the five attributes, the contents element by element,
    are the same. *)
Theorem location_eq_equivalence :
  (forall L, Location.__eq__ L L = true)
  /\ (forall L1 L2, Location.__eq__ L1 L2 = Location.__eq__ L2 L1)
  /\ (forall L1 L2 L3,
        Location.__eq__ L1 L2 = true -> Location.__eq__ L2 L3 = true ->
        Location.__eq__ L1 L3 = true)
  /\ (forall L1 L2, Location.__eq__ L1 L2 = true <-> L1 = L2).
Proof.
  split; [exact location_eq_refl|]. split; [|split; [|exact location_eq_iff]].
  - intros L1 L2.
    destruct (Location.__eq__ L1 L2) eqn:E12, (Location.__eq__ L2 L1) eqn:E21;
      try reflexivity.
    + apply location_eq_iff in E12. subst.
      rewrite location_eq_refl in E21. discriminate.
    + apply location_eq_iff in E21. subst.
      rewrite location_eq_refl in E12. discriminate.
  - intros L1 L2 L3 H12 H23. apply location_eq_iff in H12, H23. subst.
    apply location_eq_refl.
Qed.

Lemma location_eq_equivalence_witness :
  Location.__eq__ Sample.boot_files Sample.boot_files = true
  /\ Sample.boot_files = Sample.boot_files.
Proof.
  assert (E : Location.__eq__ Sample.boot_files Sample.boot_files = true)
    by (vm_compute; reflexivity).
  split; [exact E|].
  exact (proj1 (proj2 (proj2 (proj2 location_eq_equivalence))
                  Sample.boot_files Sample.boot_files) E).
Defined.

(** X19.  [==] on [FileEntry]s is an equivalence relation that holds
    exactly when the four attributes are the same, and two entries that
    are [==] have the same hash, whatever the builtin hash functions. *)
Theorem file_entry_eq_hash `{Hash} :
  (forall e, FileEntry.__eq__ e e = true)
  /\ (forall e1 e2, FileEntry.__eq__ e1 e2 = FileEntry.__eq__ e2 e1)
  /\ (forall e1 e2 e3,
        FileEntry.__eq__ e1 e2 = true -> FileEntry.__eq__ e2 e3 = true ->
        FileEntry.__eq__ e1 e3 = true)
  /\ (forall e1 e2, FileEntry.__eq__ e1 e2 = true <-> e1 = e2)
  /\ (forall e1 e2, FileEntry.__eq__ e1 e2 = true ->
                    FileEntry.__hash__ e1 = FileEntry.__hash__ e2).
Proof.
  split; [exact entry_eq_refl|].
  split; [|split; [|split; [exact entry_eq_iff|]]].
  - intros e1 e2.
    destruct (FileEntry.__eq__ e1 e2) eqn:E12, (FileEntry.__eq__ e2 e1) eqn:E21;
      try reflexivity.
    + apply entry_eq_iff in E12. subst.
      rewrite entry_eq_refl in E21. discriminate.
    + apply entry_eq_iff in E21. subst.
      rewrite entry_eq_refl in E12. discriminate.
  - intros e1 e2 e3 H12 H23. apply entry_eq_iff in H12, H23. subst.
    apply entry_eq_refl.
  - intros e1 e2 E. apply entry_eq_iff in E. subst. reflexivity.
Qed.

Lemma file_entry_eq_hash_witness :
  FileEntry.__eq__ Sample.boot_entry Sample.boot_entry = true
  /\ @FileEntry.__hash__ Sample.length_hash Sample.boot_entry
     = @FileEntry.__hash__ Sample.length_hash Sample.boot_entry.
Proof.
  assert (E : FileEntry.__eq__ Sample.boot_entry Sample.boot_entry = true)
    by (vm_compute; reflexivity).
  split; [exact E|].
  exact (proj2 (proj2 (proj2 (proj2 (@file_entry_eq_hash Sample.length_hash))))
           Sample.boot_entry Sample.boot_entry E).
Defined.

(* ------------------------------------------------------------------ *)
(** * Paths and urls *)

Lemma ends_with_append (ch : ascii) (a b : string) :
  b <> EmptyString -> ends_with ch (a ++ b) = ends_with ch b.
Proof.
  intros Hb. induction a as [|c a IH]; [reflexivity|].
  cbn [append]. destruct (a ++ b)%string as [|d r] eqn:E.
  - destruct a; [cbn in E; congruence | discriminate E].
  - cbn [ends_with] in *. exact IH.
Qed.

Lemma append_nonempty (a b : string) :
  b <> EmptyString -> (a ++ b)%string <> EmptyString.
Proof. destruct a; cbn; [auto | discriminate]. Qed.

(** X20.  For a [Location] with a relative local path [p],
    [get_localized_path(output_dir)] is [output_dir], a slash unless
    [output_dir] is empty or ends with one, and [compose/p]; an absolute
    local path, which [validate] forbids, is returned alone, without the
    output directory; without a local path the call raises [TypeError]. *)
Theorem localized_path (L : Location.t) (output_dir : string) :
  (forall p,
      Location.local_path L = Some p ->
      String.prefix "/" p = false ->
      Location.get_localized_path L output_dir
      = Ok (output_dir
            ++ (match output_dir with
                | EmptyString => EmptyString
                | _ => if ends_with "/" output_dir then EmptyString else "/"
                end)
            ++ "compose/" ++ p)%string)
  /\ (forall p,
        Location.local_path L = Some p ->
        String.prefix "/" p = true ->
        Location.get_localized_path L output_dir = Ok p)
  /\ (Location.local_path L = None ->
      Location.get_localized_path L output_dir = Raise TypeError).
Proof.
  unfold Location.get_localized_path, path_join. split; [|split].
  - intros p -> Hp. cbn [fold_left]. f_equal.
    assert (J : join_step output_dir "compose"
                = (output_dir
                   ++ (match output_dir with
                       | EmptyString => EmptyString
                       | _ => if ends_with "/" output_dir
                              then EmptyString else "/"
                       end) ++ "compose")%string).
    { unfold join_step. cbn [String.prefix].
      destruct (ascii_dec "/" "c"); [discriminate|].
      destruct output_dir as [|c o]; [reflexivity|].
      destruct (ends_with "/" (String c o)); reflexivity. }
    rewrite J. unfold join_step. rewrite Hp.
    rewrite <- (append_assoc output_dir _ "compose").
    set (base := (output_dir ++ _)%string).
    assert (N : "compose" <> EmptyString) by discriminate.
    pose proof (append_nonempty base "compose" N) as Hne.
    pose proof (ends_with_append "/" base "compose" N) as He.
    destruct (base ++ "compose")%string as [|c r] eqn:E; [congruence|].
    rewrite He. cbn [ends_with Ascii.eqb Bool.eqb].
    rewrite <- E. subst base. rewrite !append_assoc. reflexivity.
  - intros p -> Hp. cbn [fold_left]. unfold join_step at 1. rewrite Hp.
    reflexivity.
  - intros ->. reflexivity.
Qed.

Lemma localized_path_witness :
  Location.local_path Sample.boot_files = Some "path/to/file.rpm"
  /\ String.prefix "/" "path/to/file.rpm" = false
  /\ Location.get_localized_path Sample.boot_files "/srv/out"
     = Ok "/srv/out/compose/path/to/file.rpm".
Proof.
  split; [reflexivity|]. split; [reflexivity|].
  exact (proj1 (localized_path Sample.boot_files "/srv/out")
           "path/to/file.rpm" eq_refl eq_refl).
Defined.

Lemma rstrip_snoc (ch : ascii) (s : string) :
  Location.rstrip ch (s ++ String ch EmptyString) = Location.rstrip ch s.
Proof.
  induction s as [|c s IH].
  - cbn. rewrite Ascii.eqb_refl. reflexivity.
  - cbn [append Location.rstrip]. rewrite IH. reflexivity.
Qed.

Lemma rstrip_append (ch : ascii) (a b : string) :
  Location.rstrip ch b <> EmptyString ->
  Location.rstrip ch (a ++ b) = (a ++ Location.rstrip ch b)%string.
Proof.
  intros Hb. induction a as [|c a IH]; [reflexivity|].
  cbn [append Location.rstrip]. rewrite IH.
  pose proof (append_nonempty a _ Hb) as Hn.
  destruct (a ++ Location.rstrip ch b)%string; [congruence | reflexivity].
Qed.

Lemma rstrip_only (ch : ascii) (s : string) :
  Location.rstrip ch s = EmptyString ->
  s = string_of_list_ascii (repeat ch (String.length s)).
Proof.
  induction s as [|c s IH]; [reflexivity|].
  cbn [Location.rstrip]. destruct (Location.rstrip ch s) eqn:R; [|discriminate].
  destruct (Ascii.eqb_spec c ch) as [->|]; [|discriminate].
  intros _. cbn. f_equal. exact (IH eq_refl).
Qed.

(** The [Location] that [with_remote_url] returns is the original with
    another url. *)
Lemma with_remote_url_fields (L : Location.t) (base_url : string) :
  Location.with_remote_url L base_url
  = {| Location.url :=
         Some (Location.rstrip "/" base_url ++ "/"
               ++ Location.format (Location.local_path L))%string;
       Location.size := Location.size L;
       Location.checksum := Location.checksum L;
       Location.local_path := Location.local_path L;
       Location.contents := Location.contents L |}.
Proof.
  unfold Location.with_remote_url, Location.__init__, Location.has_contents.
  destruct (Location.contents L); reflexivity.
Qed.

(** X21.  Slashes at the end of [base_url] make no difference to
    [with_remote_url]. *)
Theorem with_remote_url_trailing_slashes (L : Location.t) (base_url : string)
        (k : nat) :
  Location.with_remote_url L
    (base_url ++ string_of_list_ascii (repeat "/"%char k))
  = Location.with_remote_url L base_url.
Proof.
  rewrite !with_remote_url_fields. do 3 f_equal.
  induction k as [|k IH].
  - cbn. rewrite append_empty_r. reflexivity.
  - replace (repeat "/"%char (S k)) with (repeat "/"%char k ++ ["/"%char])
      by (clear; induction k; cbn; [reflexivity | f_equal; assumption]).
    replace (string_of_list_ascii (repeat "/"%char k ++ ["/"%char]))
      with (string_of_list_ascii (repeat "/"%char k)
            ++ String "/" EmptyString)%string
      by (clear; induction (repeat "/"%char k); cbn;
          [reflexivity | f_equal; assumption]).
    rewrite <- append_assoc, rstrip_snoc. exact IH.
Qed.

Lemma starts_with_scheme (L : Location.t) (p r : string) (ps : list string) :
  Location.url L = Some (p ++ r)%string ->
  p <> EmptyString ->
  In p ps ->
  Location.url_startswith L ps = true.
Proof.
  intros E Hp Hin. unfold Location.url_startswith. rewrite E.
  assert (T : truthy_str (Some (p ++ r)%string) = true)
    by (destruct p; [congruence | reflexivity]).
  rewrite T. apply existsb_exists. exists p. split; [exact Hin|].
  apply prefix_append.
Qed.

(** X22.  Publishing a [Location] that passes [validate] and has no
    contents under an [https://] or [http://] base with a host gives a
    [Location] that passes [validate] and is remote.  With contents the
    result fails [validate], its url being no OCI reference; so does the
    result for a base that is empty or made of slashes, its url being
    absolute. *)
Theorem with_remote_url_validity (L : Location.t) :
  Location.validate L = Ok tt ->
  (forall scheme host,
      In scheme ["https://"; "http://"] ->
      Location.rstrip "/" host <> EmptyString ->
      let L' := Location.with_remote_url L (scheme ++ host) in
      Location.is_remote L' = true
      /\ Location.is_oci L' = false
      /\ (Location.contents L = [] -> Location.validate L' = Ok tt)
      /\ (Location.contents L <> [] -> raises (Location.validate L')))
  /\ (forall base_url,
        Location.rstrip "/" base_url = EmptyString ->
        raises (Location.validate (Location.with_remote_url L base_url))).
Proof.
  intros V.
  destruct (location_attributes_set L V) as (u & n & c & p & E & Hes).
  pose proof (validate_ok _ V) as Vs.
  split.
  - intros scheme host Hs Hh L'. subst L'. rewrite with_remote_url_fields.
    rewrite (rstrip_append "/" scheme host Hh).
    set (L' := {| Location.url := _ |}).
    assert (Hu : exists r, Location.url L' = Some (String "h" r)).
    { subst L'. cbn [Location.url].
      destruct Hs as [<-|[<-|[]]]; cbn [append]; eauto. }
    destruct Hu as (r & Hu).
    assert (Ho : Location.is_oci L' = false).
    { unfold Location.is_oci, Location.url_startswith. rewrite Hu. reflexivity. }
    assert (Hr : Location.is_remote L' = true).
    { unfold Location.is_remote.
      apply starts_with_scheme
        with (p := scheme)
             (r := (Location.rstrip "/" host ++ "/"
                    ++ Location.format (Location.local_path L))%string).
      - subst L'. cbn [Location.url]. rewrite append_assoc. reflexivity.
      - destruct Hs as [<-|[<-|[]]]; discriminate.
      - cbn [In] in *. tauto. }
    split; [exact Hr|]. split; [exact Ho|]. split.
    + intros Hc. unfold Location.validate. apply validate_ok_iff.
      intros chk [<-|[<-|[<-|[<-|[<-|[]]]]]].
      * exact (Vs (Location._validate_checksum L) ltac:(among_checks)).
      * unfold Location._validate_contents, Location.has_contents. subst L'.
        cbn [Location.contents]. rewrite Hc. reflexivity.
      * exact (Vs (Location._validate_local_path L) ltac:(among_checks)).
      * exact (Vs (Location._validate_size L) ltac:(among_checks)).
      * unfold Location._validate_url. rewrite Ho, Hu. reflexivity.
    + intros Hc. apply validate_raises with (c := Location._validate_contents L');
        [among_checks|].
      exists ValueError. unfold Location._validate_contents, Location.has_contents.
      rewrite Ho. subst L'. cbn [Location.contents].
      destruct (Location.contents L); [congruence | reflexivity].
  - intros base_url Hb. rewrite with_remote_url_fields, Hb.
    set (L' := {| Location.url := _ |}).
    apply validate_raises with (c := Location._validate_url L');
      [among_checks|].
    exists ValueError. unfold Location._validate_url. subst L'.
    cbn [Location.url _assert_type _assert_not_blank bind append].
    assert (A : forall x, String.prefix "/" (String "/" x) = true)
      by (intros x; apply (prefix_append "/" x)).
    rewrite A. reflexivity.
Qed.

Lemma with_remote_url_validity_witness :
  Location.validate Sample.oci_location = Ok tt
  /\ Location.rstrip "/" "cdn.example.com/compose/" <> EmptyString
  /\ Location.contents Sample.oci_location = []
  /\ Location.validate
       (Location.with_remote_url Sample.oci_location
          ("https://" ++ "cdn.example.com/compose/")) = Ok tt.
Proof.
  assert (V : Location.validate Sample.oci_location = Ok tt)
    by (vm_compute; reflexivity).
  assert (R : Location.rstrip "/" "cdn.example.com/compose/" <> EmptyString)
    by (vm_compute; discriminate).
  split; [exact V|]. split; [exact R|]. split; [reflexivity|].
  exact (proj1 (proj2 (proj2
           (proj1 (with_remote_url_validity Sample.oci_location V)
              "https://" "cdn.example.com/compose/"
              (or_introl eq_refl) R))) eq_refl).
Defined.

(* ------------------------------------------------------------------ *)
(** * Files *)

Lemma io_bind_return {A B : Type} (m : io A) (f : A -> io B) (b : B) :
  io_bind m f = Return b -> exists a, m = Return a /\ f a = Return b.
Proof. destruct m as [a|e]; cbn [io_bind]; [eauto | discriminate]. Qed.

(** A string of the form that [C8] describes is parsed. *)
Lemma checksum_accepted (algorithm digest : string) :
  In algorithm Spec.algorithms ->
  digest <> EmptyString ->
  Spec.lowercase_hex digest = true ->
  parse_checksum (algorithm ++ ":" ++ digest) = Ok (Some algorithm, Some digest).
Proof.
  intros Ha Hn Hd. unfold parse_checksum, Re.rmatch, CHECKSUM_RE.
  cbn [Re.run].
  destruct Ha as [<-|[<-|[<-|[<-|[]]]]];
    cbn [append Re.strip_prefix Ascii.eqb Bool.eqb];
    (erewrite plus_all; [| exact Hn | exact Hd | reflexivity]);
    rewrite consumed_all.
  - pose proof (consumed_app "sha256" (":" ++ digest)) as E.
    cbn [append] in E. rewrite E. reflexivity.
  - pose proof (consumed_app "sha512" (":" ++ digest)) as E.
    cbn [append] in E. rewrite E. reflexivity.
  - pose proof (consumed_app "sha1" (":" ++ digest)) as E.
    cbn [append] in E. rewrite E. reflexivity.
  - pose proof (consumed_app "md5" (":" ++ digest)) as E.
    cbn [append] in E. rewrite E. reflexivity.
Qed.

Lemma lower_hex (digest : string) :
  Spec.hex_digits digest ->
  lower digest <> EmptyString /\ Spec.lowercase_hex (lower digest) = true.
Proof.
  intros (Hn & Hh). split.
  - destruct digest; [congruence | discriminate].
  - unfold Spec.lowercase_hex. clear Hn.
    induction digest as [|c d IH]; [reflexivity|].
    cbn [lower list_ascii_of_string forallb] in *.
    apply andb_prop in Hh as (Hc & Hd). rewrite Hc, (IH Hd). reflexivity.
Qed.

(** X23.  [from_local_file] with [compute_integrity=False] touches no
    file: on every platform it returns a [Location] whose url and local
    path are the path, whose size is 0 and whose checksum is [sha256:] and
    64 zeros.  This placeholder passes [validate] exactly when the path is
    not empty, not absolute and, if it starts with [oci://], contains
    [@sha256:]. *)
Theorem placeholder_location `{Platform} (path base_dir : string) :
  exists L,
    Location.from_local_file path base_dir false = Return L
    /\ Location.url L = Some path
    /\ Location.local_path L = Some path
    /\ Location.size L = Some 0
    /\ Location.checksum L = Some (Sample.digest "0")
    /\ Location.contents L = []
    /\ (Location.validate L = Ok tt
        <-> path <> EmptyString
            /\ String.prefix "/" path = false
            /\ (String.prefix "oci://" path = true ->
                str_contains "@sha256:" path = true)).
Proof.
  eexists. split; [reflexivity|]. cbn [Location.url Location.local_path
    Location.size Location.checksum Location.contents Location.__init__].
  repeat match goal with |- _ /\ _ => split; [reflexivity|] end.
  set (L := {| Location.url := Some path |}).
  unfold Location.validate. rewrite validate_ok_iff. split.
  - intros V.
    pose proof (proj1 (validate_url_iff L)
                  (V (Location._validate_url L) ltac:(among_checks)))
      as (u & [= <-] & Hn & Ha & Ho).
    auto.
  - intros (Hn & Ha & Ho) c [<-|[<-|[<-|[<-|[<-|[]]]]]].
    + vm_compute. reflexivity.
    + reflexivity.
    + apply (proj2 (checked_path_iff (Some path))). exists path. auto.
    + reflexivity.
    + apply validate_url_iff. exists path. auto.
Qed.

Lemma placeholder_location_witness :
  exists L,
    @Location.from_local_file Sample.one_file "a.bin" "nowhere" false = Return L
    /\ Location.validate L = Ok tt.
Proof.
  destruct (@placeholder_location Sample.one_file "a.bin" "nowhere")
    as (L & F & _ & _ & _ & _ & _ & V).
  exists L. split; [exact F|]. apply V.
  split; [discriminate|]. split; [reflexivity | discriminate].
Defined.

Lemma compute_checksum_form `{Platform} (path algorithm c : string) :
  Location.compute_checksum path (Some algorithm) = Return c ->
  exists h, c = (algorithm ++ ":" ++ lower (hasher_hexdigest h))%string.
Proof.
  unfold Location.compute_checksum. intros E.
  apply io_bind_return in E as (h & _ & E).
  apply io_bind_return in E as (blocks & _ & E).
  injection E as <-. eexists. reflexivity.
Qed.



(** X25.  [verify] never returns [False].  It returns [True] exactly when
    the size of the file is the recorded size and the checksum computed
    with the algorithm of the recorded checksum is the recorded checksum.
    The size is compared first: when it differs, [verify] raises
    [ValueError], whatever hashing the file would give. *)
Theorem verify_iff `{Platform} (L : Location.t) (path : string) :
  (forall b, Location.verify L path = Return b -> b = true)
  /\ (Location.verify L path = Return true
      <-> exists n algo c,
            getsize path = Return n
            /\ Location.size L = Some n
            /\ Location.checksum_algorithm L = Ok algo
            /\ Location.compute_checksum path algo = Return c
            /\ Location.checksum L = Some c)
  /\ (forall n, getsize path = Return n ->
                Location.size L <> Some n ->
                Location.verify L path = Throw (Builtin ValueError)).
Proof.
  unfold Location.verify, Location.verify_size, Location.verify_checksum.
  split; [|split].
  - intros b E. apply io_bind_return in E as (? & _ & E).
    apply io_bind_return in E as (? & _ & E). congruence.
  - split.
    + intros E. apply io_bind_return in E as (b1 & E1 & E).
      apply io_bind_return in E as (b2 & E2 & _).
      apply io_bind_return in E1 as (n & Hn & E1).
      apply io_bind_return in E2 as (algo & Ha & E2).
      apply io_bind_return in E2 as (c & Hc & E2).
      destruct (eq_attr Z.eqb (Some n) (Location.size L)) eqn:Es;
        [|discriminate].
      destruct (eq_attr String.eqb (Some c) (Location.checksum L)) eqn:Ec;
        [|discriminate].
      apply eq_attr_int in Es. apply eq_attr_str in Ec.
      exists n, algo, c.
      destruct (Location.checksum_algorithm L); [|discriminate].
      injection Ha as ->. auto.
    + intros (n & algo & c & Hn & Hs & Ha & Hc & Hk).
      rewrite Hn, Hs, Ha, Hk. cbn [io_bind lift eq_attr].
      rewrite Z.eqb_refl, Hc. cbn [io_bind eq_attr].
      rewrite String.eqb_refl. reflexivity.
  - intros n Hn Hs. rewrite Hn. cbn [io_bind].
    destruct (eq_attr Z.eqb (Some n) (Location.size L)) eqn:E; [|reflexivity].
    apply eq_attr_int in E. congruence.
Qed.

(** X26.  What [from_local_file] records, [verify] confirms: on a
    platform whose hasher prints hexadecimal digits, the [Location] that
    [from_local_file(path, base_dir)] returns passes [verify] against the
    file it was made from. *)
Theorem recorded_file_verifies `{Platform} (path base_dir : string)
        (L : Location.t) :
  Spec.prints_hex ->
  Location.from_local_file path base_dir true = Return L ->
  Location.verify L (path_join base_dir [path]) = Return true.
Proof.
  intros Hp. unfold Location.from_local_file. intros E.
  apply io_bind_return in E as (n & Hn & E).
  apply io_bind_return in E as (c & Hc & E).
  injection E as <-.
  unfold Location.verify, Location.verify_size, Location.verify_checksum,
    Location.checksum_algorithm.
  cbn [Location.size Location.checksum].
  rewrite Hn. cbn [io_bind eq_attr]. rewrite Z.eqb_refl. cbn [io_bind].
  destruct (compute_checksum_form _ _ _ Hc) as (h & Ec).
  destruct (lower_hex _ (Hp h)) as (Hne & Hl).
  assert (P : parse_checksum c
              = Ok (Some CHECKSUM_ALGO, Some (lower (hasher_hexdigest h)))).
  { rewrite Ec. apply checksum_accepted; [left; reflexivity | exact Hne | exact Hl]. }
  assert (T : truthy_str (Some c) = true) by (rewrite Ec; reflexivity).
  rewrite T, P. cbn [bind fst lift io_bind]. rewrite Hc. cbn [io_bind eq_attr].
  rewrite String.eqb_refl. reflexivity.
Qed.

Lemma verify_iff_witness :
  getsize (Platform := Sample.one_file) "out/a.bin" = Return 3
  /\ Location.size Sample.boot_files <> Some 3
  /\ @Location.verify Sample.one_file Sample.boot_files "out/a.bin"
     = Throw (Builtin ValueError).
Proof.
  assert (S : Location.size Sample.boot_files <> Some 3) by discriminate.
  split; [reflexivity|]. split; [exact S|].
  exact (proj2 (proj2 (@verify_iff Sample.one_file Sample.boot_files "out/a.bin"))
           3 eq_refl S).
Defined.

Lemma recorded_file_verifies_witness :
  @Spec.prints_hex Sample.one_file
  /\ exists L,
       @Location.from_local_file Sample.one_file "a.bin" "out" true = Return L
       /\ @Location.verify Sample.one_file L
            (path_join "out" ["a.bin"]) = Return true.
Proof.
  assert (P : @Spec.prints_hex Sample.one_file).
  { intros h. cbn. destruct (h =? 3)%nat; (split; [discriminate | reflexivity]). }
  split; [exact P|]. eexists. split; [reflexivity|].
  exact (@recorded_file_verifies Sample.one_file "a.bin" "out" _ P eq_refl).
Defined.
